(** * Sales warehouse build and outlier detector

    A shallow embedding of [src/load_data.py] (the star-schema transform
    and the SQLite loader), of [detect_monthly_outliers] in
    [src/analyze_sales.py] and of [detect_outlier_months] in
    [dashboard/app.py].

    Conventions.
    - A pandas column of Python strings is a [list] of [string]; a column
      that may hold missing values (NaN) is a [list (option string)].
      Rocq strings are byte strings: a Python [str] is taken in its UTF-8
      encoding, on which byte-wise comparison agrees with Python's
      code-point comparison.
    - Python [int] is [Z]; [float] is the binary64 type [float] of the
      kernel, with the primitive IEEE operations.
    - A Python [dict] is a [gmap].
    - An exception is a value of [exn]; a computation that may raise
      returns [exn + A].
    - A raw record may miss its order date, region, channel, segment or
      category (NaN in the frame); its order id, product name and measures
      are taken to be present. *)

From Stdlib Require Import ZArith String Ascii List Floats QArith Qround Lia.
From stdpp Require Import base option list sorting gmap strings pretty.

#[local] Open Scope string_scope.
#[local] Open Scope list_scope.
#[local] Open Scope Z_scope.

(** ** Python exceptions raised by the modelled code *)

Inductive exn : Type :=
  (** [pd.to_datetime] on a string it cannot parse *)
  | DateParseError (raw : string)
  (** [int(s)] on a string that is not an integer literal *)
  | ValueError_invalid_literal (s : string)
  (** [.astype(int)] / [int(...)] on an object column or scalar holding NaN *)
  | ValueError_NaN_to_int
  (** [.astype(int)] on a float column holding NaN *)
  | IntCastingNaNError
  (** a [dict] subscript on an absent key; the key is the exception's argument *)
  | KeyError (key : string * option string)
  (** [sqlite3.IntegrityError] raised by an insert *)
  | IntegrityError (table : string)
  (** [sqlite3.OperationalError] raised by a statement *)
  | OperationalError (message : string).

Definition exn_class (e : exn) : string :=
  match e with
  | DateParseError _ => "DateParseError"
  | ValueError_invalid_literal _ => "ValueError"
  | ValueError_NaN_to_int => "ValueError"
  | IntCastingNaNError => "IntCastingNaNError"
  | KeyError _ => "KeyError"
  | IntegrityError _ => "IntegrityError"
  | OperationalError _ => "OperationalError"
  end.

(** The text carried by the exception: the message pandas builds, or the
    subscripted key for a [KeyError]. *)
Definition exn_message (e : exn) : string :=
  match e with
  | DateParseError raw => "Unknown datetime string format, unable to parse: " +:+ raw
  | ValueError_invalid_literal s => "invalid literal for int() with base 10: '" +:+ s +:+ "'"
  | ValueError_NaN_to_int => "cannot convert float NaN to integer"
  | IntCastingNaNError => "Cannot convert non-finite values (NA or inf) to integer"
  | KeyError (name, Some category) => "('" +:+ name +:+ "', '" +:+ category +:+ "')"
  | KeyError (name, None) => "('" +:+ name +:+ "', nan)"
  | IntegrityError table => "constraint failed: " +:+ table
  | OperationalError message => message
  end.

Definition result (A : Type) : Type := exn + A.

#[global] Instance result_ret : MRet result := λ A a, inr a.
#[global] Instance result_bind : MBind result :=
  λ A B k m, match m with inl e => inl e | inr a => k a end.
#[global] Instance result_fmap : FMap result :=
  λ A B f m, match m with inl e => inl e | inr a => inr (f a) end.

Definition raise {A} (e : exn) : result A := inl e.

(** ** Orders on strings *)

(** Python's [<=] and [<] on [str]: lexicographic and case-sensitive.
    [String.le] is a total order ([String.le_po], [String.le_total]). *)
Definition str_le : relation string := String.le.
Definition str_lt (a b : string) : Prop := String.ltb a b = true.

#[global] Instance str_le_dec : RelDecision str_le := String.le_dec.
#[global] Instance str_le_po : PartialOrder str_le := String.le_po.
#[global] Instance str_le_total : Total str_le := String.le_total.

(** ** pandas / Python primitives on columns *)

(** [Series.dropna()] *)
Definition dropna {A} (s : list (option A)) : list A := omap id s.

(** [Series.unique()] and [drop_duplicates()]: the distinct values, each at
    the place of its first occurrence. *)
Definition drop_duplicates `{EqDecision A} (s : list A) : list A :=
  reverse (remove_dups (reverse s)).

(** [sorted(values)] on strings. *)
Definition sorted (values : list string) : list string := merge_sort str_le values.

(** [range(1, n + 1)] *)
Definition range_from_1 (n : nat) : list Z := Z.of_nat <$> seq 1 n.

(** ** Dimension extractor: [build_dimension] *)

Record DimensionRow : Type := mkDimensionRow {
  surrogate_key : Z;
  natural_value : string
}.

Record DimensionTable : Type := mkDimensionTable {
  dim_id_col : string;
  dim_name_col : string;
  dim_rows : list DimensionRow
}.

Definition build_dimension (source : list (option string)) (id_col name_col : string)
  : DimensionTable :=
  let values := sorted (drop_duplicates (dropna source)) in
  mkDimensionTable id_col name_col
    (zip_with mkDimensionRow (range_from_1 (length values)) values).

Definition dim_ids (t : DimensionTable) : list Z := surrogate_key <$> dim_rows t.
Definition dim_names (t : DimensionTable) : list string := natural_value <$> dim_rows t.


(** ** Calendar dates *)

(** The date carried by a pandas [Timestamp] of a date-only string. A
    time of day is not carried: two strings of one day with different
    times are distinct values for pandas and one value here, so what is
    proved of the rows of the date dimension is stated for order dates
    written as [YYYY-MM-DD]. *)
Record Timestamp : Type := mkTimestamp {
  ts_year : Z;
  ts_month : Z;
  ts_day : Z
}.

#[global] Instance Timestamp_eq_dec : EqDecision Timestamp.
Proof. solve_decision. Defined.

Definition is_leap_year (y : Z) : bool :=
  ((y mod 4 =? 0) && negb (y mod 100 =? 0)) || (y mod 400 =? 0).

Definition days_in_month (y m : Z) : Z :=
  if m =? 2 then (if is_leap_year y then 29 else 28)
  else if (m =? 4) || (m =? 6) || (m =? 9) || (m =? 11) then 30
  else 31.

(** A calendar date in the range pandas can represent
    ([Timestamp.min] is in 1677, [Timestamp.max] in 2262). *)
Definition valid_date (d : Timestamp) : Prop :=
  1678 ≤ ts_year d ≤ 2261 ∧ 1 ≤ ts_month d ≤ 12
  ∧ 1 ≤ ts_day d ≤ days_in_month (ts_year d) (ts_month d).

(** Chronological order, the order of [sort_values] on a datetime column. *)
Definition ts_le (a b : Timestamp) : Prop :=
  ts_year a < ts_year b
  ∨ (ts_year a = ts_year b
     ∧ (ts_month a < ts_month b ∨ (ts_month a = ts_month b ∧ ts_day a ≤ ts_day b))).

#[global] Instance ts_le_dec a b : Decision (ts_le a b).
Proof. unfold ts_le. apply _. Defined.

(** *** [strftime] and [int] *)

Definition digit_char (n : Z) : ascii := ascii_of_nat (48 + Z.to_nat (n mod 10)).

(** [%0wd] for [0 <= n < 10^w]: the [w] low decimal digits of [n], most
    significant first. *)
Fixpoint zero_padded (w : nat) (n : Z) : string :=
  match w with
  | O => EmptyString
  | S w' => zero_padded w' (n / 10) +:+ String (digit_char n) EmptyString
  end.

(** [strftime("%Y%m%d")] *)
Definition strftime_Ymd (d : Timestamp) : string :=
  zero_padded 4 (ts_year d) +:+ zero_padded 2 (ts_month d) +:+ zero_padded 2 (ts_day d).

(** [strftime("%Y-%m-%d")] *)
Definition strftime_Y_m_d (d : Timestamp) : string :=
  zero_padded 4 (ts_year d) +:+ "-" +:+ zero_padded 2 (ts_month d)
  +:+ "-" +:+ zero_padded 2 (ts_day d).

Definition month_abbreviations : list string :=
  ["Jan"; "Feb"; "Mar"; "Apr"; "May"; "Jun"; "Jul"; "Aug"; "Sep"; "Oct"; "Nov"; "Dec"].

(** [strftime("%b")] in the C / English locale. *)
Definition strftime_b (d : Timestamp) : string :=
  default EmptyString (month_abbreviations !! Z.to_nat (ts_month d - 1)).

(** [Timestamp.quarter] *)
Definition dt_quarter (d : Timestamp) : Z := (ts_month d - 1) / 3 + 1.

Definition digit_value (c : ascii) : option Z :=
  let n := Z.of_nat (nat_of_ascii c) in
  if (48 <=? n) && (n <=? 57) then Some (n - 48) else None.

Fixpoint int_of_digits (acc : Z) (s : string) : option Z :=
  match s with
  | EmptyString => Some acc
  | String c s' => v ← digit_value c; int_of_digits (acc * 10 + v) s'
  end.

(** [int(s)] on an unsigned decimal literal; [None] stands for the
    [ValueError] Python raises on anything else. *)
Definition int_of_str (s : string) : option Z :=
  match s with
  | EmptyString => None
  | _ => int_of_digits 0 s
  end.

(** [.astype(int)] on a column that holds NaN where a value is absent:
    pandas refuses to cast when any entry is NaN. [e] is the exception of
    the column's dtype. *)
Definition astype_int (e : exn) (col : list (option Z)) : result (list Z) :=
  match mapM id col with
  | Some ids => mret ids
  | None => raise e
  end.

(** [Series.map(d)] for a dict [d]: absent keys (and NaN) map to NaN. *)
Definition series_map `{Countable K} (d : gmap K Z) (col : list (option K)) : list (option Z) :=
  (λ v, k ← v; d !! k) <$> col.

(** [dict(zip(keys, values))]: a later pair overrides an earlier one. *)
Definition dict_zip `{Countable K} {V} (keys : list K) (values : list V) : gmap K V :=
  foldl (λ d kv, <[kv.1 := kv.2]> d) ∅ (zip keys values).

(** ** Raw records

    A row of the raw file. The five natural keys read by [Series.map] may
    be missing; the product name, which is only ever used as part of a
    dict key, is taken as present, and the integers are unbounded (see
    [int64] for what the loader can store). *)

Record RawTransaction : Type := mkRawTransaction {
  order_id : Z;
  order_date : option string;
  region : option string;
  channel : option string;
  customer_segment : option string;
  category : option string;
  product_name : string;
  units_sold : Z;
  unit_price : float;
  discount_pct : float;
  gross_revenue : float;
  net_revenue : float;
  cost : float;
  profit : float
}.

(** ** Date dimension builder: [create_dim_date] *)

Record DateDimensionRow : Type := mkDateDimensionRow {
  date_id : Z;
  dd_order_date : string;
  dd_year : Z;
  dd_month : Z;
  dd_month_name : string;
  dd_quarter : string
}.

(** The row the builder derives from one date (lines 23 to 28). *)
Definition date_row (d : Timestamp) : result DateDimensionRow :=
  match int_of_str (strftime_Ymd d) with
  | Some id =>
      mret (mkDateDimensionRow id (strftime_Y_m_d d) (ts_year d) (ts_month d)
              (strftime_b d) ("Q" +:+ pretty (dt_quarter d)))
  | None => raise (ValueError_invalid_literal (strftime_Ymd d))
  end.

(** ** Product dimension and fact rows *)

Record ProductDimensionRow : Type := mkProductDimensionRow {
  product_id : Z;
  pd_product_name : string;
  pd_category_id : Z
}.

Record FactSalesRow : Type := mkFactSalesRow {
  fs_order_id : Z;
  fs_date_id : Z;
  fs_region_id : Z;
  fs_channel_id : Z;
  fs_segment_id : Z;
  fs_product_id : Z;
  fs_units_sold : Z;
  fs_unit_price : float;
  fs_discount_pct : float;
  fs_gross_revenue : float;
  fs_net_revenue : float;
  fs_cost : float;
  fs_profit : float
}.

Record StarSchema : Type := mkStarSchema {
  dim_date : list DateDimensionRow;
  dim_region : DimensionTable;
  dim_channel : DimensionTable;
  dim_segment : DimensionTable;
  dim_category : DimensionTable;
  dim_product : list ProductDimensionRow;
  fact_sales : list FactSalesRow
}.

(** Order of [sort_values(["category", "product_name"])] on
    (product_name, category) rows. *)
Definition pair_le (a b : string * option string) : Prop :=
  match a.2, b.2 with
  | Some ca, Some cb => str_lt ca cb ∨ (ca = cb ∧ str_le a.1 b.1)
  | Some _, None => True
  | None, Some _ => False
  | None, None => str_le a.1 b.1
  end.

#[global] Instance pair_le_dec a b : Decision (pair_le a b).
Proof. unfold pair_le, str_lt. destruct (a.2), (b.2); apply _. Defined.

(** [left.merge(right, how="left")]: every left row, in order, paired with
    each right row it matches, or with a null row when it matches none.
    Columns have no dtype here: the merge of two frames without rows,
    which pandas refuses when the dtypes of the keys differ, is not
    modelled, and what is proved of the transform returning is stated for
    raw sets that are not empty. *)
Definition merge_left {L R} (matches : L → R → bool) (left : list L) (right : list R)
  : list (L * option R) :=
  l ← left;
  match filter (λ r, matches l r = true) right with
  | [] => [(l, None)]
  | rs => (λ r, (l, Some r)) <$> rs
  end.

(** The rows of [fact_sales], built column by column: row [i] takes its
    keys from position [i] of each key column. *)
Fixpoint fact_rows (df : list RawTransaction) (date_ids region_ids channel_ids
    segment_ids product_ids : list Z) : list FactSalesRow :=
  match df, date_ids, region_ids, channel_ids, segment_ids, product_ids with
  | r :: df', d :: ds, g :: gs, c :: cs, s :: ss, p :: ps =>
      mkFactSalesRow (order_id r) d g c s p (units_sold r) (unit_price r)
        (discount_pct r) (gross_revenue r) (net_revenue r) (cost r) (profit r)
      :: fact_rows df' ds gs cs ss ps
  | _, _, _, _, _, _ => []
  end.

Section Transform.

(** [pd.to_datetime] on one date string: the parser belongs to pandas,
    so the transform is stated for any parser. [None] is a string pandas
    rejects. *)
Variable to_datetime : string → option Timestamp.

(** [pd.to_datetime(df["order_date"])]: a missing entry becomes NaT
    ([None]); an unparsable one raises. The column is read one string at a
    time; pandas takes the format of the column from its first string, so
    the two agree on a column written in one format. *)
Definition to_datetime_column (col : list (option string)) : result (list (option Timestamp)) :=
  mapM (M := result) (λ v : option string,
          match v with
          | None => mret None
          | Some s => match to_datetime s with
                      | Some d => mret (Some d)
                      | None => raise (DateParseError s)
                      end
          end) col.

(** [.drop_duplicates().sort_values()] on a datetime column: ascending,
    NaT last. *)
Definition sort_values_dates (col : list (option Timestamp)) : list (option Timestamp) :=
  (Some <$> merge_sort ts_le (dropna col)) ++ filter (λ v, v = None) col.

Definition create_dim_date (df : list RawTransaction) : result (list DateDimensionRow) :=
  parsed ← to_datetime_column (order_date <$> df);
  let date_values := sort_values_dates (drop_duplicates parsed) in
  (* line 23: strftime gives NaN on NaT, and astype(int) then raises *)
  mapM (M := result) (λ v : option Timestamp,
          match v with
          | Some d => date_row d
          | None => raise ValueError_NaN_to_int
          end) date_values.

(** *** Composite key resolver: the product dimension *)

(** Rows of [df[["product_name", "category"]]]. *)
Definition product_pairs (df : list RawTransaction) : list (string * option string) :=
  (λ r, (product_name r, category r)) <$> df.

(** [.sort_values(["category", "product_name"])]: by category, then by
    product name; a missing category sorts last. *)
Definition sort_values_category_product (pairs : list (string * option string))
  : list (string * option string) :=
  merge_sort pair_le pairs.

(** Lines 41 to 46: the distinct pairs in surrogate order. *)
Definition dim_product_pairs (df : list RawTransaction) : list (string * option string) :=
  sort_values_category_product (drop_duplicates (product_pairs df)).

(** Lines 41 to 49. *)
Definition build_dim_product (df : list RawTransaction) (category_map : gmap string Z)
  : result (list ProductDimensionRow) :=
  let pairs := dim_product_pairs df in
  let product_ids := range_from_1 (length pairs) in
  category_ids ← astype_int IntCastingNaNError (series_map category_map (snd <$> pairs));
  mret (zip_with (λ '(pid, cid) name, mkProductDimensionRow pid name cid)
          (zip product_ids category_ids) (fst <$> pairs)).

(** Lines 57 to 66: the distinct pairs of the raw set, left-joined to the
    product dimension (itself left-joined to the category dimension). *)
Definition product_key_df (df : list RawTransaction)
    (dim_product : list ProductDimensionRow) (dim_category : DimensionTable)
  : list (string * option string * option Z) :=
  let right :=
    merge_left (λ p c, bool_decide (pd_category_id p = surrogate_key c))
      dim_product (dim_rows dim_category) in
  let joined :=
    merge_left
      (λ (l : string * option string) (r : ProductDimensionRow * option DimensionRow),
         bool_decide (l.1 = pd_product_name r.1 ∧ l.2 = natural_value <$> r.2))
      (drop_duplicates (product_pairs df)) right in
  (λ lr : (string * option string) * option (ProductDimensionRow * option DimensionRow),
     (lr.1.1, lr.1.2,
      (λ r : ProductDimensionRow * option DimensionRow, product_id r.1) <$> lr.2))
  <$> joined.

(** Lines 67 and 68: [int(record.product_id)] raises on NaN. *)
Fixpoint product_map_loop (product_map : gmap (string * option string) Z)
    (records : list (string * option string * option Z))
  : result (gmap (string * option string) Z) :=
  match records with
  | [] => mret product_map
  | (name, category, Some pid) :: rest =>
      product_map_loop (<[(name, category) := pid]> product_map) rest
  | (_, _, None) :: _ => raise ValueError_NaN_to_int
  end.

(** *** Fact assembler: lines 70 to 96 *)

Definition lookup_product (product_map : gmap (string * option string) Z)
    (r : RawTransaction) : result Z :=
  match product_map !! (product_name r, category r) with
  | Some pid => mret pid
  | None => raise (KeyError (product_name r, category r))
  end.

Definition assemble_fact_sales (df : list RawTransaction)
    (date_map region_map channel_map segment_map : gmap string Z)
    (product_map : gmap (string * option string) Z)
  : result (list FactSalesRow) :=
  date_ids ← astype_int IntCastingNaNError (series_map date_map (order_date <$> df));
  region_ids ← astype_int IntCastingNaNError (series_map region_map (region <$> df));
  channel_ids ← astype_int IntCastingNaNError (series_map channel_map (channel <$> df));
  segment_ids ← astype_int IntCastingNaNError
                  (series_map segment_map (customer_segment <$> df));
  product_ids ← mapM (M := result) (lookup_product product_map) df;
  mret (fact_rows df date_ids region_ids channel_ids segment_ids product_ids).

(** *** [transform_to_star_schema] *)

Definition transform_to_star_schema (df : list RawTransaction) : result StarSchema :=
  dim_date ← create_dim_date df;
  let dim_region := build_dimension (region <$> df) "region_id" "region_name" in
  let dim_channel := build_dimension (channel <$> df) "channel_id" "channel_name" in
  let dim_segment :=
    build_dimension (customer_segment <$> df) "segment_id" "segment_name" in
  let dim_category := build_dimension (category <$> df) "category_id" "category_name" in
  let category_map := dict_zip (dim_names dim_category) (dim_ids dim_category) in
  dim_product ← build_dim_product df category_map;
  let date_map := dict_zip (dd_order_date <$> dim_date) (date_id <$> dim_date) in
  let region_map := dict_zip (dim_names dim_region) (dim_ids dim_region) in
  let channel_map := dict_zip (dim_names dim_channel) (dim_ids dim_channel) in
  let segment_map := dict_zip (dim_names dim_segment) (dim_ids dim_segment) in
  product_map ← product_map_loop ∅ (product_key_df df dim_product dim_category);
  fact_sales ← assemble_fact_sales df date_map region_map channel_map segment_map
                 product_map;
  mret (mkStarSchema dim_date dim_region dim_channel dim_segment dim_category
          dim_product fact_sales).

End Transform.

(** *** A parser for ISO dates

    [pd.to_datetime] restricted to the strings the generator writes,
    [YYYY-MM-DD]; used to run the transform on concrete record sets. *)

Definition valid_dateb (d : Timestamp) : bool :=
  bool_decide (valid_date d).

Definition parse_iso_date (s : string) : option Timestamp :=
  match s with
  | String y1 (String y2 (String y3 (String y4 (String "-"
      (String m1 (String m2 (String "-" (String d1 (String d2 EmptyString))))))))) =>
      y ← int_of_str (String y1 (String y2 (String y3 (String y4 EmptyString)))) ;
      m ← int_of_str (String m1 (String m2 EmptyString)) ;
      d ← int_of_str (String d1 (String d2 EmptyString)) ;
      let ts := mkTimestamp y m d in
      if valid_dateb ts then Some ts else None
  | _ => None
  end.

(** [pd.to_datetime] also reads a date followed by a midnight time of
    day, [YYYY-MM-DD 00:00:00], as that date. *)
Definition parse_iso_datetime (s : string) : option Timestamp :=
  match parse_iso_date s with
  | Some d => Some d
  | None =>
      if String.eqb (String.substring 10 (String.length s - 10) s) " 00:00:00"
      then parse_iso_date (String.substring 0 10 s)
      else None
  end.

(** ** Warehouse loader: [load_to_sqlite]

    The SQLite file is a finite map from table names to rows, in insertion
    order. A connection adds the state of the transaction that is open on
    it, if any: Python's [sqlite3] module opens one implicitly before an
    INSERT and leaves it open until [commit()] or [rollback()]. *)

Inductive sql_value : Type :=
  | SqlInt (n : Z)
  | SqlText (s : string)
  | SqlReal (x : float).

Abbreviation sql_row := (list sql_value).
Abbreviation table := (list (list sql_value)).

Record connection : Type := mkConnection {
  persisted : gmap string table;
  pending : option (gmap string table)
}.

(** What a statement on the connection sees. *)
Definition view (c : connection) : gmap string table := default (persisted c) (pending c).

Definition commit (c : connection) : connection := mkConnection (view c) None.
Definition rollback (c : connection) : connection := mkConnection (persisted c) None.

(** Computations on a connection that may raise: the connection is kept
    as the exception left it. *)
Definition sql (A : Type) : Type := connection → result A * connection.

#[global] Instance sql_ret : MRet sql := λ A a c, (inr a, c).
#[global] Instance sql_bind : MBind sql :=
  λ A B k m c, match m c with
               | (inl e, c') => (inl e, c')
               | (inr a, c') => k a c'
               end.

Inductive statement : Type :=
  | PragmaForeignKeys (on : bool)
  | DropTableIfExists (name : string)
  | CreateTable (name : string).

(** One statement in autocommit mode. *)
Definition execute_statement (s : statement) (db : gmap string table)
  : result (gmap string table) :=
  match s with
  | PragmaForeignKeys _ => mret db
  | DropTableIfExists name => mret (delete name db)
  | CreateTable name =>
      match db !! name with
      | Some _ => raise (OperationalError ("table " +:+ name +:+ " already exists"))
      | None => mret (<[name := []]> db)
      end
  end.

Fixpoint execute_statements (script : list statement) (db : gmap string table)
  : result unit * gmap string table :=
  match script with
  | [] => (inr (), db)
  | s :: script' =>
      match execute_statement s db with
      | inl e => (inl e, db)
      | inr db' => execute_statements script' db'
      end
  end.

(** [connection.executescript(script)]: a pending transaction is committed
    first; the statements then run outside any transaction, so each takes
    effect in the file at once. *)
Definition executescript (script : list statement) : sql unit :=
  λ c, let c0 := commit c in
       let '(r, db) := execute_statements script (persisted c0) in
       (r, mkConnection db None).

(** Lines 113 to 123. *)
Definition drop_sql : list statement :=
  [ PragmaForeignKeys false;
    DropTableIfExists "fact_sales";
    DropTableIfExists "dim_product";
    DropTableIfExists "dim_category";
    DropTableIfExists "dim_customer_segment";
    DropTableIfExists "dim_channel";
    DropTableIfExists "dim_region";
    DropTableIfExists "dim_date";
    PragmaForeignKeys true ].

(** Modelled from the spec: [sql/schema.sql] is not among the sources; the
    specification's external interfaces list the seven tables it creates,
    the primary key of each (its first column) and the foreign keys of
    [dim_product] and [fact_sales]. *)
Definition schema_sql : list statement :=
  [ CreateTable "dim_date";
    CreateTable "dim_region";
    CreateTable "dim_channel";
    CreateTable "dim_customer_segment";
    CreateTable "dim_category";
    CreateTable "dim_product";
    CreateTable "fact_sales" ].

Definition warehouse_tables : list string :=
  [ "dim_date"; "dim_region"; "dim_channel"; "dim_customer_segment"; "dim_category";
    "dim_product"; "fact_sales" ].

(** Modelled from the spec: the foreign keys of a table, as (column
    position, referenced table). *)
Definition foreign_keys (name : string) : list (nat * string) :=
  if decide (name = "dim_product") then [(2%nat, "dim_category")]
  else if decide (name = "fact_sales") then
    [(1%nat, "dim_date"); (2%nat, "dim_region"); (3%nat, "dim_channel");
     (4%nat, "dim_customer_segment"); (5%nat, "dim_product")]
  else [].

Definition primary_keys (t : table) : list (option sql_value) := (λ row : sql_row, row !! 0%nat) <$> t.

#[global] Instance sql_value_eq_dec : EqDecision sql_value.
Proof.
  intros [n1|s1|x1] [n2|s2|x2]; try (right; congruence).
  - destruct (decide (n1 = n2)); [left|right]; congruence.
  - destruct (decide (s1 = s2)); [left|right]; congruence.
  - destruct (PrimFloat.Leibniz.eqb x1 x2) eqn:Hx.
    + left. f_equal. by apply FloatAxioms.Leibniz.eqb_spec.
    + right. intros [= ->]. by rewrite (proj2 (FloatAxioms.Leibniz.eqb_spec x2 x2)) in Hx.
Defined.

(** Modelled from the spec: a row may enter a table when its primary key
    is present and new, and each foreign key is the primary key of a row of
    the table it references. *)
Definition schema_row_ok (name : string) (db : gmap string table) (row : sql_row) : bool :=
  bool_decide (is_Some (row !! 0%nat))
  && bool_decide (row !! 0%nat ∉ primary_keys (default [] (db !! name)))
  && forallb (λ fk : nat * string,
                bool_decide (row !! fk.1 ∈ primary_keys (default [] (db !! fk.2))))
       (foreign_keys name).

(** Rows as [to_sql] writes them: one value per column, in the frame's
    column order. *)
Definition date_sql_row (r : DateDimensionRow) : sql_row :=
  [ SqlInt (date_id r); SqlText (dd_order_date r); SqlInt (dd_year r); SqlInt (dd_month r);
    SqlText (dd_month_name r); SqlText (dd_quarter r) ].

Definition dimension_sql_row (r : DimensionRow) : sql_row :=
  [ SqlInt (surrogate_key r); SqlText (natural_value r) ].

Definition product_sql_row (r : ProductDimensionRow) : sql_row :=
  [ SqlInt (product_id r); SqlText (pd_product_name r); SqlInt (pd_category_id r) ].

Definition fact_sql_row (r : FactSalesRow) : sql_row :=
  [ SqlInt (fs_order_id r); SqlInt (fs_date_id r); SqlInt (fs_region_id r);
    SqlInt (fs_channel_id r); SqlInt (fs_segment_id r); SqlInt (fs_product_id r);
    SqlInt (fs_units_sold r); SqlReal (fs_unit_price r); SqlReal (fs_discount_pct r);
    SqlReal (fs_gross_revenue r); SqlReal (fs_net_revenue r); SqlReal (fs_cost r);
    SqlReal (fs_profit r) ].

Section Loader.

(** The integrity constraints the schema puts on an insert of a row into
    a table, given the tables as the statement sees them. *)
Variable row_ok : string → gmap string table → sql_row → bool.

(** [executemany("INSERT ...", rows)]: the first insert opens a
    transaction; a row that breaks a constraint raises and ends the
    statement, with the rows before it pending. *)
Fixpoint executemany_insert (name : string) (rows : list sql_row) : sql unit :=
  match rows with
  | [] => mret ()
  | row :: rows' =>
      λ c, let db := view c in
           if row_ok name db row
           then executemany_insert name rows'
                  (mkConnection (persisted c)
                     (Some (<[name := default [] (db !! name) ++ [row]]> db)))
           else (inl (IntegrityError name), c)
  end.

(** [frame.to_sql(name, connection, if_exists="append", index=False)]:
    pandas creates the table when it is absent, then inserts all rows in
    one transaction of its own: committed when every insert succeeded,
    rolled back when one raised. *)
Definition to_sql (name : string) (rows : list sql_row) : sql unit :=
  λ c, let c1 := match view c !! name with
                 | Some _ => c
                 | None => match pending c with
                           | Some db => mkConnection (persisted c) (Some (<[name := []]> db))
                           | None => mkConnection (<[name := []]> (persisted c)) None
                           end
                 end in
       match executemany_insert name rows c1 with
       | (inr _, c2) => (inr (), commit c2)
       | (inl e, c2) => (inl e, rollback c2)
       end.

(** [with sqlite3.connect(DB_PATH) as connection: body]: commit when the
    body returns, roll back when it raises; the exception propagates. *)
Definition with_connection (body : sql unit) (db : gmap string table)
  : result unit * gmap string table :=
  match body (mkConnection db None) with
  | (inr _, c) => (inr (), persisted (commit c))
  | (inl e, c) => (inl e, persisted (rollback c))
  end.

(** The frames as rows of the tables they are appended to, in the order
    of lines 129 to 135. *)
Definition load_plan (w : StarSchema) : list (string * list sql_row) :=
  [ ("dim_date", date_sql_row <$> dim_date w);
    ("dim_region", dimension_sql_row <$> dim_rows (dim_region w));
    ("dim_channel", dimension_sql_row <$> dim_rows (dim_channel w));
    ("dim_customer_segment", dimension_sql_row <$> dim_rows (dim_segment w));
    ("dim_category", dimension_sql_row <$> dim_rows (dim_category w));
    ("dim_product", product_sql_row <$> dim_product w);
    ("fact_sales", fact_sql_row <$> fact_sales w) ].

Fixpoint to_sql_all (plan : list (string * list sql_row)) : sql unit :=
  match plan with
  | [] => mret ()
  | (name, rows) :: plan' => _ ← to_sql name rows; to_sql_all plan'
  end.

Definition load_to_sqlite (w : StarSchema) (db : gmap string table)
  : result unit * gmap string table :=
  with_connection
    (_ ← executescript drop_sql;
     _ ← executescript schema_sql;
     to_sql_all (load_plan w)) db.

(** [main]: transform the raw set, then load. An exception of the
    transform is raised before the file is opened. *)
Definition main (to_datetime : string → option Timestamp) (sales_df : list RawTransaction)
    (db : gmap string table) : result unit * gmap string table :=
  match transform_to_star_schema to_datetime sales_df with
  | inl e => (inl e, db)
  | inr w => load_to_sqlite w db
  end.

End Loader.

(** ** Outlier detector

    [Series.mean()] and [Series.std(ddof=0)] belong to pandas: the
    detectors are stated for any pair of reductions, and run below with a
    model of pandas' own ([nanmean], [nanstd]). *)

Record MonthlyRow (P : Type) : Type := mkMonthlyRow {
  period : P;
  mr_net_revenue : float
}.
Arguments mkMonthlyRow {P} _ _.
Arguments period {P} _.
Arguments mr_net_revenue {P} _.

Record OutlierRow (P : Type) : Type := mkOutlierRow {
  or_period : P;
  or_net_revenue : float;
  z_score : float
}.
Arguments mkOutlierRow {P} _ _ _.
Arguments or_period {P} _.
Arguments or_net_revenue {P} _.
Arguments z_score {P} _.

(** Order of [sort_values("z_score", ascending=False)]: larger z-scores
    first, NaN last. Rows of equal z-score are equivalent for it; their
    relative order is the sort algorithm's choice. *)
Definition z_desc {P} (a b : OutlierRow P) : Prop :=
  PrimFloat.is_nan (z_score b) = true
  ∨ (PrimFloat.is_nan (z_score a) = false
     ∧ PrimFloat.leb (z_score b) (z_score a) = true).

#[global] Instance z_desc_dec {P} (a b : OutlierRow P) : Decision (z_desc a b).
Proof. unfold z_desc. apply _. Defined.

Definition sort_values_z_score_desc {P} (df : list (OutlierRow P)) : list (OutlierRow P) :=
  merge_sort z_desc df.

(** [df.loc[df["z_score"].abs() >= threshold]] *)
Definition flagged {P} (threshold : float) (r : OutlierRow P) : Prop :=
  PrimFloat.leb threshold (PrimFloat.abs (z_score r)) = true.

#[global] Instance flagged_dec {P} threshold (r : OutlierRow P) : Decision (flagged threshold r).
Proof. unfold flagged. apply _. Defined.

Section Outliers.

Context {P : Type}.

(** [Series.mean()] and [Series.std(ddof=0)] *)
Variable Series_mean : list float → float.
Variable Series_std_ddof0 : list float → float.

(** Lines 87 to 93 of [analyze_sales.py]: the frame with its [z_score]
    column, and beside it the divisors of the divisions the assignment
    evaluates (one per row on line 93, none on line 91). *)
Definition monthly_z_scores (monthly_df : list (MonthlyRow P))
  : list (OutlierRow P) * list float :=
  let revenue := mr_net_revenue <$> monthly_df in
  let mean_value := Series_mean revenue in
  let std_value := Series_std_ddof0 revenue in
  if PrimFloat.eqb std_value 0
  then ((λ r, mkOutlierRow (period r) (mr_net_revenue r) 0) <$> monthly_df, [])
  else ((λ r, mkOutlierRow (period r) (mr_net_revenue r)
                ((mr_net_revenue r - mean_value) / std_value)%float) <$> monthly_df,
        (λ _, std_value) <$> monthly_df).

Definition detect_monthly_outliers (monthly_df : list (MonthlyRow P)) (threshold : float)
  : list (OutlierRow P) :=
  let outlier_df := (monthly_z_scores monthly_df).1 in
  sort_values_z_score_desc (filter (flagged threshold) outlier_df).

(** Lines 50 to 55 of [dashboard/app.py]: the mean is taken inside the
    branch that uses it. *)
Definition outlier_months_z_scores (monthly_df : list (MonthlyRow P))
  : list (OutlierRow P) * list float :=
  let revenue := mr_net_revenue <$> monthly_df in
  let std_value := Series_std_ddof0 revenue in
  if PrimFloat.eqb std_value 0
  then ((λ r, mkOutlierRow (period r) (mr_net_revenue r) 0) <$> monthly_df, [])
  else ((λ r, mkOutlierRow (period r) (mr_net_revenue r)
                ((mr_net_revenue r - Series_mean revenue) / std_value)%float)
          <$> monthly_df,
        (λ _, std_value) <$> monthly_df).

Definition detect_outlier_months (monthly_df : list (MonthlyRow P)) (threshold : float)
  : list (OutlierRow P) :=
  let result := (outlier_months_z_scores monthly_df).1 in
  sort_values_z_score_desc (filter (flagged threshold) result).

End Outliers.

(** *** pandas' reductions

    [nanops.nanmean] and [nanops.nanstd] with [skipna=True]: NaN entries
    are left out, the deviation is the square root of the mean squared
    distance to the mean, with divisor N. The sum is taken left to right;
    numpy adds long arrays pairwise, which can change the last bit of a
    sum and nothing the examples below depend on. *)

Definition float_sum (values : list float) : float := foldl PrimFloat.add 0%float values.

Definition float_of_nat (n : nat) : float := PrimFloat.of_uint63 (Uint63.of_Z (Z.of_nat n)).

Definition notna (values : list float) : list float :=
  filter (λ x, PrimFloat.is_nan x = false) values.

Definition nanmean (values : list float) : float :=
  let present := notna values in
  match present with
  | [] => PrimFloat.nan
  | _ => (float_sum present / float_of_nat (length present))%float
  end.

Definition nanstd_ddof0 (values : list float) : float :=
  let present := notna values in
  match present with
  | [] => PrimFloat.nan
  | _ =>
      let count := float_of_nat (length present) in
      let avg := (float_sum present / count)%float in
      let sqr := (λ x, ((avg - x) * (avg - x))%float) <$> present in
      PrimFloat.sqrt (float_sum sqr / count)
  end.

(** ** Specification predicates *)

(** What the specification asks of the date-dimension row of a date. *)
Definition date_row_ok (d : Timestamp) (row : DateDimensionRow) : Prop :=
  date_id row = ts_year d * 10000 + ts_month d * 100 + ts_day d
  ∧ 10000000 ≤ date_id row ≤ 99999999
  ∧ dd_order_date row = strftime_Y_m_d d
  ∧ dd_year row = ts_year d
  ∧ dd_month row = ts_month d
  ∧ 1 ≤ dd_month row ≤ 12
  ∧ month_abbreviations !! Z.to_nat (ts_month d - 1) = Some (dd_month_name row)
  ∧ String.length (dd_month_name row) = 3%nat
  ∧ dd_quarter row = "Q" +:+ pretty (Qceiling (Qmake (ts_month d) 3)).


(** The file after the drop script and the schema script: the seven
    warehouse tables exist and are empty, every other table is as before. *)
Definition fresh_schema (db : gmap string table) : gmap string table :=
  foldl (λ d name, <[name := []]> d)
    (foldl (λ d name, delete name d) db (reverse warehouse_tables)) warehouse_tables.

(** The file in which the first [k] tables of a load plan hold their
    frames' rows. *)
Definition loaded_prefix (k : nat) (plan : list (string * list sql_row))
    (db : gmap string table) : gmap string table :=
  foldl (λ d (t : string * list sql_row), <[t.1 := t.2]> d) db (take k plan).

(** Two files that differ at most in the seven warehouse tables. *)
Definition agree_outside_warehouse (db1 db2 : gmap string table) : Prop :=
  ∀ name, name ∉ warehouse_tables → db1 !! name = db2 !! name.

(** A raw set the transform accepts: every natural key is present and
    every order date parses to a valid date that [strftime("%Y-%m-%d")]
    writes back as it was read. *)
Definition well_formed (to_datetime : string → option Timestamp) (r : RawTransaction)
  : Prop :=
  (∃ s d, order_date r = Some s ∧ to_datetime s = Some d ∧ valid_date d
          ∧ strftime_Y_m_d d = s)
  ∧ is_Some (region r) ∧ is_Some (channel r) ∧ is_Some (customer_segment r)
  ∧ is_Some (category r).

(** Row-wise reading of the fact assembler: the fact row of one record,
    when each of its natural keys is found in its lookup. *)
Definition resolve_record (date_map region_map channel_map segment_map : gmap string Z)
    (product_map : gmap (string * option string) Z) (r : RawTransaction)
  : option FactSalesRow :=
  d ← order_date r ≫= (date_map !!.);
  g ← region r ≫= (region_map !!.);
  c ← channel r ≫= (channel_map !!.);
  s ← customer_segment r ≫= (segment_map !!.);
  p ← product_map !! (product_name r, category r);
  Some (mkFactSalesRow (order_id r) d g c s p (units_sold r) (unit_price r)
          (discount_pct r) (gross_revenue r) (net_revenue r) (cost r) (profit r)).

(** A record one of whose natural keys is absent from its lookup. *)
Definition unresolved (date_map region_map channel_map segment_map : gmap string Z)
    (product_map : gmap (string * option string) Z) (r : RawTransaction) : Prop :=
  order_date r ≫= (date_map !!.) = None
  ∨ region r ≫= (region_map !!.) = None
  ∨ channel r ≫= (channel_map !!.) = None
  ∨ customer_segment r ≫= (segment_map !!.) = None
  ∨ product_map !! (product_name r, category r) = None.

(** [needle in hay] on Python strings. *)
Fixpoint is_substring (needle hay : string) : bool :=
  String.prefix needle hay
  || match hay with
     | EmptyString => false
     | String _ hay' => is_substring needle hay'
     end.

(** An error of the kind the specification names: of class
    [ResolutionError], naming the offending value and its column. *)
Definition is_resolution_error (e : exn) (value column : string) : bool :=
  bool_decide (exn_class e = "ResolutionError")
  && is_substring value (exn_message e) && is_substring column (exn_message e).

(** ** Example record sets *)

Definition example_record (oid : Z) (date region channel segment category product : string)
  : RawTransaction :=
  mkRawTransaction oid (Some date) (Some region) (Some channel) (Some segment)
    (Some category) product 2 10 0 20 20 12 8.

(** The product pairs of the specification's example: the same product
    name under two categories. *)
Definition example_df : list RawTransaction :=
  [ example_record 100 "2024-03-07" "West" "Online" "Consumer" "Furniture" "Chair";
    example_record 101 "2023-12-31" "South" "Retail" "Consumer" "Furniture" "Chair";
    example_record 102 "2024-03-07" "West" "Online" "Corporate" "Electronics" "Chair" ].

(** A record of region West, assembled against a region dimension built
    from a raw set that only ever saw South. *)
Definition west_record : RawTransaction :=
  example_record 200 "2024-03-07" "West" "Online" "Consumer" "Furniture" "Chair".

Definition south_only_regions : DimensionTable :=
  build_dimension [Some "South"] "region_id" "region_name".

(** Monthly series of the specification's examples, with the month number
    as period. *)
Definition monthly_series (revenues : list float) : list (MonthlyRow nat) :=
  imap (λ i x, mkMonthlyRow (S i) x) revenues.

Definition flat_series : list (MonthlyRow nat) := monthly_series [100; 100; 100; 100]%float.

Definition spiky_series : list (MonthlyRow nat) :=
  monthly_series [100; 102; 98; 500; 101; 99; 100; 20; 100; 103; 97; 100]%float.

(** A raw set in which one order id occurs twice: the transform accepts
    it, and the primary key of [fact_sales] refuses its second row. *)
Definition duplicate_order_df : list RawTransaction :=
  [ example_record 300 "2025-01-15" "Northeast" "Wholesale" "Corporate" "Apparel" "Jacket";
    example_record 300 "2025-01-16" "Northeast" "Wholesale" "Corporate" "Apparel" "Jacket" ].

Definition empty_star_schema : StarSchema :=
  mkStarSchema [] (mkDimensionTable EmptyString EmptyString []) (mkDimensionTable EmptyString EmptyString [])
    (mkDimensionTable EmptyString EmptyString []) (mkDimensionTable EmptyString EmptyString []) [] [].

Definition transformed (df : list RawTransaction) : StarSchema :=
  match transform_to_star_schema parse_iso_date df with
  | inr w => w
  | inl _ => empty_star_schema
  end.

(** The warehouse after a first, successful build from [example_df]. *)
Definition example_warehouse : gmap string table :=
  (load_to_sqlite schema_row_ok (transformed example_df) ∅).2.

(** A record whose region is missing from the raw file. *)
Definition missing_region_record : RawTransaction :=
  mkRawTransaction 400 (Some "2024-03-07") None (Some "Online") (Some "Consumer")
    (Some "Furniture") "Chair" 2 10 0 20 20 12 8.

(** A record whose order date is written with a time of day. *)
Definition midnight_record : RawTransaction :=
  mkRawTransaction 500 (Some "2024-03-07 00:00:00") (Some "West") (Some "Online")
    (Some "Consumer") (Some "Furniture") "Chair" 2 10 0 20 20 12 8.

(** Order of two finite binary64 numbers of the same sign, as
    [SFcompare] takes it: by exponent, then by mantissa. *)
Definition lex_cmp (e1 : Z) (m1 : positive) (e2 : Z) (m2 : positive) : comparison :=
  match Z.compare e1 e2 with
  | Lt => Lt
  | Gt => Gt
  | Eq => Pos.compare m1 m2
  end.

(** ** Data generator: [generate_sales_transactions]

    The generator of [src/generate_data.py] draws from a numpy
    [Generator]. Its methods, [pd.date_range], and Python's [round] and
    int-to-float conversion are not code of the repository: they are
    taken as parameters, the generator state threaded through the calls
    in the order the source makes them. *)

(** The decimal constants of the source are read as Python reads them:
    each is the binary64 nearest to it. *)
Set Warnings "-inexact-float".

(** Module constants: Python dicts as association lists, in insertion
    order ([CATEGORY_CONFIG.keys()] is read in that order). *)
Definition REGIONS : list string := ["Northeast"; "Midwest"; "South"; "West"].
Definition CHANNELS : list string := ["Online"; "Retail"; "Wholesale"].
Definition SEGMENTS : list string := ["Consumer"; "Corporate"; "Home Office"; "Small Business"].

Record CategoryConfig : Type := mkCategoryConfig {
  products : list string;
  base_price : float;
  cost_ratio : float
}.

Definition CATEGORY_CONFIG : list (string * CategoryConfig) :=
  [ ("Electronics",
     mkCategoryConfig ["Laptop"; "Smartphone"; "Tablet"; "Headphones"] 620.0 0.66);
    ("Furniture",
     mkCategoryConfig ["Desk"; "Office Chair"; "Bookshelf"; "Cabinet"] 340.0 0.61);
    ("Office Supplies",
     mkCategoryConfig ["Printer Paper"; "Pen Pack"; "Stapler"; "Ink Cartridge"] 44.0 0.52);
    ("Apparel",
     mkCategoryConfig ["T-Shirt"; "Jacket"; "Sneakers"; "Backpack"] 78.0 0.57);
    ("Food & Beverage",
     mkCategoryConfig ["Coffee Beans"; "Energy Drink"; "Snack Box"; "Protein Bar"] 26.0 0.60) ].

Definition SEASONALITY : list (Z * float) :=
  [ (1, 0.92%float); (2, 0.95%float); (3, 1.02%float); (4, 1.03%float);
    (5, 1.05%float); (6, 1.09%float); (7, 1.12%float); (8, 1.07%float);
    (9, 1.00%float); (10, 1.04%float); (11, 1.24%float); (12, 1.38%float) ].

Definition CHANNEL_DISCOUNT_BOUNDS : list (string * (float * float)) :=
  [ ("Online", (0.05, 0.18)%float); ("Retail", (0.01, 0.12)%float);
    ("Wholesale", (0.10, 0.28)%float) ].

(** [d[k]] on a dict literal; [None] stands for the [KeyError]. *)
Fixpoint subscript `{EqDecision K} {V} (d : list (K * V)) (k : K) : option V :=
  match d with
  | [] => None
  | (k', v) :: d' => if decide (k' = k) then Some v else subscript d' k
  end.

(** Python's two-argument [max] and [min] on floats: the first argument
    is kept unless the second compares strictly beyond it, so a NaN
    second argument is never chosen. *)
Definition py_max (a b : float) : float := if PrimFloat.ltb a b then b else a.
Definition py_min (a b : float) : float := if PrimFloat.ltb b a then b else a.

(** Exceptions the generator can raise. *)
Inductive generator_exn : Type :=
  (** [SEASONALITY[month]] on an absent month *)
  | KeyError_int (key : Z)
  (** [CATEGORY_CONFIG[category]] or [CHANNEL_DISCOUNT_BOUNDS[channel]] on an absent name *)
  | KeyError_str (key : string)
  (** what [pd.date_range] raises on bounds it cannot read *)
  | DateRangeError (start_date end_date : string).

(** The methods of [numpy.random.Generator] the source calls, each
    returning its draw and the generator's next state. *)
Record Generator (G : Type) : Type := mkGenerator {
  rng_poisson : float → G → Z * G;
  rng_choice : list string → option (list float) → G → string * G;
  rng_integers : Z → Z → G → Z * G;
  rng_random : G → float * G;
  rng_normal : float → float → G → float * G;
  rng_uniform : float → float → G → float * G
}.
Arguments rng_poisson {G} _ _ _.
Arguments rng_choice {G} _ _ _ _.
Arguments rng_integers {G} _ _ _ _.
Arguments rng_random {G} _ _.
Arguments rng_normal {G} _ _ _ _.
Arguments rng_uniform {G} _ _ _ _.

(** What numpy documents of two of them: [choice] returns an entry of the
    list it is given, [integers(low, high)] a value of [low, high). *)
Record GeneratorContract {G} (rng : Generator G) : Prop := mkGeneratorContract {
  choice_elem : ∀ a p g, a ≠ [] → (rng_choice rng a p g).1 ∈ a;
  integers_range : ∀ low high g, low < high → low ≤ (rng_integers rng low high g).1 < high
}.

(** Code that draws from the generator and may raise. *)
Definition draw (G A : Type) : Type := G → generator_exn + (A * G).

#[global] Instance draw_ret {G} : MRet (draw G) := λ A a g, inr (a, g).
#[global] Instance draw_bind {G} : MBind (draw G) :=
  λ A B k m g, match m g with
               | inl e => inl e
               | inr (a, g') => k a g'
               end.

Definition call {G A} (method : G → A * G) : draw G A := λ g, inr (method g).

Definition getitem {G A} (e : generator_exn) (v : option A) : draw G A :=
  λ g, match v with
       | Some a => inr (a, g)
       | None => inl e
       end.

Section GenerateData.

Context {G : Type}.
Variable rng : Generator G.
(** [np.random.default_rng(seed)] and [pd.date_range(start, end, freq="D")] *)
Variable default_rng : Z → G.
Variable date_range : string → string → option (list Timestamp).
(** Python's [round(x, ndigits)] and [float(n)] *)
Variable round : float → Z → float.
Variable float_of_int : Z → float.

(** Lines 80 to 126: one order of [current_date]. *)
Definition generate_order (current_date : Timestamp) (order_id : Z) : draw G RawTransaction :=
  region ← call (rng_choice rng REGIONS (Some [0.24; 0.22; 0.31; 0.23]%float));
  channel ← call (rng_choice rng CHANNELS (Some [0.56; 0.30; 0.14]%float));
  segment ← call (rng_choice rng SEGMENTS (Some [0.52; 0.21; 0.14; 0.13]%float));
  let categories := CATEGORY_CONFIG.*1 in
  category ← call (rng_choice rng categories (Some [0.31; 0.20; 0.24; 0.17; 0.08]%float));
  config ← getitem (KeyError_str category) (subscript CATEGORY_CONFIG category);
  product_name ← call (rng_choice rng (products config) None);
  units_sold ← call (rng_integers rng 1 11);
  bulk ← call (rng_random rng);
  units_sold ← (if PrimFloat.ltb bulk 0.008
                then factor ← call (rng_integers rng 6 15); mret (units_sold * factor)
                else mret units_sold);
  let base_price := base_price config in
  price ← call (rng_normal rng base_price (base_price * 0.14));
  let unit_price := py_max 3.0 (round price 2) in
  bounds ← getitem (KeyError_str channel) (subscript CHANNEL_DISCOUNT_BOUNDS channel);
  discount ← call (rng_uniform rng bounds.1 bounds.2);
  let discount_pct := round discount 4 in
  discount_pct ← (if bool_decide (ts_month current_date ∈ [11; 12])
                  then promo ← call (rng_random rng);
                       if PrimFloat.ltb promo 0.18
                       then extra ← call (rng_uniform rng 0.02 0.08);
                            mret (py_min 0.40 (round (discount_pct + extra) 4))
                       else mret discount_pct
                  else mret discount_pct);
  let gross_revenue := round (float_of_int units_sold * unit_price) 2 in
  let net_revenue := round (gross_revenue * (1 - discount_pct)) 2 in
  ratio ← call (rng_normal rng (cost_ratio config) 0.04);
  let cost_ratio := py_min (py_max ratio 0.35) 0.90 in
  let cost := round (gross_revenue * cost_ratio) 2 in
  let profit := round (net_revenue - cost) 2 in
  mret (mkRawTransaction order_id (Some (strftime_Y_m_d current_date)) (Some region)
          (Some channel) (Some segment) (Some category) product_name units_sold
          unit_price discount_pct gross_revenue net_revenue cost profit).

(** Lines 79 to 126: [for _ in range(daily_orders)], with the running
    [order_id] and the list [rows] appended to. *)
Fixpoint orders_loop (current_date : Timestamp) (daily_orders : nat) (order_id : Z)
    (rows : list RawTransaction) : draw G (Z * list RawTransaction) :=
  match daily_orders with
  | O => mret (order_id, rows)
  | S remaining =>
      row ← generate_order current_date order_id;
      orders_loop current_date remaining (order_id + 1) (rows ++ [row])
  end.

(** Lines 76 to 126: [for current_date in dates]. *)
Fixpoint dates_loop (dates : list Timestamp) (order_id : Z) (rows : list RawTransaction)
  : draw G (Z * list RawTransaction) :=
  match dates with
  | [] => mret (order_id, rows)
  | current_date :: dates' =>
      season ← getitem (KeyError_int (ts_month current_date))
                 (subscript SEASONALITY (ts_month current_date));
      count ← call (rng_poisson rng (30 * season));
      let daily_orders := Z.max 8 count in
      state ← orders_loop current_date (Z.to_nat daily_orders) order_id rows;
      dates_loop dates' state.1 state.2
  end.

Definition generate_sales_transactions (start_date end_date : string) (seed : Z)
  : generator_exn + list RawTransaction :=
  match date_range start_date end_date with
  | None => inl (DateRangeError start_date end_date)
  | Some dates =>
      match dates_loop dates 100000 [] (default_rng seed) with
      | inl e => inl e
      | inr (state, _) => inr state.2
      end
  end.

End GenerateData.

(** What each order generated for [current_date] satisfies. *)
Definition order_of_date (current_date : Timestamp) (r : RawTransaction) : Prop :=
  order_date r = Some (strftime_Y_m_d current_date)
  ∧ (∃ v, region r = Some v ∧ v ∈ REGIONS)
  ∧ (∃ v, channel r = Some v ∧ v ∈ CHANNELS)
  ∧ (∃ v, customer_segment r = Some v ∧ v ∈ SEGMENTS)
  ∧ (∃ v config, category r = Some v ∧ subscript CATEGORY_CONFIG v = Some config
                 ∧ product_name r ∈ products config)
  ∧ 1 ≤ units_sold r ≤ 140
  ∧ PrimFloat.leb 3 (unit_price r) = true.

(** *** Stand-ins to run the generator

    A counter in place of numpy's generator, a day-by-day enumeration in
    place of [pd.date_range], and decimal rounding to nearest, ties to
    even, in place of [round]. *)

Definition float_of_Z (n : Z) : float :=
  if n <? 0 then (- PrimFloat.of_uint63 (Uint63.of_Z (- n)))%float
  else PrimFloat.of_uint63 (Uint63.of_Z n).

Definition counter_rng : Generator nat :=
  {| rng_poisson := λ lam g, (24 + Z.of_nat (g mod 13), S g);
     rng_choice := λ a p g, (default EmptyString (a !! (g mod length a)%nat), S g);
     rng_integers := λ low high g, (low + Z.of_nat g mod (high - low), S g);
     rng_random := λ g, ((float_of_nat (g mod 125) / 125)%float, S g);
     rng_normal := λ loc scale g,
       ((loc + scale * (float_of_nat (g mod 9) - 4) / 2)%float, S g);
     rng_uniform := λ low high g,
       ((low + (high - low) * float_of_nat (g mod 10) / 10)%float, S g) |}.

Definition next_day (d : Timestamp) : Timestamp :=
  if ts_day d <? days_in_month (ts_year d) (ts_month d)
  then mkTimestamp (ts_year d) (ts_month d) (ts_day d + 1)
  else if ts_month d <? 12 then mkTimestamp (ts_year d) (ts_month d + 1) 1
  else mkTimestamp (ts_year d + 1) 1 1.

Fixpoint days_until (fuel : nat) (d stop : Timestamp) : list Timestamp :=
  match fuel with
  | O => []
  | S fuel' => if decide (ts_le d stop) then d :: days_until fuel' (next_day d) stop else []
  end.

(** [pd.date_range(start, end, freq="D")] on two ISO dates: every day
    from the first to the second. *)
Definition date_range_iso (start_date end_date : string) : option (list Timestamp) :=
  first ← parse_iso_date start_date;
  last ← parse_iso_date end_date;
  Some (days_until (Z.to_nat (366 * (ts_year last - ts_year first + 1))) first last).

(** [round(x, ndigits)] for [ndigits >= 0]: the binary64 nearest to the
    decimal rounding, ties to even, of the exact value of [x]; exact
    while [|x| * 10^ndigits < 2^53], and [x] itself beyond, as for NaN
    and the infinities. *)
Definition round_half_even (x : float) (ndigits : Z) : float :=
  match Prim2SF x with
  | S754_finite s m e =>
      let scaled := (inject_Z (Z.pos m) * Qpower 2 e * Qpower 10 ndigits)%Q in
      let below := Qfloor scaled in
      let rest := (scaled - inject_Z below)%Q in
      let nearest :=
        match (rest ?= 1 # 2)%Q with
        | Lt => below
        | Gt => below + 1
        | Eq => if Z.even below then below else below + 1
        end in
      if nearest <? 2 ^ 53
      then let magnitude := (float_of_Z nearest / float_of_Z (10 ^ ndigits))%float in
           if s then (- magnitude)%float else magnitude
      else x
  | _ => x
  end.

(** The days from 30 December 2023 to 2 January 2024. *)
Definition year_end_dates : list Timestamp :=
  [mkTimestamp 2023 12 30; mkTimestamp 2023 12 31; mkTimestamp 2024 1 1; mkTimestamp 2024 1 2].

(** ** Input domains

    The specification takes the order date as an ISO date string. The
    embedding follows it: a [Timestamp] carries no time of day, the parser
    is read one string at a time, and [strftime] is modelled for years of
    four digits. The theorems that say what the builders return are stated
    for raw sets of such dates. *)

(** A calendar date whose year has four digits. *)
Definition four_digit_date (d : Timestamp) : Prop :=
  1000 ≤ ts_year d ≤ 9999 ∧ 1 ≤ ts_month d ≤ 12
  ∧ 1 ≤ ts_day d ≤ days_in_month (ts_year d) (ts_month d).

(** The record's order date is the [YYYY-MM-DD] text of the date [d] that
    [to_datetime] reads from it. *)
Definition iso_order_date (to_datetime : string → option Timestamp)
    (r : RawTransaction) (d : Timestamp) : Prop :=
  ∃ s, order_date r = Some s ∧ to_datetime s = Some d ∧ strftime_Y_m_d d = s.


(** ** The header of the SQLite file

    Beside its tables the file has a header of 100 bytes. Two of its
    fields count what was done to the file: the file change counter
    (bytes 24 to 27) goes up by one with every transaction that changed the
    file, and the schema cookie (bytes 40 to 43) with every change of the
    schema; bytes 92 to 95 repeat the change counter. Each is a 32-bit
    big-endian number. None of them is a time. *)
Record file_header : Type := mkFileHeader {
  file_change_counter : Z;
  schema_cookie : Z
}.

(** The header after one more committed write transaction. *)
Definition committed_write (schema_changed : bool) (h : file_header) : file_header :=
  mkFileHeader ((file_change_counter h + 1) mod 2 ^ 32)
    (if schema_changed then (schema_cookie h + 1) mod 2 ^ 32 else schema_cookie h).

(** Whether a statement of a script, run in autocommit mode, writes to the
    file: a PRAGMA does not, DROP TABLE IF EXISTS does when the table
    exists, CREATE TABLE does when it succeeds. Each write is a change of
    the schema. *)
Definition statement_writes (s : statement) (db : gmap string table) : bool :=
  match s with
  | PragmaForeignKeys _ => false
  | DropTableIfExists name => bool_decide (is_Some (db !! name))
  | CreateTable name => bool_decide (db !! name = None)
  end.

(** The header after [executescript(script)], beside [execute_statements]. *)
Fixpoint script_header (script : list statement) (db : gmap string table)
    (h : file_header) : file_header :=
  match script with
  | [] => h
  | s :: script' =>
      match execute_statement s db with
      | inl _ => h
      | inr db' =>
          script_header script' db'
            (if statement_writes s db then committed_write true h else h)
      end
  end.

Definition be32 (n : Z) : list Z :=
  [n / 2 ^ 24 mod 256; n / 2 ^ 16 mod 256; n / 2 ^ 8 mod 256; n mod 256].

(** The byte of the header at an offset of one of the three fields. *)
Definition header_byte (h : file_header) (offset : nat) : option Z :=
  if bool_decide (24 ≤ offset < 28)%nat then be32 (file_change_counter h) !! (offset - 24)%nat
  else if bool_decide (40 ≤ offset < 44)%nat then be32 (schema_cookie h) !! (offset - 40)%nat
  else if bool_decide (92 ≤ offset < 96)%nat then be32 (file_change_counter h) !! (offset - 92)%nat
  else None.

Section LoaderHeader.

Variable row_ok : string → gmap string table → sql_row → bool.

(** The header after the [to_sql] calls of a plan whose tables exist,
    beside [to_sql_all]: a frame with rows is inserted in one transaction,
    which changes the file when it commits; a frame without rows inserts
    nothing; a refused insert is rolled back and ends the load. *)
Fixpoint to_sql_all_header (plan : list (string * list sql_row))
    (db : gmap string table) (h : file_header) : file_header :=
  match plan with
  | [] => h
  | (name, rows) :: plan' =>
      match to_sql row_ok name rows (mkConnection db None) with
      | (inr _, c) =>
          to_sql_all_header plan' (persisted c)
            (match rows with [] => h | _ => committed_write false h end)
      | (inl _, _) => h
      end
  end.

(** The header after [load_to_sqlite], beside the file it leaves. *)
Definition load_to_sqlite_header (w : StarSchema) (db : gmap string table)
    (h : file_header) : file_header :=
  let h1 := script_header drop_sql db h in
  match executescript drop_sql (mkConnection db None) with
  | (inl _, _) => h1
  | (inr _, c1) =>
      let h2 := script_header schema_sql (persisted c1) h1 in
      match executescript schema_sql c1 with
      | (inl _, _) => h2
      | (inr _, c2) => to_sql_all_header (load_plan w) (persisted c2) h2
      end
  end.

(** The header after [main]: a transform that raises leaves the file
    unopened. *)
Definition main_header (to_datetime : string → option Timestamp)
    (sales_df : list RawTransaction) (db : gmap string table) (h : file_header)
  : file_header :=
  match transform_to_star_schema to_datetime sales_df with
  | inl _ => h
  | inr w => load_to_sqlite_header w db h
  end.

End LoaderHeader.

(** The header of the file after a first build from [example_df] into a
    new file, and after a second build of the same raw set on that file. *)
Definition first_build_header : file_header :=
  main_header schema_row_ok parse_iso_date example_df ∅ (mkFileHeader 0 0).

Definition second_build_header : file_header :=
  main_header schema_row_ok parse_iso_date example_df example_warehouse first_build_header.

(** Three months of the same revenue, 0.1. *)
Definition identical_months : list (MonthlyRow nat) :=
  monthly_series [0x1.999999999999ap-4; 0x1.999999999999ap-4; 0x1.999999999999ap-4]%float.
(** * Properties *)

(** ** Columns: [dropna], [drop_duplicates], [sorted] *)

Lemma elem_of_dropna {A} (s : list (option A)) (v : A) : v ∈ dropna s ↔ Some v ∈ s.
Proof.
  unfold dropna. rewrite list_elem_of_omap. split.
  - intros (o & Ho & Hv). simpl in Hv. by subst.
  - intros Hv. by exists (Some v).
Qed.

Lemma elem_of_drop_duplicates `{EqDecision A} (s : list A) (x : A) :
  x ∈ drop_duplicates s ↔ x ∈ s.
Proof.
  unfold drop_duplicates.
  by rewrite elem_of_reverse, elem_of_remove_dups, elem_of_reverse.
Qed.

Lemma NoDup_drop_duplicates `{EqDecision A} (s : list A) : NoDup (drop_duplicates s).
Proof. unfold drop_duplicates. rewrite reverse_Permutation. apply NoDup_remove_dups. Qed.

(** The first occurrence of each value is the one that stays. *)
Example drop_duplicates_first_occurrence :
  drop_duplicates [3; 1; 3; 2; 1] = [3; 1; 2].
Proof. reflexivity. Qed.

Lemma str_le_neq_lt (a b : string) : str_le a b → a ≠ b → str_lt a b.
Proof.
  unfold str_le, String.le, str_lt, String.leb, String.ltb. intros Hle Hne.
  destruct (String.compare a b) eqn:Hc; try done.
  by apply String.compare_eq_iff in Hc.
Qed.

(** A duplicate-free list sorted for [<=] is strictly ascending. *)
Lemma StronglySorted_strict (l : list string) :
  StronglySorted str_le l → NoDup l → StronglySorted str_lt l.
Proof.
  induction 1 as [|a l Hs IH Hall]; intros Hnd; [constructor|].
  apply NoDup_cons in Hnd as [Hnotin Hnd].
  constructor; [by apply IH|].
  apply Forall_forall. intros b Hb.
  apply str_le_neq_lt; [by eapply Forall_forall in Hall|].
  intros ->. by apply Hnotin.
Qed.

Lemma elem_of_sorted (values : list string) (v : string) : v ∈ sorted values ↔ v ∈ values.
Proof. unfold sorted. by rewrite merge_sort_Permutation. Qed.

Lemma NoDup_sorted (values : list string) : NoDup values → NoDup (sorted values).
Proof. unfold sorted. by rewrite merge_sort_Permutation. Qed.

Lemma length_sorted (values : list string) : length (sorted values) = length values.
Proof. unfold sorted. by rewrite merge_sort_Permutation. Qed.

Lemma StronglySorted_sorted (values : list string) : StronglySorted str_le (sorted values).
Proof. apply (StronglySorted_merge_sort str_le). Qed.

Lemma length_range_from_1 (n : nat) : length (range_from_1 n) = n.
Proof. unfold range_from_1. by rewrite length_fmap, length_seq. Qed.

(** ** Dimension extractor *)

Lemma fmap_zip_with_l {A B C D} (f : C → D) (g : A → B → C) (h : A → D)
    (l : list A) (k : list B) :
  (∀ a b, f (g a b) = h a) → length l = length k → f <$> zip_with g l k = h <$> l.
Proof.
  intros Hf. revert k. induction l as [|a l IH]; intros [|b k] Hlen; simplify_eq/=; try done.
  by rewrite Hf, IH.
Qed.

Lemma fmap_zip_with_r {A B C D} (f : C → D) (g : A → B → C) (h : B → D)
    (l : list A) (k : list B) :
  (∀ a b, f (g a b) = h b) → length l = length k → f <$> zip_with g l k = h <$> k.
Proof.
  intros Hf. revert k. induction l as [|a l IH]; intros [|b k] Hlen; simplify_eq/=; try done.
  by rewrite Hf, IH.
Qed.

Lemma dim_names_build_dimension source id_col name_col :
  dim_names (build_dimension source id_col name_col)
  = sorted (drop_duplicates (dropna source)).
Proof.
  unfold dim_names, build_dimension. simpl.
  rewrite (fmap_zip_with_r _ _ id); [by rewrite list_fmap_id|done|].
  by rewrite length_range_from_1.
Qed.

Lemma dim_ids_build_dimension source id_col name_col :
  dim_ids (build_dimension source id_col name_col)
  = range_from_1 (length (sorted (drop_duplicates (dropna source)))).
Proof.
  unfold dim_ids, build_dimension. simpl.
  rewrite (fmap_zip_with_l _ _ id); [by rewrite list_fmap_id|done|].
  by rewrite length_range_from_1.
Qed.

Lemma length_build_dimension source id_col name_col :
  length (dim_rows (build_dimension source id_col name_col))
  = length (drop_duplicates (dropna source)).
Proof.
  unfold build_dimension. simpl.
  rewrite length_zip_with, length_range_from_1, length_sorted. lia.
Qed.

Lemma elem_of_dim_names source id_col name_col (v : string) :
  v ∈ dim_names (build_dimension source id_col name_col) ↔ Some v ∈ source.
Proof.
  by rewrite dim_names_build_dimension, elem_of_sorted, elem_of_drop_duplicates,
    elem_of_dropna.
Qed.

Lemma NoDup_dim_names source id_col name_col :
  NoDup (dim_names (build_dimension source id_col name_col)).
Proof.
  rewrite dim_names_build_dimension. apply NoDup_sorted, NoDup_drop_duplicates.
Qed.

Example build_dimension_regions :
  dim_rows (build_dimension [Some "West"; None; Some "South"; Some "West"; Some "Midwest"]
              "region_id" "region_name")
  = [mkDimensionRow 1 "Midwest"; mkDimensionRow 2 "South"; mkDimensionRow 3 "West"].
Proof. vm_compute. reflexivity. Qed.

(** Case-sensitive order: every upper-case letter sorts before every
    lower-case one. *)
Example build_dimension_case_sensitive :
  dim_names (build_dimension [Some "apple"; Some "Zebra"; Some "Apple"] "id" "name")
  = ["Apple"; "Zebra"; "apple"].
Proof. vm_compute. reflexivity. Qed.

(** C4: [build_dimension] drops missing values, deduplicates and sorts
    ascending in case-sensitive lexicographic order: the natural values of
    the table are exactly the non-missing values of the source column, each
    once, strictly ascending; the surrogate keys are 1..N in that order,
    where N, the number of rows, is the number of distinct non-missing
    values; an empty column gives an empty table. *)
Theorem build_dimension_spec (source : list (option string)) (id_col name_col : string) :
  let t := build_dimension source id_col name_col in
  (∀ v, v ∈ dim_names t ↔ Some v ∈ source)
  ∧ NoDup (dim_names t)
  ∧ StronglySorted str_lt (dim_names t)
  ∧ dim_ids t = Z.of_nat <$> seq 1 (length (dim_rows t))
  ∧ length (dim_rows t) = size (list_to_set (C := gset string) (dropna source))
  ∧ dim_rows (build_dimension [] id_col name_col) = [].
Proof.
  intros t. subst t. repeat split.
  - by apply elem_of_dim_names.
  - by apply elem_of_dim_names.
  - apply NoDup_dim_names.
  - apply StronglySorted_strict; [|apply NoDup_dim_names].
    rewrite dim_names_build_dimension. apply StronglySorted_sorted.
  - rewrite dim_ids_build_dimension, length_build_dimension, length_sorted. done.
  - rewrite length_build_dimension.
    rewrite <- (size_list_to_set (C := gset string) (drop_duplicates (dropna source)))
      by apply NoDup_drop_duplicates.
    f_equal. apply set_eq. intros x.
    by rewrite !elem_of_list_to_set, elem_of_drop_duplicates.
Qed.

(** ** Date dimension builder *)

Lemma digit_value_digit_char (n : Z) : digit_value (digit_char n) = Some (n mod 10).
Proof.
  unfold digit_value, digit_char.
  pose proof (Z.mod_pos_bound n 10 ltac:(lia)) as Hb.
  rewrite nat_ascii_embedding by lia.
  replace (Z.of_nat (48 + Z.to_nat (n mod 10))) with (48 + n mod 10) by lia.
  destruct (Z.leb_spec 48 (48 + n mod 10)); [|lia].
  destruct (Z.leb_spec (48 + n mod 10) 57); [|lia].
  simpl. f_equal. lia.
Qed.

Lemma int_of_digits_app (s1 s2 : string) (acc : Z) :
  int_of_digits acc (s1 +:+ s2) = (acc' ← int_of_digits acc s1; int_of_digits acc' s2).
Proof.
  revert acc. induction s1 as [|c s1 IH]; intros acc; [reflexivity|].
  change (String c s1 +:+ s2) with (String c (s1 +:+ s2)).
  cbn. destruct (digit_value c); [|done]. simpl. apply IH.
Qed.

Lemma int_of_digits_zero_padded (w : nat) (n acc : Z) :
  0 ≤ n < 10 ^ Z.of_nat w →
  int_of_digits acc (zero_padded w n) = Some (acc * 10 ^ Z.of_nat w + n).
Proof.
  revert n. induction w as [|w IH]; intros n Hn.
  - simpl in *. f_equal. lia.
  - cbn [zero_padded]. rewrite int_of_digits_app.
    rewrite Nat2Z.inj_succ, Z.pow_succ_r in * by lia.
    rewrite IH by (split; [apply Z.div_pos; lia | apply Z.div_lt_upper_bound; lia]).
    cbn. rewrite digit_value_digit_char. cbn. f_equal.
    pose proof (Z.div_mod n 10 ltac:(lia)). lia.
Qed.

Lemma string_length_app (a b : string) :
  String.length (a +:+ b) = (String.length a + String.length b)%nat.
Proof.
  induction a as [|c a IH]; [done|].
  change (String c a +:+ b) with (String c (a +:+ b)). simpl. by rewrite IH.
Qed.

Lemma length_zero_padded (w : nat) (n : Z) : String.length (zero_padded w n) = w.
Proof.
  revert n. induction w as [|w IH]; intros n; [done|].
  cbn [zero_padded]. rewrite string_length_app, IH. simpl. lia.
Qed.

Lemma int_of_str_digits (s : string) :
  String.length s ≠ 0%nat → int_of_str s = int_of_digits 0 s.
Proof. by destruct s. Qed.

(** [int(strftime("%Y%m%d"))] is the decimal concatenation of the fields. *)
Lemma int_of_strftime_Ymd (d : Timestamp) :
  0 ≤ ts_year d < 10000 → 0 ≤ ts_month d < 100 → 0 ≤ ts_day d < 100 →
  int_of_str (strftime_Ymd d) = Some (ts_year d * 10000 + ts_month d * 100 + ts_day d).
Proof.
  intros Hy Hm Hd. unfold strftime_Ymd.
  rewrite int_of_str_digits
    by (rewrite !string_length_app, !length_zero_padded; lia).
  rewrite int_of_digits_app, (int_of_digits_zero_padded 4) by (simpl; lia).
  cbn [mbind option_bind].
  rewrite int_of_digits_app, (int_of_digits_zero_padded 2) by (simpl; lia).
  cbn [mbind option_bind].
  rewrite (int_of_digits_zero_padded 2) by (simpl; lia).
  f_equal. simpl. lia.
Qed.

Lemma valid_date_bounds (d : Timestamp) :
  valid_date d →
  1678 ≤ ts_year d ≤ 2261 ∧ 1 ≤ ts_month d ≤ 12 ∧ 1 ≤ ts_day d ≤ 31.
Proof.
  intros (Hy & Hm & Hd). repeat split; try lia.
  unfold days_in_month in Hd.
  repeat match type of Hd with context [if ?b then _ else _] => destruct b end; lia.
Qed.

Lemma month_cases (m : Z) :
  1 ≤ m ≤ 12 →
  m = 1 ∨ m = 2 ∨ m = 3 ∨ m = 4 ∨ m = 5 ∨ m = 6
  ∨ m = 7 ∨ m = 8 ∨ m = 9 ∨ m = 10 ∨ m = 11 ∨ m = 12.
Proof. lia. Qed.

(** Month name and quarter of a month 1..12: the abbreviation has three
    letters, and the quarter number is ceil(month/3). *)
Lemma month_derivations (m : Z) :
  1 ≤ m ≤ 12 →
  ∃ name, month_abbreviations !! Z.to_nat (m - 1) = Some name
          ∧ String.length name = 3%nat
          ∧ (m - 1) / 3 + 1 = Qceiling (Qmake m 3).
Proof.
  intros Hm. apply month_cases in Hm.
  repeat (destruct Hm as [->|Hm]); [..|subst m];
    (eexists; split; [reflexivity|split; reflexivity]).
Qed.

Lemma date_row_valid (d : Timestamp) :
  valid_date d → ∃ row, date_row d = inr row ∧ date_row_ok d row.
Proof.
  intros Hv. apply valid_date_bounds in Hv as (Hy & Hm & Hd).
  unfold date_row. rewrite int_of_strftime_Ymd by lia.
  destruct (month_derivations _ Hm) as (name & Hname & Hlen & Hq).
  eexists. split; [reflexivity|]. unfold date_row_ok, strftime_b, dt_quarter. simpl.
  rewrite Hname, Hq. simpl. repeat split; try done; lia.
Qed.
(** *** The error monad on lists *)

Lemma mapM_result_cons {A B} (f : A → result B) (x : A) (l : list A) :
  mapM f (x :: l) = (y ← f x; k ← mapM f l; mret (y :: k)).
Proof. reflexivity. Qed.

Lemma mapM_result_inr_2 {A B} (f : A → result B) (l : list A) (k : list B) :
  Forall2 (λ x y, f x = inr y) l k → mapM f l = inr k.
Proof.
  induction 1 as [|x y l k Hx _ IH]; [done|].
  rewrite mapM_result_cons, Hx. cbn. by rewrite IH.
Qed.

Lemma mapM_result_inr_1 {A B} (f : A → result B) (l : list A) (k : list B) :
  mapM f l = inr k → Forall2 (λ x y, f x = inr y) l k.
Proof.
  revert k. induction l as [|x l IH]; intros k.
  - cbn. intros [= <-]. constructor.
  - rewrite mapM_result_cons. destruct (f x) as [e|y] eqn:Hx; [done|]. cbn.
    destruct (mapM f l) as [e|k'] eqn:Hl; [done|]. cbn. intros [= <-].
    constructor; [done|]. by apply IH.
Qed.

Lemma mapM_result_inl {A B} (f : A → result B) (l : list A) (e : exn) :
  mapM f l = inl e → ∃ x, x ∈ l ∧ f x = inl e.
Proof.
  induction l as [|x l IH]; [done|].
  rewrite mapM_result_cons. destruct (f x) as [e'|y] eqn:Hx.
  - cbn. intros [= <-]. exists x. split; [left|done].
  - cbn. destruct (mapM f l) as [e'|k'] eqn:Hl; [|done]. cbn. intros [= <-].
    destruct IH as (x' & Hin & Hx'); [done|]. exists x'. split; [by right|done].
Qed.

Lemma remove_dups_fmap_inj `{EqDecision A, EqDecision B} (f : A → B)
    `{Hinj : !Inj (=) (=) f} (l : list A) :
  remove_dups (f <$> l) = f <$> remove_dups l.
Proof.
  induction l as [|x l IH]; [done|]. simpl.
  change (list_fmap A B f l) with (f <$> l).
  destruct (decide_rel elem_of (f x) (f <$> l)) as [Hin|Hnin];
    destruct (decide_rel elem_of x l) as [Hin'|Hnin']; simpl.
  - apply IH.
  - exfalso. apply list_elem_of_fmap in Hin as (y & Heq & Hy).
    apply (inj f) in Heq. by subst.
  - exfalso. apply Hnin. by apply list_elem_of_fmap_2.
  - f_equal. apply IH.
Qed.

Lemma drop_duplicates_fmap_inj `{EqDecision A, EqDecision B} (f : A → B)
    `{Hinj : !Inj (=) (=) f} (l : list A) :
  drop_duplicates (f <$> l) = f <$> drop_duplicates l.
Proof.
  unfold drop_duplicates. by rewrite <- fmap_reverse, remove_dups_fmap_inj, fmap_reverse.
Qed.

Lemma dropna_fmap_Some {A} (l : list A) : dropna (Some <$> l) = l.
Proof. induction l as [|x l IH]; [done|]. unfold dropna in *. simpl. f_equal. apply IH. Qed.

Lemma sort_values_dates_Some (l : list Timestamp) :
  sort_values_dates (Some <$> l) = Some <$> merge_sort ts_le l.
Proof.
  unfold sort_values_dates. rewrite dropna_fmap_Some.
  replace (filter (λ v, v = None) (Some <$> l)) with (@nil (option Timestamp)).
  - by rewrite app_nil_r.
  - induction l as [|x l IH]; [done|]. simpl. rewrite filter_cons_False; done.
Qed.

#[global] Instance ts_le_total : Total ts_le.
Proof. intros a b. unfold ts_le. lia. Qed.

Lemma to_datetime_column_present to_datetime (col : list (option string))
    (dates : list Timestamp) :
  Forall2 (λ v d, ∃ s, v = Some s ∧ to_datetime s = Some d) col dates →
  to_datetime_column to_datetime col = inr (Some <$> dates).
Proof.
  intros H. apply mapM_result_inr_2.
  induction H as [|v d col dates (s & -> & Hs) _ IH]; [constructor|].
  simpl. constructor; [by rewrite Hs|done].
Qed.

(** The rows of the date dimension: one per distinct date, in chronological
    order, each derived from its date. *)
Lemma create_dim_date_rows (to_datetime : string → option Timestamp)
    (df : list RawTransaction) (dates : list Timestamp) :
  Forall2 (λ r d, ∃ s, order_date r = Some s ∧ to_datetime s = Some d) df dates →
  Forall valid_date dates →
  ∃ rows,
    create_dim_date to_datetime df = inr rows
    ∧ Forall2 (λ d row, date_row d = inr row ∧ date_row_ok d row)
        (merge_sort ts_le (drop_duplicates dates)) rows.
Proof.
  intros Hparse Hvalid.
  set (distinct := merge_sort ts_le (drop_duplicates dates)).
  assert (Hperm : distinct ≡ₚ drop_duplicates dates) by apply merge_sort_Permutation.
  assert (Hrows : ∃ rows, Forall2 (λ d row, date_row d = inr row ∧ date_row_ok d row)
                            distinct rows).
  { assert (Hv : Forall valid_date distinct).
    { apply Forall_forall. intros d Hd. rewrite Hperm, elem_of_drop_duplicates in Hd.
      by eapply Forall_forall in Hvalid. }
    clear -Hv. induction Hv as [|d l Hd _ (rows & IH)]; [by exists []|].
    destruct (date_row_valid d Hd) as (row & Hrow & Hok).
    exists (row :: rows). by constructor. }
  destruct Hrows as (rows & Hrows). exists rows. split; [|done].
  unfold create_dim_date.
  rewrite (to_datetime_column_present _ _ dates)
    by (apply Forall2_fmap_l; eapply Forall2_impl; [exact Hparse|done]).
  cbn [mbind result_bind].
  rewrite (drop_duplicates_fmap_inj Some (Hinj := _)), sort_values_dates_Some.
  apply mapM_result_inr_2, Forall2_fmap_l.
  eapply Forall2_impl; [exact Hrows|]. by intros d row [? _].
Qed.

(** *** Dates with a four-digit year *)

Lemma four_digit_date_bounds (d : Timestamp) :
  four_digit_date d →
  1000 ≤ ts_year d ≤ 9999 ∧ 1 ≤ ts_month d ≤ 12 ∧ 1 ≤ ts_day d ≤ 31.
Proof.
  intros (Hy & Hm & Hd). repeat split; try lia.
  unfold days_in_month in Hd.
  repeat match type of Hd with context [if ?b then _ else _] => destruct b end; lia.
Qed.


Lemma date_row_four_digit (d : Timestamp) :
  four_digit_date d → ∃ row, date_row d = inr row ∧ date_row_ok d row.
Proof.
  intros Hv. apply four_digit_date_bounds in Hv as (Hy & Hm & Hd).
  unfold date_row. rewrite int_of_strftime_Ymd by lia.
  destruct (month_derivations _ Hm) as (name & Hname & Hlen & Hq).
  eexists. split; [reflexivity|]. unfold date_row_ok, strftime_b, dt_quarter. simpl.
  rewrite Hname, Hq. simpl. repeat split; try done; lia.
Qed.

(** The rows of the date dimension of a raw set of ISO dates. *)
Lemma create_dim_date_rows_iso (to_datetime : string → option Timestamp)
    (df : list RawTransaction) (dates : list Timestamp) :
  Forall2 (iso_order_date to_datetime) df dates →
  Forall four_digit_date dates →
  ∃ rows,
    create_dim_date to_datetime df = inr rows
    ∧ Forall2 (λ d row, date_row d = inr row ∧ date_row_ok d row)
        (merge_sort ts_le (drop_duplicates dates)) rows.
Proof.
  intros Hparse Hvalid.
  set (distinct := merge_sort ts_le (drop_duplicates dates)).
  assert (Hperm : distinct ≡ₚ drop_duplicates dates) by apply merge_sort_Permutation.
  assert (Hrows : ∃ rows, Forall2 (λ d row, date_row d = inr row ∧ date_row_ok d row)
                            distinct rows).
  { assert (Hv : Forall four_digit_date distinct).
    { apply Forall_forall. intros d Hd. rewrite Hperm, elem_of_drop_duplicates in Hd.
      by eapply Forall_forall in Hvalid. }
    clear -Hv. induction Hv as [|d l Hd _ (rows & IH)]; [by exists []|].
    destruct (date_row_four_digit d Hd) as (row & Hrow & Hok).
    exists (row :: rows). by constructor. }
  destruct Hrows as (rows & Hrows). exists rows. split; [|done].
  unfold create_dim_date.
  rewrite (to_datetime_column_present _ _ dates).
  2: { apply Forall2_fmap_l. eapply Forall2_impl; [exact Hparse|].
       intros r d (s & Hs & Hd & _). by exists s. }
  cbn [mbind result_bind].
  rewrite (drop_duplicates_fmap_inj Some (Hinj := _)), sort_values_dates_Some.
  apply mapM_result_inr_2, Forall2_fmap_l.
  eapply Forall2_impl; [exact Hrows|]. by intros d row [? _].
Qed.

(** C5: on a raw set of ISO dates (every record carries an order date
    that [to_datetime] reads as a calendar date with a four-digit year and
    that is the [YYYY-MM-DD] text of that date), [create_dim_date] returns
    one row per distinct date, in chronological order; the [date_id] of a
    date is the integer year * 10000 + month * 100 + day, i.e. the 8-digit
    concatenation YYYYMMDD computed from the date alone, and the row
    carries the year, the month 1..12, the three-letter month abbreviation
    and the quarter label "Q" followed by ceil(month / 3). *)
Theorem create_dim_date_spec (to_datetime : string → option Timestamp)
    (df : list RawTransaction) (dates : list Timestamp) :
  Forall2 (λ r d, ∃ s, order_date r = Some s ∧ to_datetime s = Some d
                       ∧ strftime_Y_m_d d = s) df dates →
  Forall four_digit_date dates →
  ∃ distinct rows,
    create_dim_date to_datetime df = inr rows
    ∧ NoDup distinct
    ∧ (∀ d, d ∈ distinct ↔ d ∈ dates)
    ∧ Sorted ts_le distinct
    ∧ Forall2 date_row_ok distinct rows.
Proof.
  intros Hparse Hvalid.
  destruct (create_dim_date_rows_iso to_datetime df dates Hparse Hvalid)
    as (rows & Hrun & Hrows).
  exists (merge_sort ts_le (drop_duplicates dates)), rows.
  split; [done|]. split; [|split; [|split]].
  - rewrite merge_sort_Permutation. apply NoDup_drop_duplicates.
  - intros d. by rewrite merge_sort_Permutation, elem_of_drop_duplicates.
  - apply (Sorted_merge_sort ts_le).
  - eapply Forall2_impl; [exact Hrows|]. by intros d row [_ ?].
Qed.

(** The specification's example: 2024-03-07 gets [date_id] 20240307. *)
Example date_row_20240307 :
  date_row (mkTimestamp 2024 3 7)
  = inr (mkDateDimensionRow 20240307 "2024-03-07" 2024 3 "Mar" "Q1").
Proof. vm_compute. reflexivity. Qed.

Lemma create_dim_date_spec_witness :
  ∃ distinct rows,
    create_dim_date parse_iso_date example_df = inr rows
    ∧ NoDup distinct
    ∧ (∀ d, d ∈ distinct
            ↔ d ∈ [mkTimestamp 2024 3 7; mkTimestamp 2023 12 31; mkTimestamp 2024 3 7])
    ∧ Sorted ts_le distinct
    ∧ Forall2 date_row_ok distinct rows.
Proof.
  apply (create_dim_date_spec parse_iso_date example_df
           [mkTimestamp 2024 3 7; mkTimestamp 2023 12 31; mkTimestamp 2024 3 7]).
  - unfold example_df.
    do 3 (constructor;
          [eexists; split; [reflexivity|split; vm_compute; reflexivity]|]).
    constructor.
  - do 3 (constructor; [apply (bool_decide_unpack _); vm_compute; exact I|]). constructor.
Defined.

Lemma astype_int_inr (e : exn) (col : list (option Z)) (ids : list Z) :
  astype_int e col = inr ids ↔ col = Some <$> ids.
Proof.
  unfold astype_int. destruct (mapM id col) as [ids'|] eqn:Hm.
  - apply mapM_Some in Hm. split.
    + intros [= <-]. induction Hm as [|x y l k Hx _ IH]; [done|].
      simpl in *. by rewrite Hx, IH.
    + intros ->. f_equal. clear -Hm. revert ids' Hm.
      induction ids as [|y k IH]; intros ids' Hm; inversion Hm; subst; [done|].
      simpl in *. f_equal; [congruence|by apply IH].
  - split; [done|]. intros ->. exfalso.
    apply mapM_None_1 in Hm. apply Exists_exists in Hm as (x & Hx & Hnone).
    apply list_elem_of_fmap in Hx as (y & -> & _). done.
Qed.

Lemma astype_int_inl (e e' : exn) (col : list (option Z)) :
  astype_int e col = inl e' ↔ e' = e ∧ None ∈ col.
Proof.
  unfold astype_int. destruct (mapM id col) as [ids'|] eqn:Hm.
  - split; [done|]. intros [_ Hnone]. exfalso.
    apply mapM_Some in Hm. apply list_elem_of_lookup in Hnone as [i Hi].
    destruct (Forall2_lookup_l _ _ _ _ _ Hm Hi) as (y & _ & Hy). done.
  - apply mapM_None_1, Exists_exists in Hm as (x & Hx & Hnone). simpl in Hnone. subst x.
    split; [by intros [= <-]|by intros [-> _]].
Qed.

Lemma dict_zip_lookup_Some `{Countable K} {V} (keys : list K) (values : list V) k v :
  dict_zip keys values !! k = Some v → (k, v) ∈ zip keys values.
Proof.
  unfold dict_zip.
  assert (Hgen : ∀ (l : list (K * V)) (d : gmap K V),
             foldl (λ d kv, <[kv.1 := kv.2]> d) d l !! k = Some v →
             (k, v) ∈ l ∨ d !! k = Some v).
  { induction l as [|[k' v'] l IH]; intros d Hl; [by right|].
    simpl in Hl. apply IH in Hl as [Hl|Hl]; [left; by right|].
    destruct (decide (k' = k)) as [->|Hne].
    - rewrite lookup_insert_eq in Hl. injection Hl as ->. left. by left.
    - rewrite lookup_insert_ne in Hl by done. by right. }
  intros Hl. apply Hgen in Hl as [?|Hl]; [done|]. by rewrite lookup_empty in Hl.
Qed.

Lemma dict_zip_lookup_is_Some `{Countable K} {V} (keys : list K) (values : list V) k :
  length keys = length values → k ∈ keys → is_Some (dict_zip keys values !! k).
Proof.
  unfold dict_zip. intros Hlen Hk.
  assert (Hgen : ∀ (l : list (K * V)) (d : gmap K V),
             k ∈ l.*1 ∨ is_Some (d !! k) →
             is_Some (foldl (λ d kv, <[kv.1 := kv.2]> d) d l !! k)).
  { induction l as [|[k' v'] l IH]; intros d Hl.
    - destruct Hl as [Hl|Hl]; [by apply elem_of_nil in Hl|done].
    - simpl. apply IH. destruct (decide (k' = k)) as [->|Hne].
      + right. rewrite lookup_insert_eq. by eexists.
      + destruct Hl as [Hl|Hl].
        * left. simpl in Hl. apply elem_of_cons in Hl as [?|?]; [congruence|done].
        * right. by rewrite lookup_insert_ne. }
  apply Hgen. left. by rewrite fst_zip by lia.
Qed.

Lemma zip_fmap_same {A B C} (f : A → B) (g : A → C) (l : list A) :
  zip (f <$> l) (g <$> l) = (λ x, (f x, g x)) <$> l.
Proof. induction l as [|x l IH]; [done|]. simpl. f_equal. apply IH. Qed.

(** A successful lookup in a dimension's name-to-key dictionary names a
    row of the dimension. *)
Lemma dim_map_lookup_Some (t : DimensionTable) (name : string) (id : Z) :
  dict_zip (dim_names t) (dim_ids t) !! name = Some id →
  mkDimensionRow id name ∈ dim_rows t.
Proof.
  intros Hl. apply dict_zip_lookup_Some in Hl.
  unfold dim_names, dim_ids in Hl. rewrite zip_fmap_same in Hl.
  apply list_elem_of_fmap in Hl as ([id' name'] & [= -> ->] & Hin). done.
Qed.
(** ** Product dimension *)

#[global] Instance pair_le_total : Total pair_le.
Proof.
  intros [n1 [c1|]] [n2 [c2|]]; unfold pair_le; simpl; auto.
  - unfold str_lt, String.ltb.
    destruct (String.compare c1 c2) eqn:Hc.
    + apply String.compare_eq_iff in Hc as ->.
      destruct (total str_le n1 n2); auto.
    + auto.
    + right. left. rewrite String.compare_antisym, Hc. done.
  - apply (total str_le).
Qed.

Lemma elem_of_dim_product_pairs (df : list RawTransaction) (p : string * option string) :
  p ∈ dim_product_pairs df ↔ p ∈ product_pairs df.
Proof.
  unfold dim_product_pairs, sort_values_category_product.
  by rewrite merge_sort_Permutation, elem_of_drop_duplicates.
Qed.

Lemma NoDup_dim_product_pairs (df : list RawTransaction) : NoDup (dim_product_pairs df).
Proof.
  unfold dim_product_pairs, sort_values_category_product.
  rewrite merge_sort_Permutation. apply NoDup_drop_duplicates.
Qed.

Lemma Sorted_dim_product_pairs (df : list RawTransaction) :
  Sorted pair_le (dim_product_pairs df).
Proof. apply (Sorted_merge_sort pair_le). Qed.

(** The rows lines 47 to 49 build from the sorted pairs, the counter and
    the resolved category keys. *)
Lemma dim_product_rows (pairs : list (string * option string)) (pids cids : list Z) :
  length pids = length pairs → length cids = length pairs →
  let rows := zip_with (λ '(pid, cid) name, mkProductDimensionRow pid name cid)
                (zip pids cids) (fst <$> pairs) in
  product_id <$> rows = pids
  ∧ pd_category_id <$> rows = cids
  ∧ pd_product_name <$> rows = fst <$> pairs.
Proof.
  revert pids cids. induction pairs as [|p pairs IH]; intros [|pid pids] [|cid cids] ??;
    simplify_eq/=; [done|].
  destruct (IH pids cids) as (-> & -> & ->); done.
Qed.

Lemma build_dim_product_inr (df : list RawTransaction) (category_map : gmap string Z)
    (rows : list ProductDimensionRow) :
  build_dim_product df category_map = inr rows →
  product_id <$> rows = Z.of_nat <$> seq 1 (length (dim_product_pairs df))
  ∧ pd_product_name <$> rows = fst <$> dim_product_pairs df
  ∧ series_map category_map (snd <$> dim_product_pairs df)
    = Some <$> (pd_category_id <$> rows).
Proof.
  unfold build_dim_product.
  destruct (astype_int _ _) as [e|cids] eqn:Hc; [done|]. cbn. intros [= <-].
  apply astype_int_inr in Hc.
  assert (Hlen : length cids = length (dim_product_pairs df)).
  { apply (f_equal length) in Hc. unfold series_map in Hc.
    by rewrite !length_fmap in Hc. }
  destruct (dim_product_rows (dim_product_pairs df)
              (range_from_1 (length (dim_product_pairs df))) cids)
    as (H1 & H2 & H3); [by rewrite length_range_from_1|done|].
  rewrite H1, H2, H3. done.
Qed.

Lemma transform_inr to_datetime (df : list RawTransaction) (schema : StarSchema) :
  transform_to_star_schema to_datetime df = inr schema →
  let category_map := dict_zip (dim_names (dim_category schema))
                        (dim_ids (dim_category schema)) in
  create_dim_date to_datetime df = inr (dim_date schema)
  ∧ dim_region schema = build_dimension (region <$> df) "region_id" "region_name"
  ∧ dim_channel schema = build_dimension (channel <$> df) "channel_id" "channel_name"
  ∧ dim_segment schema
    = build_dimension (customer_segment <$> df) "segment_id" "segment_name"
  ∧ dim_category schema = build_dimension (category <$> df) "category_id" "category_name"
  ∧ build_dim_product df category_map = inr (dim_product schema)
  ∧ ∃ product_map,
      product_map_loop ∅ (product_key_df df (dim_product schema) (dim_category schema))
      = inr product_map
      ∧ assemble_fact_sales df
          (dict_zip (dd_order_date <$> dim_date schema) (date_id <$> dim_date schema))
          (dict_zip (dim_names (dim_region schema)) (dim_ids (dim_region schema)))
          (dict_zip (dim_names (dim_channel schema)) (dim_ids (dim_channel schema)))
          (dict_zip (dim_names (dim_segment schema)) (dim_ids (dim_segment schema)))
          product_map
        = inr (fact_sales schema).
Proof.
  unfold transform_to_star_schema.
  destruct (create_dim_date to_datetime df) as [e|dd]; [done|]. cbn [mbind result_bind].
  destruct (build_dim_product df _) as [e|dp] eqn:Hdp; [done|]. cbn [mbind result_bind].
  destruct (product_map_loop ∅ _) as [e|pm] eqn:Hpm; [done|]. cbn [mbind result_bind].
  destruct (assemble_fact_sales df _ _ _ _ _) as [e|facts] eqn:Hf; [done|].
  cbn. intros [= <-]. simpl. repeat split; try done. by exists pm.
Qed.

(** The product dimension of a transform that returned. *)
Lemma dim_product_of_transform (to_datetime : string → option Timestamp)
    (df : list RawTransaction) (schema : StarSchema) :
  transform_to_star_schema to_datetime df = inr schema →
  let pairs := dim_product_pairs df in
  (∀ p, p ∈ pairs ↔ p ∈ product_pairs df)
  ∧ NoDup pairs
  ∧ Sorted pair_le pairs
  ∧ length (dim_product schema) = length pairs
  ∧ product_id <$> dim_product schema = Z.of_nat <$> seq 1 (length pairs)
  ∧ pd_product_name <$> dim_product schema = fst <$> pairs
  ∧ Forall2 (λ p row, ∃ c, p.2 = Some c
                           ∧ mkDimensionRow (pd_category_id row) c
                             ∈ dim_rows (dim_category schema))
      pairs (dim_product schema).
Proof.
  intros Ht pairs. apply transform_inr in Ht as (_ & _ & _ & _ & _ & Hdp & _).
  apply build_dim_product_inr in Hdp as (Hids & Hnames & Hcats). fold pairs in Hids, Hnames, Hcats.
  assert (Hlen : length (dim_product schema) = length pairs).
  { apply (f_equal length) in Hnames. by rewrite !length_fmap in Hnames. }
  split; [apply elem_of_dim_product_pairs|].
  split; [apply NoDup_dim_product_pairs|].
  split; [apply Sorted_dim_product_pairs|].
  do 3 (split; [done|]).
  apply Forall2_same_length_lookup. split; [done|]. intros i p row Hp Hrow.
  apply (f_equal (λ l, l !! i)) in Hcats. unfold series_map in Hcats.
  rewrite !list_lookup_fmap, Hp, Hrow in Hcats. simpl in Hcats.
  destruct (p.2) as [c|]; [|done]. simpl in Hcats. injection Hcats as Hc.
  exists c. split; [done|]. by apply dim_map_lookup_Some.
Qed.

(** The specification's example: the pairs (Chair, Furniture),
    (Chair, Furniture), (Chair, Electronics) give two product rows. *)
Example dim_product_example :
  product_pairs example_df
  = [("Chair", Some "Furniture"); ("Chair", Some "Furniture"); ("Chair", Some "Electronics")]
  ∧ dim_product <$> transform_to_star_schema parse_iso_date example_df
    = inr [mkProductDimensionRow 1 "Chair" 1; mkProductDimensionRow 2 "Chair" 2].
Proof. split; vm_compute; reflexivity. Qed.

(** ** Fact assembler *)

Lemma lookup_product_inr product_map (r : RawTransaction) (p : Z) :
  lookup_product product_map r = inr p ↔ product_map !! (product_name r, category r) = Some p.
Proof. unfold lookup_product. destruct (_ !! _); split; intros [=]; by subst. Qed.

Lemma lookup_product_inl product_map (r : RawTransaction) (e : exn) :
  lookup_product product_map r = inl e ↔
  product_map !! (product_name r, category r) = None
  ∧ e = KeyError (product_name r, category r).
Proof.
  unfold lookup_product. destruct (_ !! _); split; try done.
  - by intros [??].
  - by intros [= <-].
  - by intros [_ ->].
Qed.

(** Column by column is row by row: position [i] of the assembled table is
    the resolution of record [i]. *)
Lemma fact_rows_resolve dm rm cm sm pm (df : list RawTransaction) (ds gs cs ss ps : list Z) :
  series_map dm (order_date <$> df) = Some <$> ds →
  series_map rm (region <$> df) = Some <$> gs →
  series_map cm (channel <$> df) = Some <$> cs →
  series_map sm (customer_segment <$> df) = Some <$> ss →
  Forall2 (λ r p, lookup_product pm r = inr p) df ps →
  Forall2 (λ r f, resolve_record dm rm cm sm pm r = Some f) df
    (fact_rows df ds gs cs ss ps).
Proof.
  unfold series_map. intros Hd Hg Hc Hs Hp. revert ds gs cs ss Hd Hg Hc Hs.
  induction Hp as [|r p df ps Hr _ IH]; intros ds gs cs ss Hd Hg Hc Hs; [constructor|].
  destruct ds as [|d ds], gs as [|g gs], cs as [|c cs], ss as [|s ss]; simplify_eq/=.
  constructor; [|by apply IH].
  apply lookup_product_inr in Hr. unfold resolve_record.
  repeat match goal with H : _ ≫= _ = Some _ |- _ => rewrite H; clear H end.
  by rewrite Hr.
Qed.

Lemma assemble_fact_sales_inr df dm rm cm sm pm (facts : list FactSalesRow) :
  assemble_fact_sales df dm rm cm sm pm = inr facts →
  Forall2 (λ r f, resolve_record dm rm cm sm pm r = Some f) df facts.
Proof.
  unfold assemble_fact_sales.
  destruct (astype_int _ (series_map dm _)) as [e|ds] eqn:Hd; [done|]. cbn [mbind result_bind].
  destruct (astype_int _ (series_map rm _)) as [e|gs] eqn:Hg; [done|]. cbn [mbind result_bind].
  destruct (astype_int _ (series_map cm _)) as [e|cs] eqn:Hc; [done|]. cbn [mbind result_bind].
  destruct (astype_int _ (series_map sm _)) as [e|ss] eqn:Hs; [done|]. cbn [mbind result_bind].
  destruct (mapM _ df) as [e|ps] eqn:Hp; [done|]. cbn. intros [= <-].
  apply astype_int_inr in Hd, Hg, Hc, Hs. apply mapM_result_inr_1 in Hp.
  by apply fact_rows_resolve.
Qed.

Lemma assemble_fact_sales_inl df dm rm cm sm pm (e : exn) :
  assemble_fact_sales df dm rm cm sm pm = inl e →
  e = IntCastingNaNError
  ∨ ∃ r, r ∈ df ∧ pm !! (product_name r, category r) = None
         ∧ e = KeyError (product_name r, category r).
Proof.
  unfold assemble_fact_sales.
  destruct (astype_int _ (series_map dm _)) as [e'|ds] eqn:Hd.
  { cbn. intros [= <-]. apply astype_int_inl in Hd as [-> _]. by left. }
  cbn [mbind result_bind].
  destruct (astype_int _ (series_map rm _)) as [e'|gs] eqn:Hg.
  { cbn. intros [= <-]. apply astype_int_inl in Hg as [-> _]. by left. }
  cbn [mbind result_bind].
  destruct (astype_int _ (series_map cm _)) as [e'|cs] eqn:Hc.
  { cbn. intros [= <-]. apply astype_int_inl in Hc as [-> _]. by left. }
  cbn [mbind result_bind].
  destruct (astype_int _ (series_map sm _)) as [e'|ss] eqn:Hs.
  { cbn. intros [= <-]. apply astype_int_inl in Hs as [-> _]. by left. }
  cbn [mbind result_bind].
  destruct (mapM _ df) as [e'|ps] eqn:Hp; [|done].
  cbn. intros [= <-]. apply mapM_result_inl in Hp as (r & Hr & He).
  apply lookup_product_inl in He as [Hnone ->]. right. by exists r.
Qed.

Lemma series_map_resolved `{Countable K} (d : gmap K Z) (col : RawTransaction → option K)
    (df : list RawTransaction) (ids : list Z) (r : RawTransaction) :
  series_map d (col <$> df) = Some <$> ids → r ∈ df → is_Some (col r ≫= (d !!.)).
Proof.
  intros Hmap Hr. apply list_elem_of_lookup in Hr as [i Hi].
  apply (f_equal (λ l, l !! i)) in Hmap. unfold series_map in Hmap.
  rewrite !list_lookup_fmap, Hi in Hmap. simpl in Hmap.
  destruct (ids !! i) as [id|]; [|done]. simpl in Hmap. exists id.
  injection Hmap as Hmap. exact Hmap.
Qed.

(** A miss on the order date, region, channel or segment is reported as
    [IntCastingNaNError], whatever the product lookup holds. *)
Lemma assemble_fact_sales_unresolved_key (df : list RawTransaction)
    (date_map region_map channel_map segment_map : gmap string Z)
    (product_map : gmap (string * option string) Z) (r : RawTransaction) :
  r ∈ df →
  order_date r ≫= (date_map !!.) = None
  ∨ region r ≫= (region_map !!.) = None
  ∨ channel r ≫= (channel_map !!.) = None
  ∨ customer_segment r ≫= (segment_map !!.) = None →
  assemble_fact_sales df date_map region_map channel_map segment_map product_map
  = inl IntCastingNaNError.
Proof.
  intros Hr Hun. unfold assemble_fact_sales.
  destruct (astype_int _ (series_map date_map _)) as [e|ds] eqn:Hd.
  { by apply astype_int_inl in Hd as [-> _]. }
  destruct (astype_int _ (series_map region_map _)) as [e|gs] eqn:Hg.
  { by apply astype_int_inl in Hg as [-> _]. }
  destruct (astype_int _ (series_map channel_map _)) as [e|cs] eqn:Hc.
  { by apply astype_int_inl in Hc as [-> _]. }
  destruct (astype_int _ (series_map segment_map _)) as [e|ss] eqn:Hs.
  { by apply astype_int_inl in Hs as [-> _]. }
  exfalso. apply astype_int_inr in Hd, Hg, Hc, Hs.
  destruct (series_map_resolved _ _ _ _ r Hd Hr) as [? Hd'].
  destruct (series_map_resolved _ _ _ _ r Hg Hr) as [? Hg'].
  destruct (series_map_resolved _ _ _ _ r Hc Hr) as [? Hc'].
  destruct (series_map_resolved _ _ _ _ r Hs Hr) as [? Hs'].
  destruct Hun as [H|[H|[H|H]]]; congruence.
Qed.

(** A region missing from the raw file is dropped by the dimension
    extractor and then missed by the assembler: the whole transform raises. *)
Example transform_missing_region :
  transform_to_star_schema parse_iso_date [missing_region_record]
  = inl IntCastingNaNError.
Proof. vm_compute. reflexivity. Qed.

(** C1 (as the code has it): when some record has a natural key that is
    absent from its lookup, the fact assembler fails and returns no fact
    table at all, so no row carries a null or default key. The failure is
    pandas' [IntCastingNaNError] for an order date, region, channel or
    segment, and a [KeyError] on the (product_name, category) pair for a
    product. *)
Theorem assemble_fact_sales_unresolved (df : list RawTransaction)
    (date_map region_map channel_map segment_map : gmap string Z)
    (product_map : gmap (string * option string) Z) (r : RawTransaction) :
  r ∈ df →
  unresolved date_map region_map channel_map segment_map product_map r →
  ∃ e, assemble_fact_sales df date_map region_map channel_map segment_map product_map
       = inl e
       ∧ (e = IntCastingNaNError
          ∨ ∃ r', r' ∈ df ∧ product_map !! (product_name r', category r') = None
                  ∧ e = KeyError (product_name r', category r')).
Proof.
  intros Hr Hun.
  destruct (assemble_fact_sales df date_map region_map channel_map segment_map product_map)
    as [e|facts] eqn:Ha.
  - exists e. split; [done|]. by eapply assemble_fact_sales_inl.
  - exfalso. apply assemble_fact_sales_inr in Ha.
    apply list_elem_of_lookup in Hr as [i Hi].
    destruct (Forall2_lookup_l _ _ _ _ _ Ha Hi) as (f & _ & Hf).
    unfold resolve_record in Hf. unfold unresolved in Hun.
    destruct (order_date r ≫= _) eqn:E1; simpl in Hf; [|done].
    destruct (region r ≫= _) eqn:E2; simpl in Hf; [|done].
    destruct (channel r ≫= _) eqn:E3; simpl in Hf; [|done].
    destruct (customer_segment r ≫= _) eqn:E4; simpl in Hf; [|done].
    destruct (product_map !! _) eqn:E5; simpl in Hf; [|done].
    destruct Hun as [H|[H|[H|[H|H]]]]; congruence.
Qed.

Lemma assemble_fact_sales_unresolved_witness :
  ∃ e, assemble_fact_sales [west_record] ∅
         (dict_zip (dim_names south_only_regions) (dim_ids south_only_regions)) ∅ ∅ ∅
       = inl e
       ∧ (e = IntCastingNaNError
          ∨ ∃ r', r' ∈ [west_record] ∧ (∅ : gmap (string * option string) Z)
                                          !! (product_name r', category r') = None
                  ∧ e = KeyError (product_name r', category r')).
Proof.
  apply (assemble_fact_sales_unresolved [west_record] ∅ _ ∅ ∅ ∅ west_record).
  - apply list_elem_of_here.
  - left. reflexivity.
Defined.

(** C1 (as stated) fails. A record whose region the dimension extractor
    never saw makes the assembler raise [IntCastingNaNError], which is not a
    [ResolutionError] and names neither the value nor the column. The same
    happens inside one run of the transform for an order date written with
    a time of day: the date dimension is keyed by the reformatted date, the
    raw string misses it, and the transform raises the same error. *)
Lemma assemble_unseen_region_error :
  (∃ e, assemble_fact_sales [west_record]
          {[ "2024-03-07" := 20240307 ]}
          (dict_zip (dim_names south_only_regions) (dim_ids south_only_regions))
          {[ "Online" := 1 ]} {[ "Consumer" := 1 ]} {[ ("Chair", Some "Furniture") := 1 ]}
        = inl e
        ∧ region west_record = Some "West"
        ∧ dict_zip (dim_names south_only_regions) (dim_ids south_only_regions) !! "West"
          = None
        ∧ exn_class e = "IntCastingNaNError"
        ∧ is_resolution_error e "West" "region" = false)
  ∧ (∃ e, transform_to_star_schema parse_iso_datetime [midnight_record] = inl e
          ∧ (λ rows : list DateDimensionRow, dd_order_date <$> rows)
              <$> create_dim_date parse_iso_datetime [midnight_record]
            = inr ["2024-03-07"]
          ∧ order_date midnight_record = Some "2024-03-07 00:00:00"
          ∧ exn_class e = "IntCastingNaNError"
          ∧ is_resolution_error e "2024-03-07 00:00:00" "order_date" = false).
Proof.
  split; exists IntCastingNaNError; vm_compute; repeat split; reflexivity.
Qed.
(** ** Referential closure *)

Lemma elem_of_merge_left {L R} (matches : L → R → bool) (left : list L) (right : list R)
    (l : L) (o : option R) :
  (l, o) ∈ merge_left matches left right →
  l ∈ left ∧ match o with
             | Some r => r ∈ right ∧ matches l r = true
             | None => ∀ r, r ∈ right → matches l r = false
             end.
Proof.
  unfold merge_left. intros Hin. apply list_elem_of_bind in Hin as (l' & Hin & Hl').
  destruct (filter _ right) as [|r0 rs] eqn:Hf.
  - apply list_elem_of_singleton in Hin. injection Hin as Hl Ho. subst l' o.
    split; [done|].
    intros r Hr. destruct (matches l r) eqn:Hm; [|done].
    assert (r ∈ filter (λ r, matches l r = true) right) as Hr'
      by (by apply list_elem_of_filter).
    rewrite Hf in Hr'. by apply elem_of_nil in Hr'.
  - apply list_elem_of_fmap in Hin as (r & Heq & Hr). injection Heq as Hl Ho.
    subst l' o. rewrite <- Hf in Hr. apply list_elem_of_filter in Hr as [Hm Hr]. done.
Qed.

Lemma product_map_loop_lookup (records : list (string * option string * option Z))
    (m product_map : gmap (string * option string) Z) (k : string * option string) (pid : Z) :
  product_map_loop m records = inr product_map →
  product_map !! k = Some pid →
  m !! k = Some pid ∨ (k.1, k.2, Some pid) ∈ records.
Proof.
  revert m. induction records as [|[[name cat] [p|]] records IH]; intros m Hloop Hk;
    simpl in Hloop; [|..|done].
  - injection Hloop as ->. by left.
  - destruct (IH _ Hloop Hk) as [Hm|Hin]; [|right; by right].
    destruct (decide ((name, cat) = k)) as [<-|Hne].
    + rewrite lookup_insert_eq in Hm. injection Hm as ->. right. by left.
    + rewrite lookup_insert_ne in Hm by done. by left.
Qed.

(** Every product id in the product lookup is the id of a row of the
    product dimension. *)
Lemma product_map_in_dim_product (df : list RawTransaction)
    (dim_product : list ProductDimensionRow) (dim_category : DimensionTable)
    (product_map : gmap (string * option string) Z) (k : string * option string) (pid : Z) :
  product_map_loop ∅ (product_key_df df dim_product dim_category) = inr product_map →
  product_map !! k = Some pid →
  pid ∈ product_id <$> dim_product.
Proof.
  intros Hloop Hk.
  destruct (product_map_loop_lookup _ _ _ _ _ Hloop Hk) as [Hm|Hin];
    [by rewrite lookup_empty in Hm|].
  unfold product_key_df in Hin.
  apply list_elem_of_fmap in Hin as ([l [r|]] & [= _ _ Hpid] & Hin); simplify_eq/=.
  apply elem_of_merge_left in Hin as [_ [Hr _]].
  destruct r as [p c]. apply elem_of_merge_left in Hr as [Hp _].
  simpl. by apply list_elem_of_fmap_2.
Qed.

Lemma dim_map_lookup_ids (t : DimensionTable) (v : option string) (id : Z) :
  v ≫= (dict_zip (dim_names t) (dim_ids t) !!.) = Some id → id ∈ dim_ids t.
Proof.
  destruct v as [name|]; [|done]. simpl. intros Hl%dim_map_lookup_Some.
  unfold dim_ids. by apply (list_elem_of_fmap_2 surrogate_key) in Hl.
Qed.

(** C8: when the transform succeeds, every foreign key of every fact row
    is the key of a row of its dimension table, the tables being those the
    same run built from the same raw set. *)
Theorem referential_closure (to_datetime : string → option Timestamp)
    (df : list RawTransaction) (schema : StarSchema) :
  transform_to_star_schema to_datetime df = inr schema →
  length (fact_sales schema) = length df
  ∧ Forall (λ f, fs_date_id f ∈ date_id <$> dim_date schema
                 ∧ fs_region_id f ∈ dim_ids (dim_region schema)
                 ∧ fs_channel_id f ∈ dim_ids (dim_channel schema)
                 ∧ fs_segment_id f ∈ dim_ids (dim_segment schema)
                 ∧ fs_product_id f ∈ product_id <$> dim_product schema)
      (fact_sales schema).
Proof.
  intros Ht. apply transform_inr in Ht as (_ & _ & _ & _ & _ & _ & pm & Hpm & Ha).
  apply assemble_fact_sales_inr in Ha. split; [symmetry; by eapply Forall2_length|].
  apply Forall_forall. intros f Hf.
  apply list_elem_of_lookup in Hf as [i Hi].
  destruct (Forall2_lookup_r _ _ _ _ _ Ha Hi) as (r & _ & Hr).
  unfold resolve_record in Hr.
  destruct (order_date r ≫= _) as [d|] eqn:E1; simpl in Hr; [|done].
  destruct (region r ≫= _) as [g|] eqn:E2; simpl in Hr; [|done].
  destruct (channel r ≫= _) as [c|] eqn:E3; simpl in Hr; [|done].
  destruct (customer_segment r ≫= _) as [s|] eqn:E4; simpl in Hr; [|done].
  destruct (pm !! _) as [p|] eqn:E5; simpl in Hr; [|done].
  injection Hr as <-. simpl.
  split; [|split; [|split; [|split]]].
  - destruct (order_date r) as [raw|]; [|done]. simpl in E1.
    apply dict_zip_lookup_Some, elem_of_zip_r in E1. done.
  - by eapply dim_map_lookup_ids.
  - by eapply dim_map_lookup_ids.
  - by eapply dim_map_lookup_ids.
  - by eapply product_map_in_dim_product.
Qed.

Lemma referential_closure_witness :
  ∃ schema,
    transform_to_star_schema parse_iso_date example_df = inr schema
    ∧ length (fact_sales schema) = length example_df
    ∧ Forall (λ f, fs_date_id f ∈ date_id <$> dim_date schema
                   ∧ fs_region_id f ∈ dim_ids (dim_region schema)
                   ∧ fs_channel_id f ∈ dim_ids (dim_channel schema)
                   ∧ fs_segment_id f ∈ dim_ids (dim_segment schema)
                   ∧ fs_product_id f ∈ product_id <$> dim_product schema)
        (fact_sales schema).
Proof.
  eexists. split; [vm_compute; reflexivity|].
  apply (referential_closure parse_iso_date example_df). vm_compute. reflexivity.
Defined.
(** ** The transform succeeds on well-formed raw sets *)

Lemma dim_map_lookup_is_Some (t : DimensionTable) (name : string) :
  name ∈ dim_names t → is_Some (dict_zip (dim_names t) (dim_ids t) !! name).
Proof.
  intros Hin. apply dict_zip_lookup_is_Some; [|done].
  unfold dim_names, dim_ids. by rewrite !length_fmap.
Qed.

Lemma astype_int_series_map `{Countable K} (e : exn) (d : gmap K Z) (col : list (option K)) :
  Forall (λ v, ∃ k, v = Some k ∧ is_Some (d !! k)) col →
  ∃ ids, astype_int e (series_map d col) = inr ids.
Proof.
  intros Hcol. unfold astype_int.
  destruct (mapM id (series_map d col)) as [ids|] eqn:Hm; [by exists ids|].
  exfalso. apply mapM_None_1, Exists_exists in Hm as (x & Hx & Hnone).
  unfold series_map in Hx. apply list_elem_of_fmap in Hx as (v & -> & Hv).
  destruct (proj1 (Forall_forall _ _) Hcol v Hv) as (k & Hk & [id Hid]). subst v.
  simpl in Hnone. by rewrite Hid in Hnone.
Qed.

Lemma elem_of_merge_left_Some {L R} (matches : L → R → bool) (left : list L)
    (right : list R) (l : L) (r : R) :
  l ∈ left → r ∈ right → matches l r = true →
  (l, Some r) ∈ merge_left matches left right.
Proof.
  intros Hl Hr Hm. unfold merge_left. apply list_elem_of_bind. exists l. split; [|done].
  assert (Hin : r ∈ filter (λ r, matches l r = true) right)
    by (by apply list_elem_of_filter).
  destruct (filter _ right) as [|r0 rs]; [by apply elem_of_nil in Hin|].
  by apply (list_elem_of_fmap_2 (λ r, (l, Some r))).
Qed.

Lemma elem_of_merge_left_fst {L R} (matches : L → R → bool) (left : list L)
    (right : list R) (l : L) :
  l ∈ left → ∃ o, (l, o) ∈ merge_left matches left right.
Proof.
  intros Hl. unfold merge_left.
  destruct (filter (λ r, matches l r = true) right) as [|r0 rs] eqn:Hf.
  - exists None. apply list_elem_of_bind. exists l. split; [|done]. rewrite Hf. by left.
  - exists (Some r0). apply list_elem_of_bind. exists l. split; [|done]. rewrite Hf.
    simpl. by left.
Qed.

Lemma product_map_loop_ok (records : list (string * option string * option Z))
    (m : gmap (string * option string) Z) :
  Forall (λ rec, is_Some rec.2) records →
  ∃ product_map,
    product_map_loop m records = inr product_map
    ∧ (∀ k, is_Some (m !! k) → is_Some (product_map !! k))
    ∧ (∀ rec, rec ∈ records → is_Some (product_map !! rec.1)).
Proof.
  intros Hall. revert m. induction Hall as [|[[name cat] o] records Hsome _ IH];
    intros m; simpl in *; [|destruct Hsome as [pid ->]].
  - exists m. split; [done|]. split; [done|]. intros rec Hrec. by apply elem_of_nil in Hrec.
  - destruct (IH (<[(name, cat) := pid]> m)) as (pm & Hloop & Hkeep & Hrecs).
    exists pm. split; [done|]. split.
    + intros k Hk. apply Hkeep. destruct (decide ((name, cat) = k)) as [<-|Hne].
      * rewrite lookup_insert_eq. by eexists.
      * by rewrite lookup_insert_ne.
    + intros rec Hrec. apply elem_of_cons in Hrec as [->|Hrec]; [|by apply Hrecs].
      apply Hkeep. simpl. rewrite lookup_insert_eq. by eexists.
Qed.

Lemma mapM_result_ok {A B} (f : A → result B) (l : list A) :
  Forall (λ x, ∃ y, f x = inr y) l → ∃ k, mapM f l = inr k.
Proof.
  induction 1 as [|x l [y Hy] _ [k IH]]; [by exists []|].
  exists (y :: k). rewrite mapM_result_cons, Hy. cbn. by rewrite IH.
Qed.

Lemma well_formed_dates (to_datetime : string → option Timestamp)
    (df : list RawTransaction) :
  Forall (well_formed to_datetime) df →
  ∃ dates, Forall2 (λ r d, ∃ s, order_date r = Some s ∧ to_datetime s = Some d
                               ∧ strftime_Y_m_d d = s) df dates
           ∧ Forall valid_date dates.
Proof.
  induction 1 as [|r l Hr _ (dates & IH1 & IH2)]; [by exists []|].
  destruct Hr as ((s & d & Hs & Hd & Hv & Hrt) & _).
  exists (d :: dates). split; constructor; eauto.
Qed.

Section TransformSucceeds.

Variable to_datetime : string → option Timestamp.
Variable df : list RawTransaction.
Hypothesis Hwf : Forall (well_formed to_datetime) df.

Let dim_category_df : DimensionTable :=
  build_dimension (category <$> df) "category_id" "category_name".
Let category_map_df : gmap string Z :=
  dict_zip (dim_names dim_category_df) (dim_ids dim_category_df).

(** A column without missing values resolves against the dimension built
    from it. *)
Lemma dimension_column_resolves (col : RawTransaction → option string)
    (id_col name_col : string) :
  (∀ r, r ∈ df → is_Some (col r)) →
  ∃ ids,
    astype_int IntCastingNaNError
      (series_map (dict_zip (dim_names (build_dimension (col <$> df) id_col name_col))
                     (dim_ids (build_dimension (col <$> df) id_col name_col)))
         (col <$> df))
    = inr ids.
Proof.
  intros Hcol. apply astype_int_series_map, Forall_fmap, Forall_forall. intros r Hr.
  destruct (Hcol r Hr) as [v Hv]. exists v. split; [exact Hv|].
  apply dim_map_lookup_is_Some, elem_of_dim_names. rewrite <- Hv.
  by apply list_elem_of_fmap_2.
Qed.

Lemma pair_category_present (p : string * option string) :
  p ∈ product_pairs df →
  ∃ c, p.2 = Some c ∧ is_Some (category_map_df !! c).
Proof.
  intros Hp. apply list_elem_of_fmap in Hp as (r & -> & Hr).
  destruct (proj1 (Forall_forall _ _) Hwf r Hr) as (_ & _ & _ & _ & [c Hc]).
  exists c. split; [done|]. apply dim_map_lookup_is_Some, elem_of_dim_names.
  rewrite <- Hc. by apply list_elem_of_fmap_2.
Qed.

Lemma build_dim_product_ok :
  ∃ rows, build_dim_product df category_map_df = inr rows.
Proof.
  unfold build_dim_product.
  destruct (astype_int_series_map IntCastingNaNError category_map_df
              (snd <$> dim_product_pairs df)) as [cids Hc].
  { apply Forall_fmap, Forall_forall. intros p Hp%elem_of_dim_product_pairs.
    destruct (pair_category_present p Hp) as (c & Hc & Hsome). by exists c. }
  rewrite Hc. by eexists.
Qed.

(** Every distinct pair of the raw set finds its row in the product
    dimension joined to the category dimension. *)
Lemma product_key_df_resolved (rows : list ProductDimensionRow) :
  build_dim_product df category_map_df = inr rows →
  Forall (λ rec, is_Some rec.2) (product_key_df df rows dim_category_df).
Proof.
  intros Hrows. apply build_dim_product_inr in Hrows as (_ & Hnames & Hcats).
  apply Forall_forall. intros rec Hrec. unfold product_key_df in Hrec.
  apply list_elem_of_fmap in Hrec as ([l o] & -> & Hin). simpl.
  destruct o as [r|]; [done|]. exfalso.
  apply elem_of_merge_left in Hin as [Hl Hnone].
  rewrite elem_of_drop_duplicates in Hl.
  assert (Hl' : l ∈ dim_product_pairs df) by (by apply elem_of_dim_product_pairs).
  apply list_elem_of_lookup in Hl' as [i Hi].
  destruct (pair_category_present l Hl) as (c & Hc & _).
  assert (Hrow : ∃ p, rows !! i = Some p ∧ pd_product_name p = l.1
                      ∧ category_map_df !! c = Some (pd_category_id p)).
  { apply (f_equal (λ x, x !! i)) in Hnames. apply (f_equal (λ x, x !! i)) in Hcats.
    unfold series_map in Hcats.
    rewrite !list_lookup_fmap, Hi in Hnames. rewrite !list_lookup_fmap, Hi in Hcats.
    simpl in *.
    destruct (rows !! i) as [p|]; [|done]. simpl in *.
    exists p. split; [done|]. rewrite Hc in Hcats. simpl in Hcats.
    split; congruence. }
  destruct Hrow as (p & Hp & Hname & Hcat).
  apply dim_map_lookup_Some in Hcat.
  specialize (Hnone (p, Some (mkDimensionRow (pd_category_id p) c))).
  rewrite bool_decide_eq_false in Hnone. apply Hnone; [|simpl; by rewrite Hc].
  apply elem_of_merge_left_Some; [by eapply list_elem_of_lookup_2|done|].
  by apply bool_decide_eq_true.
Qed.

Lemma product_key_df_keys (rows : list ProductDimensionRow) (r : RawTransaction) :
  r ∈ df →
  ∃ o, (product_name r, category r, o) ∈ product_key_df df rows dim_category_df.
Proof.
  intros Hr. unfold product_key_df.
  edestruct (elem_of_merge_left_fst
               (λ (l : string * option string)
                  (r : ProductDimensionRow * option DimensionRow),
                  bool_decide (l.1 = pd_product_name r.1 ∧ l.2 = natural_value <$> r.2))
               (drop_duplicates (product_pairs df))) as [o Ho].
  { apply elem_of_drop_duplicates. by apply (list_elem_of_fmap_2 _ _ r). }
  eexists. apply list_elem_of_fmap. eexists. split; [|exact Ho]. reflexivity.
Qed.

(** On a well-formed raw set the transform returns, with one fact row per
    record. *)
Lemma transform_succeeds :
  ∃ schema, transform_to_star_schema to_datetime df = inr schema
            ∧ length (fact_sales schema) = length df.
Proof.
  destruct (well_formed_dates to_datetime df Hwf) as (dates & Hdates & Hvalid).
  destruct (create_dim_date_rows to_datetime df dates) as (dd & Hdd & Hrows); [|done|].
  { eapply Forall2_impl; [exact Hdates|]. intros r d (s & ? & ? & _). by exists s. }
  destruct build_dim_product_ok as (dp & Hdp).
  destruct (product_map_loop_ok (product_key_df df dp dim_category_df) ∅
              (product_key_df_resolved dp Hdp)) as (pm & Hpm & _ & Hkeys).
  assert (Hfacts : ∃ facts,
    assemble_fact_sales df
      (dict_zip (dd_order_date <$> dd) (date_id <$> dd))
      (dict_zip (dim_names (build_dimension (region <$> df) "region_id" "region_name"))
         (dim_ids (build_dimension (region <$> df) "region_id" "region_name")))
      (dict_zip (dim_names (build_dimension (channel <$> df) "channel_id" "channel_name"))
         (dim_ids (build_dimension (channel <$> df) "channel_id" "channel_name")))
      (dict_zip
         (dim_names (build_dimension (customer_segment <$> df) "segment_id" "segment_name"))
         (dim_ids (build_dimension (customer_segment <$> df) "segment_id" "segment_name")))
      pm = inr facts).
  { unfold assemble_fact_sales.
    edestruct (astype_int_series_map IntCastingNaNError
                 (dict_zip (dd_order_date <$> dd) (date_id <$> dd)) (order_date <$> df))
      as [ds ->].
    { apply Forall_fmap, Forall_forall. intros r Hr.
      apply list_elem_of_lookup in Hr as [i Hi].
      destruct (Forall2_lookup_l _ _ _ _ _ Hdates Hi) as (d & Hd & s & Hs & Hparse & Hrt).
      exists s. split; [done|].
      apply dict_zip_lookup_is_Some; [by rewrite !length_fmap|].
      assert (Hdin : d ∈ merge_sort ts_le (drop_duplicates dates)).
      { rewrite merge_sort_Permutation. apply elem_of_drop_duplicates.
        by eapply list_elem_of_lookup_2. }
      apply list_elem_of_lookup in Hdin as [j Hj].
      destruct (Forall2_lookup_l _ _ _ _ _ Hrows Hj) as (row & Hrow & _ & Hok).
      destruct Hok as (_ & _ & Hod & _). rewrite <- Hrt, <- Hod.
      apply list_elem_of_fmap_2. by eapply list_elem_of_lookup_2. }
    cbn [mbind result_bind].
    destruct (dimension_column_resolves region "region_id" "region_name") as [gs ->].
    { intros r Hr. by destruct (proj1 (Forall_forall _ _) Hwf r Hr) as (_ & ? & _). }
    cbn [mbind result_bind].
    destruct (dimension_column_resolves channel "channel_id" "channel_name") as [cs ->].
    { intros r Hr. by destruct (proj1 (Forall_forall _ _) Hwf r Hr) as (_ & _ & ? & _). }
    cbn [mbind result_bind].
    destruct (dimension_column_resolves customer_segment "segment_id" "segment_name")
      as [ss ->].
    { intros r Hr. by destruct (proj1 (Forall_forall _ _) Hwf r Hr) as (_ & _ & _ & ? & _). }
    cbn [mbind result_bind].
    edestruct (mapM_result_ok (lookup_product pm) df) as [ps ->].
    { apply Forall_forall. intros r Hr.
      destruct (product_key_df_keys dp r Hr) as [o Ho].
      destruct (Hkeys _ Ho) as [pid Hpid]. exists pid. by apply lookup_product_inr. }
    by eexists. }
  destruct Hfacts as (facts & Hfacts).
  eexists. split.
  - unfold transform_to_star_schema. rewrite Hdd. cbn [mbind result_bind].
    fold dim_category_df. fold category_map_df. rewrite Hdp. cbn [mbind result_bind].
    rewrite Hpm. cbn [mbind result_bind]. rewrite Hfacts. reflexivity.
  - simpl. apply assemble_fact_sales_inr in Hfacts. symmetry. by eapply Forall2_length.
Qed.

End TransformSucceeds.

(** C6: on a well-formed raw set that is not empty the transform returns
    a product dimension with one row per distinct (product_name, category)
    pair: the pairs are taken without repeats, so one product name under
    two categories gives two rows; they are sorted by category and then by
    product name, and the product ids are 1..N along that sorted list; each
    row carries the name of its pair and the key of its category in the
    category dimension. *)
Theorem dim_product_spec (to_datetime : string → option Timestamp)
    (df : list RawTransaction) :
  df ≠ [] →
  Forall (well_formed to_datetime) df →
  ∃ schema,
    transform_to_star_schema to_datetime df = inr schema
    ∧ let pairs := dim_product_pairs df in
      (∀ p, p ∈ pairs ↔ p ∈ product_pairs df)
      ∧ NoDup pairs
      ∧ Sorted pair_le pairs
      ∧ length (dim_product schema) = length pairs
      ∧ product_id <$> dim_product schema = Z.of_nat <$> seq 1 (length pairs)
      ∧ pd_product_name <$> dim_product schema = fst <$> pairs
      ∧ Forall2 (λ p row, ∃ c, p.2 = Some c
                               ∧ mkDimensionRow (pd_category_id row) c
                                 ∈ dim_rows (dim_category schema))
          pairs (dim_product schema).
Proof.
  intros _ Hwf. destruct (transform_succeeds to_datetime df Hwf) as (schema & Ht & _).
  exists schema. split; [exact Ht|].
  by apply (dim_product_of_transform to_datetime).
Qed.

Lemma dim_product_spec_witness :
  ∃ schema,
    transform_to_star_schema parse_iso_date example_df = inr schema
    ∧ let pairs := dim_product_pairs example_df in
      (∀ p, p ∈ pairs ↔ p ∈ product_pairs example_df)
      ∧ NoDup pairs
      ∧ Sorted pair_le pairs
      ∧ length (dim_product schema) = length pairs
      ∧ product_id <$> dim_product schema = Z.of_nat <$> seq 1 (length pairs)
      ∧ pd_product_name <$> dim_product schema = fst <$> pairs
      ∧ Forall2 (λ p row, ∃ c, p.2 = Some c
                               ∧ mkDimensionRow (pd_category_id row) c
                                 ∈ dim_rows (dim_category schema))
          pairs (dim_product schema).
Proof.
  apply (dim_product_spec parse_iso_date example_df); [done|].
  unfold example_df, well_formed, example_record.
  do 3 (constructor;
        [split; [eexists _, _; simpl;
                 split; [reflexivity|split; [vm_compute; reflexivity|split;
                   [apply (bool_decide_unpack _); vm_compute; exact I
                   |vm_compute; reflexivity]]]
                |simpl; eauto]|]).
  constructor.
Defined.

(** ** Outlier detector *)

(** *** binary64 comparisons *)

Lemma SFcompare_antisym (x y : spec_float) :
  SFcompare y x = CompOpp <$> SFcompare x y.
Proof.
  destruct x as [sx|sx| |sx mx ex], y as [sy|sy| |sy my ey]; simpl;
    try reflexivity; try (by destruct sx); try (by destruct sy);
    try (by destruct sx, sy).
  change (Pos.compare_cont Eq mx my) with (Pos.compare mx my).
  change (Pos.compare_cont Eq my mx) with (Pos.compare my mx).
  rewrite (Z.compare_antisym ex ey), (Pos.compare_antisym mx my).
  destruct sx, sy; simpl; try reflexivity;
    destruct (ex ?= ey)%Z; simpl; try reflexivity;
    by destruct (mx ?= my)%positive.
Qed.

Lemma SFcompare_refl (x : spec_float) :
  x ≠ S754_nan → SFcompare x x = Some Eq.
Proof.
  destruct x as [s|s| |s m e]; simpl; try done; try (by destruct s).
  intros _. rewrite Z.compare_refl.
  change (Pos.compare_cont Eq m m) with (Pos.compare m m).
  rewrite Pos.compare_refl. by destruct s.
Qed.

Lemma is_nan_false (x : float) : PrimFloat.is_nan x = false ↔ Prim2SF x ≠ S754_nan.
Proof.
  unfold PrimFloat.is_nan. rewrite FloatAxioms.eqb_spec. unfold SFeqb. split.
  - intros H Hnan. rewrite Hnan in H. done.
  - intros H. by rewrite SFcompare_refl.
Qed.

(** [<=] is total on floats that are not NaN. *)
Lemma float_leb_total (x y : float) :
  PrimFloat.is_nan x = false → PrimFloat.is_nan y = false →
  PrimFloat.leb x y = true ∨ PrimFloat.leb y x = true.
Proof.
  intros Hx%is_nan_false Hy%is_nan_false. rewrite !FloatAxioms.leb_spec. unfold SFleb.
  rewrite (SFcompare_antisym (Prim2SF x) (Prim2SF y)).
  destruct (SFcompare (Prim2SF x) (Prim2SF y)) as [[]|] eqn:Hc; simpl; auto.
  exfalso. destruct (Prim2SF x), (Prim2SF y); simpl in Hc; try done.
Qed.

Lemma flagged_not_nan {P} (threshold : float) (r : OutlierRow P) :
  flagged threshold r → PrimFloat.is_nan (z_score r) = false.
Proof.
  unfold flagged. rewrite FloatAxioms.leb_spec, abs_spec. intros H.
  apply is_nan_false. intros Hnan. rewrite Hnan in H.
  unfold SFleb in H. by destruct (Prim2SF threshold).
Qed.

(** A z-score of 0.0 is below every positive threshold. *)
Lemma zero_below_positive_threshold (threshold : float) :
  PrimFloat.ltb 0 threshold = true → PrimFloat.leb threshold (PrimFloat.abs 0) = false.
Proof.
  rewrite FloatAxioms.ltb_spec, FloatAxioms.leb_spec.
  change (Prim2SF (PrimFloat.abs 0)) with (S754_zero false).
  change (Prim2SF 0) with (S754_zero false).
  destruct (Prim2SF threshold) as [[]|[]| |[] m e]; cbn; congruence.
Qed.

#[global] Instance z_desc_total {P} : Total (@z_desc P).
Proof.
  intros a b. unfold z_desc.
  destruct (PrimFloat.is_nan (z_score a)) eqn:Ha; [by right; left|].
  destruct (PrimFloat.is_nan (z_score b)) eqn:Hb; [by left; left|].
  destruct (float_leb_total (z_score a) (z_score b) Ha Hb); [right|left]; right; done.
Qed.

Lemma Sorted_impl_Forall {A} (R R' : relation A) (Q : A → Prop) (l : list A) :
  (∀ a b, Q a → Q b → R a b → R' a b) → Forall Q l → Sorted R l → Sorted R' l.
Proof.
  intros HR HQ Hs. induction Hs as [|a l Hs IH Hhd]; [constructor|].
  apply Forall_cons in HQ as [Ha HQ]. constructor; [by apply IH|].
  destruct Hhd as [|b l' Hab]; constructor.
  apply Forall_cons in HQ as [Hb _]. by apply HR.
Qed.

Lemma filter_none {A} (Q : A → Prop) `{∀ x, Decision (Q x)} (l : list A) :
  Forall (λ x, ¬ Q x) l → filter Q l = [].
Proof.
  induction 1 as [|x l Hx _ IH]; [done|]. by rewrite filter_cons_False.
Qed.

(** The flagged rows come out by descending z-score. *)
Lemma sort_values_flagged_desc {P} (threshold : float) (df : list (OutlierRow P)) :
  Sorted (λ a b, PrimFloat.leb (z_score b) (z_score a) = true)
    (sort_values_z_score_desc (filter (flagged threshold) df)).
Proof.
  unfold sort_values_z_score_desc.
  eapply (Sorted_impl_Forall z_desc _ (flagged threshold)).
  - intros a b _ Hb%flagged_not_nan [Hnan|[_ Hle]]; [congruence|done].
  - apply Forall_forall. intros r Hr. rewrite merge_sort_Permutation in Hr.
    by apply list_elem_of_filter in Hr as [? _].
  - apply (Sorted_merge_sort z_desc).
Qed.

Section OutlierProperties.

Context {P : Type}.
Variable Series_mean : list float → float.
Variable Series_std_ddof0 : list float → float.

(** The detector never divides by zero: line 93 is only reached with a
    standard deviation that does not compare equal to 0. *)
Lemma monthly_z_scores_divisors (monthly_df : list (MonthlyRow P)) :
  Forall (λ d, PrimFloat.eqb d 0 = false)
    (monthly_z_scores Series_mean Series_std_ddof0 monthly_df).2.
Proof.
  unfold monthly_z_scores.
  destruct (PrimFloat.eqb _ 0) eqn:Hstd; simpl; [constructor|].
  apply Forall_fmap, Forall_forall. by intros r _.
Qed.

(** C3 (as the code has it): when the population standard deviation of
    the series, as [Series.std(ddof=0)] computes it, compares equal to
    zero, every month gets the z-score 0.0, no division is evaluated, and
    for every positive threshold no month is flagged. *)
Theorem detect_monthly_outliers_zero_std (monthly_df : list (MonthlyRow P))
    (threshold : float) :
  PrimFloat.eqb (Series_std_ddof0 (mr_net_revenue <$> monthly_df)) 0 = true →
  PrimFloat.ltb 0 threshold = true →
  z_score <$> (monthly_z_scores Series_mean Series_std_ddof0 monthly_df).1
  = replicate (length monthly_df) 0%float
  ∧ (monthly_z_scores Series_mean Series_std_ddof0 monthly_df).2 = []
  ∧ detect_monthly_outliers Series_mean Series_std_ddof0 monthly_df threshold = [].
Proof.
  intros Hstd Hpos. unfold detect_monthly_outliers, monthly_z_scores.
  rewrite Hstd. simpl. split; [|split; [done|]].
  - rewrite <- list_fmap_compose. by apply const_fmap.
  - replace (filter _ _) with (@nil (OutlierRow P)); [done|].
    symmetry. apply filter_none, Forall_fmap, Forall_forall.
    intros r _. unfold flagged. simpl.
    by rewrite zero_below_positive_threshold.
Qed.

(** C7: when the population standard deviation does not compare equal
    to zero, the detector returns exactly the months whose z-score
    (revenue - mean) / std satisfies |z| >= threshold, the boundary
    included, each as often as it occurs in the series, and it returns
    them by descending z-score. *)
Theorem detect_monthly_outliers_spec (monthly_df : list (MonthlyRow P))
    (threshold : float) :
  PrimFloat.eqb (Series_std_ddof0 (mr_net_revenue <$> monthly_df)) 0 = false →
  let mean_value := Series_mean (mr_net_revenue <$> monthly_df) in
  let std_value := Series_std_ddof0 (mr_net_revenue <$> monthly_df) in
  let scored :=
    (λ r, mkOutlierRow (period r) (mr_net_revenue r)
            ((mr_net_revenue r - mean_value) / std_value)%float) <$> monthly_df in
  let outliers :=
    detect_monthly_outliers Series_mean Series_std_ddof0 monthly_df threshold in
  outliers
    ≡ₚ filter (λ row, PrimFloat.leb threshold (PrimFloat.abs (z_score row)) = true) scored
  ∧ (∀ row, row ∈ outliers
            ↔ row ∈ scored
              ∧ PrimFloat.leb threshold (PrimFloat.abs (z_score row)) = true)
  ∧ Sorted (λ a b, PrimFloat.leb (z_score b) (z_score a) = true) outliers.
Proof.
  intros Hstd mean_value std_value scored outliers.
  assert (Hperm : outliers ≡ₚ filter (flagged threshold) scored).
  { subst outliers. unfold detect_monthly_outliers, monthly_z_scores.
    rewrite Hstd. simpl. apply merge_sort_Permutation. }
  split; [exact Hperm|]. split.
  - intros row. rewrite Hperm, list_elem_of_filter. unfold flagged. tauto.
  - apply sort_values_flagged_desc.
Qed.

(** C10: the report's [detect_monthly_outliers] and the dashboard's
    [detect_outlier_months] assign the same z-scores to every series and
    return the same flagged months in the same order, for every
    threshold. *)
Theorem detectors_equivalent (monthly_df : list (MonthlyRow P)) (threshold : float) :
  outlier_months_z_scores Series_mean Series_std_ddof0 monthly_df
  = monthly_z_scores Series_mean Series_std_ddof0 monthly_df
  ∧ detect_outlier_months Series_mean Series_std_ddof0 monthly_df threshold
    = detect_monthly_outliers Series_mean Series_std_ddof0 monthly_df threshold.
Proof.
  assert (Hz : outlier_months_z_scores Series_mean Series_std_ddof0 monthly_df
               = monthly_z_scores Series_mean Series_std_ddof0 monthly_df).
  { unfold outlier_months_z_scores, monthly_z_scores.
    by destruct (PrimFloat.eqb _ 0). }
  split; [exact Hz|].
  unfold detect_outlier_months, detect_monthly_outliers. by rewrite Hz.
Qed.

End OutlierProperties.

(** The specification's example: the series 100, 100, 100, 100 has
    standard deviation zero, all z-scores 0.0, and no outlier at 2.0. *)
Example flat_series_no_outliers :
  nanstd_ddof0 (mr_net_revenue <$> flat_series) = 0%float
  ∧ z_score <$> (monthly_z_scores nanmean nanstd_ddof0 flat_series).1 = [0; 0; 0; 0]%float
  ∧ detect_monthly_outliers nanmean nanstd_ddof0 flat_series 2 = [].
Proof. vm_compute. repeat split; reflexivity. Qed.

(** Four months cannot reach a z-score of 2: in the series 100, 102, 98,
    500 the last month has z = 1.73 and is flagged at 1.5, not at 2.0. *)
Example four_months_below_two :
  detect_monthly_outliers nanmean nanstd_ddof0 (monthly_series [100; 102; 98; 500]%float) 2
  = []
  ∧ or_period <$> detect_monthly_outliers nanmean nanstd_ddof0
                    (monthly_series [100; 102; 98; 500]%float) 1.5
    = [4%nat].
Proof. vm_compute. repeat split; reflexivity. Qed.

(** The guard tests the computed deviation. In binary64 the mean of
    identical values can be off by one unit in the last place, and the
    computed deviation is then not zero: three months of
    0.1000000000000000055 each get the z-score -1. *)
Example identical_values_rounding :
  nanstd_ddof0 [0x1.999999999999ap-4; 0x1.999999999999ap-4; 0x1.999999999999ap-4]%float
  = 0x1p-56%float
  ∧ z_score <$> (monthly_z_scores nanmean nanstd_ddof0
                   (monthly_series [0x1.999999999999ap-4; 0x1.999999999999ap-4;
                                    0x1.999999999999ap-4]%float)).1
    = [-1; -1; -1]%float.
Proof. vm_compute. repeat split; reflexivity. Qed.

(** C3 (as stated) fails: identical values do not make the computed
    deviation zero. Three months of 0.1 each have the binary64 mean
    0.1 + 2^-56, so the guard of line 90 is not taken: the computed
    deviation is 2^-56, every month gets the z-score -1, and at the
    positive threshold 1.0 all three months are flagged. *)
Lemma identical_values_flagged :
  mr_net_revenue <$> identical_months = replicate 3 0x1.999999999999ap-4%float
  ∧ PrimFloat.ltb 0 1 = true
  ∧ nanstd_ddof0 (mr_net_revenue <$> identical_months) = 0x1p-56%float
  ∧ PrimFloat.eqb (nanstd_ddof0 (mr_net_revenue <$> identical_months)) 0 = false
  ∧ z_score <$> (monthly_z_scores nanmean nanstd_ddof0 identical_months).1
    = [-1; -1; -1]%float
  ∧ (monthly_z_scores nanmean nanstd_ddof0 identical_months).2
    = [0x1p-56; 0x1p-56; 0x1p-56]%float
  ∧ length (detect_monthly_outliers nanmean nanstd_ddof0 identical_months 1) = 3%nat
  ∧ detect_monthly_outliers nanmean nanstd_ddof0 identical_months 1 ≠ [].
Proof.
  repeat split; try (vm_compute; reflexivity).
  intros Heq. apply (f_equal length) in Heq. vm_compute in Heq. discriminate.
Qed.

(** A single month has standard deviation zero. *)
Example single_month_no_outliers :
  nanstd_ddof0 [1234.5%float] = 0%float
  ∧ detect_monthly_outliers nanmean nanstd_ddof0 (monthly_series [1234.5%float]) 2 = [].
Proof. vm_compute. repeat split; reflexivity. Qed.

(** Flagged months come by z-score, not by period: month 4 (z = 3.25)
    before month 8 (z = -0.93) at threshold 0.5. *)
Example spiky_series_outliers :
  or_period <$> detect_monthly_outliers nanmean nanstd_ddof0 spiky_series 0.5
  = [4%nat; 8%nat]
  ∧ or_period <$> detect_monthly_outliers nanmean nanstd_ddof0 spiky_series 2 = [4%nat].
Proof. vm_compute. repeat split; reflexivity. Qed.

Lemma detect_monthly_outliers_zero_std_witness :
  z_score <$> (monthly_z_scores nanmean nanstd_ddof0 flat_series).1
  = replicate (length flat_series) 0%float
  ∧ (monthly_z_scores nanmean nanstd_ddof0 flat_series).2 = []
  ∧ detect_monthly_outliers nanmean nanstd_ddof0 flat_series 2 = [].
Proof.
  apply (detect_monthly_outliers_zero_std nanmean nanstd_ddof0 flat_series 2);
    vm_compute; reflexivity.
Defined.

Lemma detect_monthly_outliers_spec_witness :
  Sorted (λ a b : OutlierRow nat, PrimFloat.leb (z_score b) (z_score a) = true)
    (detect_monthly_outliers nanmean nanstd_ddof0 spiky_series 0.5).
Proof.
  refine (proj2 (proj2
    (detect_monthly_outliers_spec nanmean nanstd_ddof0 spiky_series 0.5 _))).
  vm_compute. reflexivity.
Defined.
(** ** Warehouse loader *)

Ltac resolve_table_lookup :=
  repeat first [ rewrite lookup_insert_ne by discriminate
               | rewrite lookup_delete_ne by discriminate
               | rewrite lookup_delete_eq
               | rewrite lookup_insert_eq ];
  simpl.

Lemma scripts_fresh_schema (db : gmap string table) :
  (_ ← executescript drop_sql; executescript schema_sql) (mkConnection db None)
  = (inr (), mkConnection (fresh_schema db) None).
Proof.
  unfold fresh_schema, mbind, sql_bind, executescript, commit, view. simpl.
  do 7 resolve_table_lookup. reflexivity.
Qed.

Lemma elem_of_warehouse_tables (name : string) :
  name ∈ warehouse_tables ↔
  name = "dim_date" ∨ name = "dim_region" ∨ name = "dim_channel"
  ∨ name = "dim_customer_segment" ∨ name = "dim_category" ∨ name = "dim_product"
  ∨ name = "fact_sales".
Proof.
  unfold warehouse_tables. rewrite !elem_of_cons, elem_of_nil. tauto.
Qed.

Lemma fresh_schema_lookup_in (db : gmap string table) (name : string) :
  name ∈ warehouse_tables → fresh_schema db !! name = Some [].
Proof.
  intros Hin. apply elem_of_warehouse_tables in Hin.
  unfold fresh_schema. simpl.
  repeat (destruct Hin as [->|Hin]); [..|subst name]; by resolve_table_lookup.
Qed.

Lemma fresh_schema_lookup_out (db : gmap string table) (name : string) :
  name ∉ warehouse_tables → fresh_schema db !! name = db !! name.
Proof.
  intros Hout. unfold fresh_schema. simpl.
  rewrite !lookup_insert_ne, !lookup_delete_ne; [done|..];
    intros <-; apply Hout, elem_of_warehouse_tables; tauto.
Qed.

Lemma fresh_schema_agree (db1 db2 : gmap string table) :
  agree_outside_warehouse db1 db2 → fresh_schema db1 = fresh_schema db2.
Proof.
  intros Hagree. apply map_eq. intros name.
  destruct (decide (name ∈ warehouse_tables)) as [Hin|Hout].
  - by rewrite !fresh_schema_lookup_in.
  - rewrite !fresh_schema_lookup_out by done. by apply Hagree.
Qed.

Lemma view_pending (p db : gmap string table) : view (mkConnection p (Some db)) = db.
Proof. reflexivity. Qed.

Lemma view_idle (db : gmap string table) : view (mkConnection db None) = db.
Proof. reflexivity. Qed.

Section LoaderProperties.

Variable row_ok : string → gmap string table → sql_row → bool.

(** The load is what the inserts do to the fresh schema. *)
Lemma load_to_sqlite_fresh (w : StarSchema) (db : gmap string table) :
  load_to_sqlite row_ok w db
  = with_connection (to_sql_all row_ok (load_plan w)) (fresh_schema db).
Proof.
  unfold load_to_sqlite, with_connection.
  change ((_ ← executescript drop_sql; _ ← executescript schema_sql;
           to_sql_all row_ok (load_plan w)) (mkConnection db None))
    with (match (_ ← executescript drop_sql; executescript schema_sql)
                  (mkConnection db None) with
          | (inl e, c') => (inl e, c')
          | (inr a, c') => to_sql_all row_ok (load_plan w) c'
          end).
  by rewrite scripts_fresh_schema.
Qed.

(** Inserting rows leaves the file as it is and, when no row is
    refused, extends the table in the pending transaction. *)
Lemma executemany_insert_spec (name : string) (rows : list sql_row) (c : connection) :
  match executemany_insert row_ok name rows c with
  | (inr _, c') =>
      persisted c' = persisted c
      ∧ view c' = match rows with
                  | [] => view c
                  | _ => <[name := default [] (view c !! name) ++ rows]> (view c)
                  end
  | (inl e, c') => e = IntegrityError name ∧ persisted c' = persisted c
  end.
Proof.
  revert c. induction rows as [|row rows IH]; intros c; [done|].
  simpl. destruct (row_ok name (view c) row); [|done].
  specialize (IH (mkConnection (persisted c)
                    (Some (<[name := default [] (view c !! name) ++ [row]]> (view c))))).
  destruct (executemany_insert row_ok name rows _) as [[e|[]] c']; [done|].
  destruct IH as [Hp Hv]. split; [done|]. rewrite Hv, !view_pending.
  destruct rows as [|row' rows']; [done|].
  rewrite lookup_insert_eq, insert_insert_eq. simpl. by rewrite <- app_assoc.
Qed.

(** [to_sql] on an existing, empty table, with no transaction open:
    either the table holds the frame's rows, or nothing changed. *)
Lemma to_sql_spec (name : string) (rows : list sql_row) (db : gmap string table) :
  db !! name = Some [] →
  to_sql row_ok name rows (mkConnection db None)
  = (inr (), mkConnection (<[name := rows]> db) None)
  ∨ to_sql row_ok name rows (mkConnection db None)
    = (inl (IntegrityError name), mkConnection db None).
Proof.
  intros Hname. unfold to_sql. rewrite view_idle, Hname.
  pose proof (executemany_insert_spec name rows (mkConnection db None)) as Hspec.
  destruct (executemany_insert row_ok name rows _) as [[e|[]] c'].
  - destruct Hspec as [-> Hp]. right. unfold rollback. by rewrite Hp.
  - destruct Hspec as [Hp Hv]. left. unfold commit. rewrite Hv, view_idle, Hname.
    simpl. destruct rows; [|done]. by rewrite insert_id.
Qed.

End LoaderProperties.
Lemma loaded_prefix_cons (k : nat) (t : string * list sql_row)
    (plan : list (string * list sql_row)) (db : gmap string table) :
  loaded_prefix (S k) (t :: plan) db = loaded_prefix k plan (<[t.1 := t.2]> db).
Proof. reflexivity. Qed.

Lemma loaded_prefix_lookup_notin (k : nat) (plan : list (string * list sql_row))
    (db : gmap string table) (name : string) :
  name ∉ plan.*1 → loaded_prefix k plan db !! name = db !! name.
Proof.
  revert k db. induction plan as [|[n rows] plan IH]; intros k db Hnotin.
  - by destruct k.
  - destruct k as [|k]; [done|]. rewrite loaded_prefix_cons, IH.
    + simpl. apply lookup_insert_ne. intros ->. apply Hnotin. by left.
    + intros Hin. apply Hnotin. by right.
Qed.

Lemma loaded_prefix_lookup (plan : list (string * list sql_row)) (k i : nat)
    (db : gmap string table) (name : string) (rows : list sql_row) :
  NoDup plan.*1 → plan !! i = Some (name, rows) →
  loaded_prefix k plan db !! name = if decide (i < k)%nat then Some rows else db !! name.
Proof.
  intros Hnd. revert k i db. induction plan as [|[n r] plan IH]; intros k i db Hi; [done|].
  apply NoDup_cons in Hnd as [Hn Hnd].
  destruct k as [|k].
  { rewrite decide_False by lia. done. }
  rewrite loaded_prefix_cons. simpl. destruct i as [|i]; simpl in Hi.
  - injection Hi as -> ->. rewrite decide_True by lia.
    rewrite loaded_prefix_lookup_notin by done. apply lookup_insert_eq.
  - rewrite (IH Hnd k i) by done.
    destruct (decide (i < k)%nat); [by rewrite decide_True by lia|].
    rewrite decide_False by lia. apply lookup_insert_ne. intros ->.
    apply Hn. apply list_elem_of_lookup_2 in Hi. by apply (list_elem_of_fmap_2 fst) in Hi.
Qed.

Section LoadOutcome.

Variable row_ok : string → gmap string table → sql_row → bool.

(** The inserts stop at the first table that refuses a row: the tables
    before it hold their rows, that table and the later ones stay empty. *)
Lemma to_sql_all_spec (plan : list (string * list sql_row)) (db : gmap string table) :
  NoDup plan.*1 → (∀ name, name ∈ plan.*1 → db !! name = Some []) →
  ∃ k r, to_sql_all row_ok plan (mkConnection db None)
         = (r, mkConnection (loaded_prefix k plan db) None)
         ∧ ((r = inr () ∧ k = length plan)
            ∨ ∃ name rows, plan !! k = Some (name, rows) ∧ r = inl (IntegrityError name)).
Proof.
  revert db. induction plan as [|[name rows] plan IH]; intros db Hnd Hempty.
  - exists 0%nat, (inr ()). split; [done|]. by left.
  - apply NoDup_cons in Hnd as [Hn Hnd].
    cbn [to_sql_all]. unfold mbind, sql_bind.
    destruct (to_sql_spec row_ok name rows db) as [Hok|Hfail].
    { apply Hempty. by left. }
    + rewrite Hok.
      destruct (IH (<[name := rows]> db) Hnd) as (k & r & Hrun & Hk).
      { intros n Hin. rewrite lookup_insert_ne; [apply Hempty; by right|].
        intros ->. by apply Hn. }
      exists (S k), r. split; [by rewrite Hrun|].
      destruct Hk as [[-> ->]|(n & rs & Hn' & ->)]; [by left|].
      right. by exists n, rs.
    + rewrite Hfail. exists 0%nat, (inl (IntegrityError name)). split; [done|].
      right. by exists name, rows.
Qed.

Lemma NoDup_load_plan (w : StarSchema) : NoDup (load_plan w).*1.
Proof. simpl. apply (bool_decide_unpack _). vm_compute. exact I. Qed.

Lemma load_plan_names (w : StarSchema) : (load_plan w).*1 = warehouse_tables.
Proof. reflexivity. Qed.

(** The file after a load: the fresh schema with the first [k] tables
    of the plan loaded; [k] is 7 when the load returns, and the position
    of the refusing table when it raises. *)
Lemma load_to_sqlite_outcome (w : StarSchema) (db : gmap string table) :
  ∃ k r, load_to_sqlite row_ok w db = (r, loaded_prefix k (load_plan w) (fresh_schema db))
         ∧ ((r = inr () ∧ k = 7%nat)
            ∨ ∃ name rows, load_plan w !! k = Some (name, rows)
                           ∧ r = inl (IntegrityError name)).
Proof.
  rewrite load_to_sqlite_fresh. unfold with_connection.
  destruct (to_sql_all_spec (load_plan w) (fresh_schema db)) as (k & r & Hrun & Hk).
  { apply NoDup_load_plan. }
  { intros name Hin. rewrite load_plan_names in Hin. by apply fresh_schema_lookup_in. }
  rewrite Hrun. exists k, r. split; [by destruct r as [e|[]]|done].
Qed.

(** A load changes the seven warehouse tables only. *)
Lemma load_to_sqlite_agree (w : StarSchema) (db : gmap string table) :
  agree_outside_warehouse db (load_to_sqlite row_ok w db).2.
Proof.
  destruct (load_to_sqlite_outcome w db) as (k & r & -> & _). simpl.
  intros name Hout.
  rewrite loaded_prefix_lookup_notin by (by rewrite load_plan_names).
  by rewrite fresh_schema_lookup_out.
Qed.

Lemma load_to_sqlite_agree_eq (w : StarSchema) (db1 db2 : gmap string table) :
  agree_outside_warehouse db1 db2 →
  load_to_sqlite row_ok w db1 = load_to_sqlite row_ok w db2.
Proof.
  intros Hagree. by rewrite !load_to_sqlite_fresh, (fresh_schema_agree db1 db2).
Qed.

(** C2 (as the code has it): the load is not one transaction. The two
    scripts take effect at once and each table's insert is committed on
    its own, so a load that raises leaves the file with the fresh schema
    in which the tables before the refusing one hold the new rows and
    that table and the later ones are empty; the rows the file held
    before are not restored. The fact table is inserted last: after a
    load that raised it has no rows. *)
Theorem load_to_sqlite_failure (w : StarSchema) (db db' : gmap string table) (e : exn) :
  load_to_sqlite row_ok w db = (inl e, db') →
  ∃ k name rows,
    load_plan w !! k = Some (name, rows)
    ∧ e = IntegrityError name
    ∧ db' = loaded_prefix k (load_plan w) (fresh_schema db)
    ∧ (∀ i t rows_t, load_plan w !! i = Some (t, rows_t) →
                     db' !! t = Some (if decide (i < k)%nat then rows_t else []))
    ∧ db' !! "fact_sales" = Some [].
Proof.
  intros Hload.
  destruct (load_to_sqlite_outcome w db) as (k & r & Hrun & Hk).
  rewrite Hload in Hrun. injection Hrun as <- ->.
  destruct Hk as [[? _]|(name & rows & Hplan & He)]; [done|]. injection He as ->.
  assert (Htables : ∀ i t rows_t, load_plan w !! i = Some (t, rows_t) →
            loaded_prefix k (load_plan w) (fresh_schema db) !! t
            = Some (if decide (i < k)%nat then rows_t else [])).
  { intros i t rows_t Hi.
    rewrite (loaded_prefix_lookup _ k i _ t rows_t (NoDup_load_plan w) Hi).
    destruct (decide (i < k)%nat); [done|].
    apply fresh_schema_lookup_in. rewrite <- (load_plan_names w).
    apply list_elem_of_lookup_2 in Hi. by apply (list_elem_of_fmap_2 fst) in Hi. }
  exists k, name, rows. do 3 (split; [done|]). split; [exact Htables|].
  assert (Hk : (k < 7)%nat) by (by apply lookup_lt_Some in Hplan).
  rewrite (Htables 6%nat "fact_sales" (fact_sql_row <$> fact_sales w)) by done.
  by rewrite decide_False by lia.
Qed.

(** C9 (as the code has it): the tables the build leaves are a function
    of the raw set and of what the file holds outside the seven warehouse
    tables: from two files that differ only in those tables it ends with
    the same outcome and, when the transform succeeds, with the same
    tables; the transform returns the same tables, hence the same
    surrogate keys; and a second build on the file the first one left ends
    with those same tables. *)
Theorem rebuild_deterministic (to_datetime : string → option Timestamp)
    (df : list RawTransaction) (db1 db2 : gmap string table) :
  agree_outside_warehouse db1 db2 →
  (main row_ok to_datetime df db1).1 = (main row_ok to_datetime df db2).1
  ∧ (∀ w, transform_to_star_schema to_datetime df = inr w →
          (main row_ok to_datetime df db1).2 = (main row_ok to_datetime df db2).2
          ∧ (main row_ok to_datetime df db1).2 = (load_to_sqlite row_ok w db2).2)
  ∧ main row_ok to_datetime df (main row_ok to_datetime df db1).2
    = main row_ok to_datetime df db1.
Proof.
  intros Hagree. unfold main.
  destruct (transform_to_star_schema to_datetime df) as [e|w] eqn:Ht; simpl.
  - done.
  - rewrite (load_to_sqlite_agree_eq w db1 db2 Hagree).
    split; [done|]. split; [by intros w' [= <-]|].
    symmetry. apply load_to_sqlite_agree_eq, load_to_sqlite_agree.
Qed.

End LoadOutcome.

(** C2 (as stated) fails: a raw set with a repeated order id makes the
    insert into [fact_sales] raise; the build then leaves the dimensions of
    the new raw set in the file and [fact_sales] empty, not the warehouse
    that was there before. *)
Lemma load_failure_not_rolled_back :
  (main schema_row_ok parse_iso_date duplicate_order_df example_warehouse).1
  = inl (IntegrityError "fact_sales")
  ∧ length <$> example_warehouse !! "fact_sales" = Some 3%nat
  ∧ example_warehouse !! "dim_region"
    = Some [[SqlInt 1; SqlText "South"]; [SqlInt 2; SqlText "West"]]
  ∧ (main schema_row_ok parse_iso_date duplicate_order_df example_warehouse).2
    !! "fact_sales" = Some []
  ∧ (main schema_row_ok parse_iso_date duplicate_order_df example_warehouse).2
    !! "dim_region" = Some [[SqlInt 1; SqlText "Northeast"]]
  ∧ (main schema_row_ok parse_iso_date duplicate_order_df example_warehouse).2
    ≠ example_warehouse.
Proof.
  repeat split; try (vm_compute; reflexivity).
  intros Heq. apply (f_equal (λ db : gmap string table, db !! "fact_sales")) in Heq.
  vm_compute in Heq. discriminate.
Qed.

Lemma load_to_sqlite_failure_witness :
  ∃ k name rows,
    load_plan (transformed duplicate_order_df) !! k = Some (name, rows)
    ∧ IntegrityError "fact_sales" = IntegrityError name
    ∧ (load_to_sqlite schema_row_ok (transformed duplicate_order_df) example_warehouse).2
      = loaded_prefix k (load_plan (transformed duplicate_order_df))
          (fresh_schema example_warehouse)
    ∧ (∀ i t rows_t,
         load_plan (transformed duplicate_order_df) !! i = Some (t, rows_t) →
         (load_to_sqlite schema_row_ok (transformed duplicate_order_df) example_warehouse).2
         !! t = Some (if decide (i < k)%nat then rows_t else []))
    ∧ (load_to_sqlite schema_row_ok (transformed duplicate_order_df) example_warehouse).2
      !! "fact_sales" = Some [].
Proof.
  apply (load_to_sqlite_failure schema_row_ok (transformed duplicate_order_df)
           example_warehouse _ (IntegrityError "fact_sales")).
  vm_compute. reflexivity.
Defined.

Lemma rebuild_deterministic_witness :
  (main schema_row_ok parse_iso_date example_df example_warehouse).1
  = (main schema_row_ok parse_iso_date example_df ∅).1
  ∧ (∀ w, transform_to_star_schema parse_iso_date example_df = inr w →
          (main schema_row_ok parse_iso_date example_df example_warehouse).2
          = (main schema_row_ok parse_iso_date example_df ∅).2
          ∧ (main schema_row_ok parse_iso_date example_df example_warehouse).2
            = (load_to_sqlite schema_row_ok w ∅).2)
  ∧ main schema_row_ok parse_iso_date example_df
      (main schema_row_ok parse_iso_date example_df example_warehouse).2
    = main schema_row_ok parse_iso_date example_df example_warehouse.
Proof.
  apply (rebuild_deterministic schema_row_ok parse_iso_date example_df example_warehouse ∅).
  intros name Hout. symmetry.
  apply (load_to_sqlite_agree schema_row_ok (transformed example_df) ∅ name Hout).
Defined.

(** C9 (as stated) fails: the rebuilt file is not the same, byte for
    byte. A first build of [example_df] into a new file and a second build
    on the file it left end with the same seven tables, but every drop,
    create and insert that is committed moves the counters of the file's
    header, which are not times: the change counter (bytes 24 to 27,
    repeated at 92 to 95) and the schema cookie (bytes 40 to 43) differ
    after the second build, in their last bytes at the offsets 27, 43 and
    95. *)
Lemma rebuild_changes_file_header :
  main schema_row_ok parse_iso_date example_df ∅ = (inr (), example_warehouse)
  ∧ main schema_row_ok parse_iso_date example_df example_warehouse
    = (inr (), example_warehouse)
  ∧ file_change_counter first_build_header < file_change_counter second_build_header
  ∧ schema_cookie first_build_header < schema_cookie second_build_header
  ∧ header_byte second_build_header 27 ≠ header_byte first_build_header 27
  ∧ header_byte second_build_header 43 ≠ header_byte first_build_header 43
  ∧ header_byte second_build_header 95 ≠ header_byte first_build_header 95.
Proof.
  assert (H1 : first_build_header = mkFileHeader 14 7) by (vm_compute; reflexivity).
  assert (H2 : second_build_header = mkFileHeader 35 21) by (vm_compute; reflexivity).
  rewrite H1, H2.
  repeat split; try (vm_compute; reflexivity); vm_compute; discriminate.
Qed.

(** A build into an empty file succeeds and loads every record. *)
Example example_build :
  (main schema_row_ok parse_iso_date example_df ∅).1 = inr ()
  ∧ (main schema_row_ok parse_iso_date example_df ∅).2 = example_warehouse
  ∧ length <$> example_warehouse !! "fact_sales" = Some (length example_df).
Proof. repeat split; vm_compute; reflexivity. Qed.

(** * Further properties of the warehouse build *)

(** ** Dimension extractor: independence of row order *)

Lemma sorted_same_values (values1 values2 : list string) :
  NoDup values1 → NoDup values2 → (∀ v, v ∈ values1 ↔ v ∈ values2) →
  sorted values1 = sorted values2.
Proof.
  intros Hnd1 Hnd2 Hsame.
  apply (StronglySorted_unique str_le); [apply StronglySorted_sorted..|].
  unfold sorted. rewrite !merge_sort_Permutation. by apply NoDup_Permutation.
Qed.

(** X1: the table [build_dimension] returns depends only on the set of
    non-missing values of the column: reordering the rows of the raw set,
    repeating them or adding rows with a missing value changes neither the
    rows of the dimension nor any surrogate key. *)
Theorem build_dimension_order_independent (source1 source2 : list (option string))
    (id_col name_col : string) :
  (∀ v, Some v ∈ source1 ↔ Some v ∈ source2) →
  build_dimension source1 id_col name_col = build_dimension source2 id_col name_col.
Proof.
  intros Hsame. unfold build_dimension.
  rewrite (sorted_same_values (drop_duplicates (dropna source1))
             (drop_duplicates (dropna source2))); [done|apply NoDup_drop_duplicates..|].
  intros v. by rewrite !elem_of_drop_duplicates, !elem_of_dropna.
Qed.

Lemma build_dimension_order_independent_witness :
  build_dimension [Some "South"; None; Some "West"; Some "South"] "region_id" "region_name"
  = build_dimension [Some "West"; Some "South"] "region_id" "region_name".
Proof.
  apply build_dimension_order_independent. intros v.
  rewrite !elem_of_cons, !elem_of_nil. split; intros H; intuition congruence.
Defined.

(** ** Dimension lookups *)

Lemma dict_zip_lookup_index `{Countable K} {V} (keys : list K) (values : list V)
    (i : nat) (k : K) (v : V) :
  NoDup keys → length keys = length values →
  keys !! i = Some k → values !! i = Some v → dict_zip keys values !! k = Some v.
Proof.
  intros Hnd Hlen Hk Hv.
  destruct (dict_zip_lookup_is_Some keys values k Hlen) as [v' Hv'].
  { by eapply list_elem_of_lookup_2. }
  rewrite Hv'. f_equal.
  apply dict_zip_lookup_Some, list_elem_of_lookup in Hv' as [j Hj].
  apply lookup_zip_with_Some in Hj as (k' & v'' & [= <- <-] & Hk' & Hv'').
  assert (j = i) as -> by (by eapply NoDup_lookup).
  congruence.
Qed.

Lemma dict_zip_lookup_None `{Countable K} {V} (keys : list K) (values : list V) (k : K) :
  k ∉ keys → dict_zip keys values !! k = None.
Proof.
  intros Hk. destruct (dict_zip keys values !! k) as [v|] eqn:Hl; [|done].
  apply dict_zip_lookup_Some, elem_of_zip_l in Hl. done.
Qed.

Lemma dim_ids_rank (t : DimensionTable) (source : list (option string)) (id_col name_col : string)
    (i : nat) (v : string) :
  t = build_dimension source id_col name_col →
  dim_names t !! i = Some v → dim_ids t !! i = Some (Z.of_nat (S i)).
Proof.
  intros -> Hv. rewrite dim_ids_build_dimension.
  rewrite dim_names_build_dimension in Hv. apply lookup_lt_Some in Hv.
  unfold range_from_1. rewrite list_lookup_fmap, lookup_seq_lt by done. done.
Qed.

(** X2: the name-to-key dictionary the transform builds from a dimension
    (lines 52 to 54) finds exactly the values the column holds, gives each
    its 1-based rank in the sorted dimension, and gives different values
    different keys. *)
Theorem dimension_lookup_rank (source : list (option string)) (id_col name_col : string) :
  let t := build_dimension source id_col name_col in
  let lookup_table := dict_zip (dim_names t) (dim_ids t) in
  (∀ i v, dim_names t !! i = Some v → lookup_table !! v = Some (Z.of_nat (S i)))
  ∧ (∀ v, lookup_table !! v = None ↔ Some v ∉ source)
  ∧ (∀ v1 v2 k, lookup_table !! v1 = Some k → lookup_table !! v2 = Some k → v1 = v2).
Proof.
  intros t lookup_table.
  assert (Hlen : length (dim_names t) = length (dim_ids t)).
  { unfold dim_names, dim_ids. by rewrite !length_fmap. }
  assert (Hrank : ∀ i v, dim_names t !! i = Some v →
                         lookup_table !! v = Some (Z.of_nat (S i))).
  { intros i v Hv. apply (dict_zip_lookup_index _ _ i); [apply NoDup_dim_names|done..|].
    by eapply dim_ids_rank. }
  split; [exact Hrank|]. split.
  - intros v. rewrite <- elem_of_dim_names. split.
    + intros Hnone Hin. apply list_elem_of_lookup in Hin as [i Hi].
      apply Hrank in Hi. fold t in Hi. congruence.
    + apply dict_zip_lookup_None.
  - intros v1 v2 k H1 H2.
    assert (Hin : ∀ v, lookup_table !! v = Some k →
                       ∃ i, dim_names t !! i = Some v ∧ k = Z.of_nat (S i)).
    { intros v Hv. destruct (decide (v ∈ dim_names t)) as [Hin|Hout].
      - apply list_elem_of_lookup in Hin as [i Hi]. exists i. split; [done|].
        apply Hrank in Hi. congruence.
      - apply (dict_zip_lookup_None _ (dim_ids t)) in Hout.
        unfold lookup_table in Hv. congruence. }
    destruct (Hin v1 H1) as (i1 & Hi1 & ->). destruct (Hin v2 H2) as (i2 & Hi2 & Heq).
    assert (i1 = i2) as -> by lia. congruence.
Qed.

(** ** Date dimension: keys and failures *)

Lemma date_row_returns (d : Timestamp) : ∃ row, date_row d = inr row.
Proof.
  unfold date_row.
  assert (Hdigits : ∀ w n acc, ∃ v, int_of_digits acc (zero_padded w n) = Some v).
  { induction w as [|w IH]; intros n acc; [by eexists|].
    cbn [zero_padded]. rewrite int_of_digits_app.
    destruct (IH (n / 10) acc) as [v ->]. cbn. rewrite digit_value_digit_char. cbn.
    by eexists. }
  assert (Hint : ∃ id, int_of_str (strftime_Ymd d) = Some id).
  { unfold strftime_Ymd.
    rewrite int_of_str_digits by (rewrite !string_length_app, !length_zero_padded; lia).
    rewrite int_of_digits_app. destruct (Hdigits 4%nat (ts_year d) 0) as [v1 ->].
    cbn [mbind option_bind]. rewrite int_of_digits_app.
    destruct (Hdigits 2%nat (ts_month d) v1) as [v2 ->]. cbn [mbind option_bind].
    apply Hdigits. }
  destruct Hint as [id ->]. by eexists.
Qed.

Lemma to_datetime_column_inr to_datetime (col : list (option string))
    (parsed : list (option Timestamp)) :
  to_datetime_column to_datetime col = inr parsed →
  Forall2 (λ v p, match v with
                  | Some s => to_datetime s = p ∧ is_Some p
                  | None => p = None
                  end) col parsed.
Proof.
  intros H. apply mapM_result_inr_1 in H.
  eapply Forall2_impl; [exact H|]. intros [s|] p; simpl.
  - destruct (to_datetime s) as [d|]; [|done]. intros [= <-]. eauto.
  - by intros [= <-].
Qed.

Lemma to_datetime_column_inl to_datetime (col : list (option string)) (e : exn) :
  to_datetime_column to_datetime col = inl e →
  ∃ s, Some s ∈ col ∧ to_datetime s = None ∧ e = DateParseError s.
Proof.
  intros H. apply mapM_result_inl in H as ([s|] & Hin & Hs); [|done].
  exists s. destruct (to_datetime s); [done|]. by injection Hs as <-.
Qed.

Lemma sort_values_dates_elem (col : list (option Timestamp)) (v : option Timestamp) :
  v ∈ sort_values_dates col ↔ v ∈ col.
Proof.
  unfold sort_values_dates. rewrite elem_of_app, list_elem_of_fmap, list_elem_of_filter.
  split.
  - intros [(d & -> & Hd)|[_ ?]]; [|done].
    rewrite merge_sort_Permutation in Hd. by apply elem_of_dropna.
  - intros Hv. destruct v as [d|]; [left|by right].
    exists d. split; [done|]. rewrite merge_sort_Permutation. by apply elem_of_dropna.
Qed.

Lemma create_dim_date_inl (to_datetime : string → option Timestamp)
    (df : list RawTransaction) (e : exn) :
  create_dim_date to_datetime df = inl e →
  (∃ s, e = DateParseError s ∧ Some s ∈ order_date <$> df ∧ to_datetime s = None)
  ∨ (e = ValueError_NaN_to_int ∧ None ∈ order_date <$> df
     ∧ ∀ s, Some s ∈ order_date <$> df → is_Some (to_datetime s)).
Proof.
  unfold create_dim_date.
  destruct (to_datetime_column to_datetime (order_date <$> df)) as [e'|parsed] eqn:Hcol.
  { apply to_datetime_column_inl in Hcol as (s & Hin & Hnone & ->).
    cbn. intros [= <-]. left. by exists s. }
  cbn [mbind result_bind]. apply to_datetime_column_inr in Hcol. intros Hrows.
  apply mapM_result_inl in Hrows as ([d|] & Hin & He).
  { destruct (date_row_returns d) as [row Hrow]. congruence. }
  injection He as <-. right. split; [done|]. split.
  - rewrite sort_values_dates_elem, elem_of_drop_duplicates in Hin.
    apply list_elem_of_lookup in Hin as [i Hi].
    destruct (Forall2_lookup_r _ _ _ _ _ Hcol Hi) as ([s|] & Hv & Hp); simpl in Hp.
    + destruct Hp as [_ []]. done.
    + by eapply list_elem_of_lookup_2.
  - intros s Hs. apply list_elem_of_lookup in Hs as [i Hi].
    destruct (Forall2_lookup_l _ _ _ _ _ Hcol Hi) as (p & _ & Hp). simpl in Hp.
    destruct Hp as [-> ?]. done.
Qed.

(** When the date dimension is built, every record has an order date
    that parses, and the text [strftime] gives for it is a key of the
    dimension. *)
Lemma create_dim_date_inr (to_datetime : string → option Timestamp)
    (df : list RawTransaction) (rows : list DateDimensionRow) :
  create_dim_date to_datetime df = inr rows →
  ∀ r, r ∈ df → ∃ s d, order_date r = Some s ∧ to_datetime s = Some d
                       ∧ strftime_Y_m_d d ∈ dd_order_date <$> rows.
Proof.
  unfold create_dim_date.
  destruct (to_datetime_column to_datetime (order_date <$> df)) as [e'|parsed] eqn:Hcol;
    [done|].
  cbn [mbind result_bind]. apply to_datetime_column_inr in Hcol. intros Hrows.
  apply mapM_result_inr_1 in Hrows. intros r Hr.
  assert (Hnone : None ∉ parsed).
  { intros Hin. rewrite <- (elem_of_drop_duplicates parsed) in Hin.
    rewrite <- sort_values_dates_elem in Hin.
    apply list_elem_of_lookup in Hin as [i Hi].
    destruct (Forall2_lookup_l _ _ _ _ _ Hrows Hi) as (row & _ & Hrow). done. }
  apply (list_elem_of_fmap_2 order_date), list_elem_of_lookup in Hr as [i Hi].
  destruct (Forall2_lookup_l _ _ _ _ _ Hcol Hi) as (p & Hp & Hrel).
  destruct (order_date r) as [s|]; simpl in Hrel.
  - destruct Hrel as [<- [d Hd]]. exists s, d. split; [done|]. split; [done|].
    assert (Hin : Some d ∈ sort_values_dates (drop_duplicates parsed)).
    { rewrite sort_values_dates_elem, elem_of_drop_duplicates, <- Hd.
      by eapply list_elem_of_lookup_2. }
    apply list_elem_of_lookup in Hin as [j Hj].
    destruct (Forall2_lookup_l _ _ _ _ _ Hrows Hj) as (row & Hrow & Hdate).
    simpl in Hdate. unfold date_row in Hdate.
    destruct (int_of_str (strftime_Ymd d)); [|done]. injection Hdate as <-.
    apply list_elem_of_fmap. eexists. split; [|by eapply list_elem_of_lookup_2]. done.
  - subst p. exfalso. apply Hnone. by eapply list_elem_of_lookup_2.
Qed.

(** X3: on a raw set whose order dates, where present, are ISO dates
    (each is read by [to_datetime] as a date with a four-digit year and is
    the [YYYY-MM-DD] text of that date), [create_dim_date] fails in one
    way only: when some record has no order date, the missing value
    reaches [astype(int)] as NaN and that raises [ValueError]. Otherwise
    it returns, every record has an order date, and the text of each is
    the [order_date] of a row of the dimension. *)
Theorem create_dim_date_failures (to_datetime : string → option Timestamp)
    (df : list RawTransaction) :
  (∀ s, Some s ∈ order_date <$> df →
        ∃ d, to_datetime s = Some d ∧ four_digit_date d ∧ strftime_Y_m_d d = s) →
  match create_dim_date to_datetime df with
  | inl ValueError_NaN_to_int => None ∈ order_date <$> df
  | inl _ => False
  | inr rows =>
      (None ∉ order_date <$> df)
      ∧ ∀ r, r ∈ df → ∃ s, order_date r = Some s ∧ s ∈ dd_order_date <$> rows
  end.
Proof.
  intros Hiso.
  destruct (create_dim_date to_datetime df) as [e|rows] eqn:Hrun.
  - apply create_dim_date_inl in Hrun as [(s & -> & Hs & Hnone)|(-> & ? & _)]; [|done].
    destruct (Hiso s Hs) as (d & Hd & _). congruence.
  - split.
    + intros Hin. apply list_elem_of_fmap in Hin as (r & Hr & Hin).
      destruct (create_dim_date_inr _ _ _ Hrun r Hin) as (s & d & Hs & _). congruence.
    + intros r Hr.
      destruct (create_dim_date_inr _ _ _ Hrun r Hr) as (s & d & Hs & Hd & Hkey).
      exists s. split; [done|].
      destruct (Hiso s) as (d' & Hd' & _ & Hrt).
      { rewrite <- Hs. by apply list_elem_of_fmap_2. }
      assert (d' = d) as -> by congruence. by rewrite <- Hrt.
Qed.

Lemma create_dim_date_failures_witness :
  match create_dim_date parse_iso_date example_df with
  | inl ValueError_NaN_to_int => None ∈ order_date <$> example_df
  | inl _ => False
  | inr rows =>
      (None ∉ order_date <$> example_df)
      ∧ ∀ r, r ∈ example_df → ∃ s, order_date r = Some s ∧ s ∈ dd_order_date <$> rows
  end.
Proof.
  apply (create_dim_date_failures parse_iso_date example_df).
  intros s Hs. vm_compute in Hs.
  repeat (apply elem_of_cons in Hs as [Hs|Hs];
          [injection Hs as ->; eexists; split; [vm_compute; reflexivity|];
           split; [apply (bool_decide_unpack _); vm_compute; exact I
                  |vm_compute; reflexivity]|]).
  by apply elem_of_nil in Hs.
Defined.

Lemma date_id_increasing (a b : Timestamp) (ra rb : DateDimensionRow) :
  four_digit_date a → four_digit_date b → date_row_ok a ra → date_row_ok b rb →
  ts_le a b → a ≠ b → date_id ra < date_id rb.
Proof.
  intros Ha%four_digit_date_bounds Hb%four_digit_date_bounds (Hia & _) (Hib & _) Hle Hne.
  rewrite Hia, Hib. destruct a as [ya ma da], b as [yb mb db]. unfold ts_le in Hle.
  simpl in *.
  assert (¬ (ya = yb ∧ ma = mb ∧ da = db)) by (intros (-> & -> & ->); done).
  lia.
Qed.

Lemma StronglySorted_lt_NoDup (l : list Z) : StronglySorted Z.lt l → NoDup l.
Proof.
  induction 1 as [|x l _ IH Hall]; [constructor|].
  apply NoDup_cons. split; [|done]. intros Hin.
  eapply Forall_forall in Hall; [|done]. lia.
Qed.

(** The date keys follow the chronological order of the rows. *)
Lemma dim_date_ids_sorted (to_datetime : string → option Timestamp)
    (df : list RawTransaction) (dates : list Timestamp) :
  Forall2 (iso_order_date to_datetime) df dates →
  Forall four_digit_date dates →
  ∃ rows, create_dim_date to_datetime df = inr rows
          ∧ Sorted Z.lt (date_id <$> rows).
Proof.
  intros Hparse Hvalid.
  destruct (create_dim_date_rows_iso to_datetime df dates Hparse Hvalid)
    as (rows & Hrun & Hrows).
  exists rows. split; [done|].
  assert (Hsorted : Sorted ts_le (merge_sort ts_le (drop_duplicates dates)))
    by apply (Sorted_merge_sort ts_le).
  assert (Hnd : NoDup (merge_sort ts_le (drop_duplicates dates)))
    by (rewrite merge_sort_Permutation; apply NoDup_drop_duplicates).
  assert (Hv : Forall four_digit_date (merge_sort ts_le (drop_duplicates dates))).
  { apply Forall_forall. intros d Hd.
    rewrite merge_sort_Permutation, elem_of_drop_duplicates in Hd.
    by eapply Forall_forall in Hvalid. }
  clear Hrun. induction Hrows as [|d row ds rows [_ Hok] Hrest IH]; [constructor|].
  apply Sorted_inv in Hsorted as [Hs Hhd]. apply NoDup_cons in Hnd as [Hnotin Hnd].
  apply Forall_cons in Hv as [Hd Hv]. simpl. constructor; [by apply IH|].
  destruct Hrest as [|d' row' ds' rows' [_ Hok'] _]; simpl; constructor.
  apply HdRel_inv in Hhd. apply Forall_cons in Hv as [Hd' _].
  eapply (date_id_increasing d d'); eauto. intros ->. apply Hnotin. by left.
Qed.

(** X4: on a raw set of ISO dates (every record carries an order date
    that [to_datetime] reads as a calendar date with a four-digit year and
    that is the [YYYY-MM-DD] text of that date), the [date_id] column of
    the date dimension is strictly increasing: the rows come in
    chronological order and no two of them share a key. *)
Theorem dim_date_keys_increasing (to_datetime : string → option Timestamp)
    (df : list RawTransaction) (dates : list Timestamp) :
  Forall2 (λ r d, ∃ s, order_date r = Some s ∧ to_datetime s = Some d
                       ∧ strftime_Y_m_d d = s) df dates →
  Forall four_digit_date dates →
  ∃ rows, create_dim_date to_datetime df = inr rows
          ∧ StronglySorted Z.lt (date_id <$> rows)
          ∧ NoDup (date_id <$> rows).
Proof.
  intros Hparse Hvalid.
  destruct (dim_date_ids_sorted to_datetime df dates Hparse Hvalid) as (rows & Hrun & Hlt).
  exists rows. split; [done|].
  assert (Hss : StronglySorted Z.lt (date_id <$> rows)).
  { apply Sorted_StronglySorted; [|done]. intros x y z. lia. }
  split; [done|]. by apply StronglySorted_lt_NoDup.
Qed.

Lemma dim_date_keys_increasing_witness :
  ∃ rows, create_dim_date parse_iso_date example_df = inr rows
          ∧ StronglySorted Z.lt (date_id <$> rows)
          ∧ NoDup (date_id <$> rows).
Proof.
  apply (dim_date_keys_increasing parse_iso_date example_df
           [mkTimestamp 2024 3 7; mkTimestamp 2023 12 31; mkTimestamp 2024 3 7]).
  - unfold example_df.
    do 3 (constructor;
          [eexists; split; [reflexivity|split; vm_compute; reflexivity]|]).
    constructor.
  - do 3 (constructor; [apply (bool_decide_unpack _); vm_compute; exact I|]). constructor.
Defined.

(** ** Fact table: what the keys stand for *)

Lemma NoDup_fmap_eq {A B} (f : A → B) (l : list A) (x y : A) :
  NoDup (f <$> l) → x ∈ l → y ∈ l → f x = f y → x = y.
Proof.
  intros Hnd Hx Hy Hf.
  apply list_elem_of_lookup in Hx as [i Hi]. apply list_elem_of_lookup in Hy as [j Hj].
  assert (i = j) as ->; [|congruence].
  eapply (NoDup_lookup (f <$> l) i j (f x)); [done|..].
  - by rewrite list_lookup_fmap, Hi.
  - by rewrite list_lookup_fmap, Hj, Hf.
Qed.

Lemma NoDup_range_from_1 (n : nat) : NoDup (range_from_1 n).
Proof. unfold range_from_1. apply (NoDup_fmap_2 _), NoDup_seq. Qed.

Lemma NoDup_dim_ids source id_col name_col :
  NoDup (dim_ids (build_dimension source id_col name_col)).
Proof. rewrite dim_ids_build_dimension. apply NoDup_range_from_1. Qed.

(** The rows of the fact table are the row-wise resolutions of the
    records, against the lookups of the same run. *)
Lemma transform_resolves to_datetime (df : list RawTransaction) (schema : StarSchema) :
  transform_to_star_schema to_datetime df = inr schema →
  ∃ product_map,
    product_map_loop ∅ (product_key_df df (dim_product schema) (dim_category schema))
    = inr product_map
    ∧ Forall2 (λ r f,
        resolve_record
          (dict_zip (dd_order_date <$> dim_date schema) (date_id <$> dim_date schema))
          (dict_zip (dim_names (dim_region schema)) (dim_ids (dim_region schema)))
          (dict_zip (dim_names (dim_channel schema)) (dim_ids (dim_channel schema)))
          (dict_zip (dim_names (dim_segment schema)) (dim_ids (dim_segment schema)))
          product_map r = Some f) df (fact_sales schema).
Proof.
  intros Ht. apply transform_inr in Ht as (_ & _ & _ & _ & _ & _ & pm & Hpm & Ha).
  exists pm. split; [done|]. by apply assemble_fact_sales_inr.
Qed.

Lemma resolve_record_inv dm rm cm sm pm (r : RawTransaction) (f : FactSalesRow) :
  resolve_record dm rm cm sm pm r = Some f →
  order_date r ≫= (dm !!.) = Some (fs_date_id f)
  ∧ region r ≫= (rm !!.) = Some (fs_region_id f)
  ∧ channel r ≫= (cm !!.) = Some (fs_channel_id f)
  ∧ customer_segment r ≫= (sm !!.) = Some (fs_segment_id f)
  ∧ pm !! (product_name r, category r) = Some (fs_product_id f)
  ∧ f = mkFactSalesRow (order_id r) (fs_date_id f) (fs_region_id f) (fs_channel_id f)
          (fs_segment_id f) (fs_product_id f) (units_sold r) (unit_price r)
          (discount_pct r) (gross_revenue r) (net_revenue r) (cost r) (profit r).
Proof.
  unfold resolve_record.
  destruct (order_date r ≫= _) as [d|]; simpl; [|done].
  destruct (region r ≫= _) as [g|]; simpl; [|done].
  destruct (channel r ≫= _) as [c|]; simpl; [|done].
  destruct (customer_segment r ≫= _) as [s|]; simpl; [|done].
  destruct (pm !! _) as [p|]; simpl; [|done].
  by intros [= <-].
Qed.

(** X5: when the transform succeeds, the fact table has one row per raw
    record, in the order of the raw set, and each row carries the order id
    and the seven measures of its record unchanged: the assembler computes
    nothing. *)
Theorem fact_sales_pass_through (to_datetime : string → option Timestamp)
    (df : list RawTransaction) (schema : StarSchema) :
  transform_to_star_schema to_datetime df = inr schema →
  Forall2 (λ r f,
      fs_order_id f = order_id r
      ∧ fs_units_sold f = units_sold r
      ∧ fs_unit_price f = unit_price r
      ∧ fs_discount_pct f = discount_pct r
      ∧ fs_gross_revenue f = gross_revenue r
      ∧ fs_net_revenue f = net_revenue r
      ∧ fs_cost f = cost r
      ∧ fs_profit f = profit r) df (fact_sales schema).
Proof.
  intros Ht. destruct (transform_resolves _ _ _ Ht) as (pm & _ & Hres).
  eapply Forall2_impl; [exact Hres|]. intros r f Hf.
  apply resolve_record_inv in Hf as (_ & _ & _ & _ & _ & ->). by simpl.
Qed.

Lemma fact_sales_pass_through_witness :
  ∃ schema,
    transform_to_star_schema parse_iso_date example_df = inr schema
    ∧ Forall2 (λ r f,
          fs_order_id f = order_id r
          ∧ fs_units_sold f = units_sold r
          ∧ fs_unit_price f = unit_price r
          ∧ fs_discount_pct f = discount_pct r
          ∧ fs_gross_revenue f = gross_revenue r
          ∧ fs_net_revenue f = net_revenue r
          ∧ fs_cost f = cost r
          ∧ fs_profit f = profit r) example_df (fact_sales schema).
Proof.
  eexists. split; [vm_compute; reflexivity|].
  apply (fact_sales_pass_through parse_iso_date example_df). vm_compute. reflexivity.
Defined.

Lemma product_map_names (df : list RawTransaction)
    (dim_product : list ProductDimensionRow) (dim_category : DimensionTable)
    (product_map : gmap (string * option string) Z) (name : string)
    (cat : option string) (pid : Z) :
  product_map_loop ∅ (product_key_df df dim_product dim_category) = inr product_map →
  product_map !! (name, cat) = Some pid →
  ∃ p, p ∈ dim_product ∧ product_id p = pid ∧ pd_product_name p = name
       ∧ ((∃ c, cat = Some c
                ∧ mkDimensionRow (pd_category_id p) c ∈ dim_rows dim_category)
          ∨ cat = None).
Proof.
  intros Hloop Hk.
  destruct (product_map_loop_lookup _ _ _ _ _ Hloop Hk) as [Hm|Hin];
    [by rewrite lookup_empty in Hm|].
  unfold product_key_df in Hin. simpl in Hin.
  apply list_elem_of_fmap in Hin as ([l [[p o]|]] & Heq & Hin); simplify_eq/=.
  apply elem_of_merge_left in Hin as [_ [Hr Hmatch]].
  apply bool_decide_eq_true in Hmatch as [Hname Hcat]. simpl in *.
  apply elem_of_merge_left in Hr as [Hp Ho].
  exists p. split; [done|]. split; [done|]. split; [done|].
  destruct o as [[cid c]|]; simpl in *; [left|by right].
  destruct Ho as [Hc Hid]. apply bool_decide_eq_true in Hid. simpl in Hid. subst cid.
  eauto.
Qed.

(** X6: when the transform succeeds, every key of every fact row stands
    for the natural value of its record: the date row of its [date_id]
    carries the record's order date as written, the rows of its region,
    channel and segment keys carry the record's names, and the product row
    of its [product_id] carries the record's product name and a category
    key whose row carries the record's category. Joining the fact table
    back to the dimensions therefore returns the raw natural keys; in
    particular no record that reaches the fact table has a missing key. *)
Theorem fact_keys_resolve_back (to_datetime : string → option Timestamp)
    (df : list RawTransaction) (schema : StarSchema) :
  transform_to_star_schema to_datetime df = inr schema →
  Forall2 (λ r f,
      (∃ row, row ∈ dim_date schema ∧ date_id row = fs_date_id f
              ∧ order_date r = Some (dd_order_date row))
      ∧ (∃ name, region r = Some name
                 ∧ mkDimensionRow (fs_region_id f) name ∈ dim_rows (dim_region schema))
      ∧ (∃ name, channel r = Some name
                 ∧ mkDimensionRow (fs_channel_id f) name ∈ dim_rows (dim_channel schema))
      ∧ (∃ name, customer_segment r = Some name
                 ∧ mkDimensionRow (fs_segment_id f) name ∈ dim_rows (dim_segment schema))
      ∧ (∃ p c, p ∈ dim_product schema ∧ product_id p = fs_product_id f
                ∧ pd_product_name p = product_name r ∧ category r = Some c
                ∧ mkDimensionRow (pd_category_id p) c ∈ dim_rows (dim_category schema)))
    df (fact_sales schema).
Proof.
  intros Ht. destruct (transform_resolves _ _ _ Ht) as (pm & Hpm & Hres).
  assert (Hcat : Forall (λ p, ∃ c, p.2 = Some c) (dim_product_pairs df)).
  { apply (dim_product_of_transform to_datetime) in Ht as (_ & _ & _ & _ & _ & _ & Hc).
    apply Forall_forall. intros p Hp. apply list_elem_of_lookup in Hp as [i Hi].
    destruct (Forall2_lookup_l _ _ _ _ _ Hc Hi) as (row & _ & c & Hpc & _). eauto. }
  apply Forall2_same_length_lookup. split; [by eapply Forall2_length|].
  intros i r f Hr Hf. destruct (Forall2_lookup_l _ _ _ _ _ Hres Hr) as (f' & Hf' & Hrf).
  assert (f' = f) as -> by congruence.
  apply resolve_record_inv in Hrf as (Hd & Hg & Hc & Hs & Hp & _).
  split; [|split; [|split; [|split]]].
  - destruct (order_date r) as [raw|]; [|done]. simpl in Hd.
    apply dict_zip_lookup_Some in Hd. rewrite zip_fmap_same in Hd.
    apply list_elem_of_fmap in Hd as (row & [= -> ->] & Hrow). by exists row.
  - destruct (region r) as [name|]; [|done]. exists name. split; [done|].
    by apply dim_map_lookup_Some.
  - destruct (channel r) as [name|]; [|done]. exists name. split; [done|].
    by apply dim_map_lookup_Some.
  - destruct (customer_segment r) as [name|]; [|done]. exists name. split; [done|].
    by apply dim_map_lookup_Some.
  - destruct (product_map_names _ _ _ _ _ _ _ Hpm Hp) as (p & Hin & Hid & Hname & Hc').
    assert (Hrc : ∃ c, category r = Some c).
    { assert (Hpair : (product_name r, category r) ∈ dim_product_pairs df).
      { apply elem_of_dim_product_pairs. apply list_elem_of_lookup_2 in Hr.
        by apply (list_elem_of_fmap_2 (λ r, (product_name r, category r))). }
      destruct (proj1 (Forall_forall _ _) Hcat _ Hpair) as [c Hc'']. by exists c. }
    destruct Hrc as [c Hrc]. rewrite Hrc in Hc'.
    destruct Hc' as [(c' & [= <-] & Hrow)|?]; [|done].
    by exists p, c.
Qed.

Lemma fact_keys_resolve_back_witness :
  ∃ schema,
    transform_to_star_schema parse_iso_date example_df = inr schema
    ∧ Forall2 (λ r f,
        (∃ row, row ∈ dim_date schema ∧ date_id row = fs_date_id f
                ∧ order_date r = Some (dd_order_date row))
        ∧ (∃ name, region r = Some name
                   ∧ mkDimensionRow (fs_region_id f) name ∈ dim_rows (dim_region schema))
        ∧ (∃ name, channel r = Some name
                   ∧ mkDimensionRow (fs_channel_id f) name ∈ dim_rows (dim_channel schema))
        ∧ (∃ name, customer_segment r = Some name
                   ∧ mkDimensionRow (fs_segment_id f) name
                     ∈ dim_rows (dim_segment schema))
        ∧ (∃ p c, p ∈ dim_product schema ∧ product_id p = fs_product_id f
                  ∧ pd_product_name p = product_name r ∧ category r = Some c
                  ∧ mkDimensionRow (pd_category_id p) c
                    ∈ dim_rows (dim_category schema)))
      example_df (fact_sales schema).
Proof.
  eexists. split; [vm_compute; reflexivity|].
  apply (fact_keys_resolve_back parse_iso_date example_df). vm_compute. reflexivity.
Defined.

(** ** Keys of the dimensions *)

Lemma dim_lookup_inj (t : DimensionTable) (v1 v2 : string) (k : Z) :
  NoDup (dim_ids t) →
  dict_zip (dim_names t) (dim_ids t) !! v1 = Some k →
  dict_zip (dim_names t) (dim_ids t) !! v2 = Some k → v1 = v2.
Proof.
  intros Hnd H1%dim_map_lookup_Some H2%dim_map_lookup_Some.
  by injection (NoDup_fmap_eq surrogate_key _ _ _ Hnd H1 H2 eq_refl).
Qed.

(** The product dimension of a transform that returned: its ids are
    without repeats, its category keys are keys of the category dimension,
    and no two rows share name and category key. *)
Lemma dim_product_keys (to_datetime : string → option Timestamp)
    (df : list RawTransaction) (schema : StarSchema) :
  transform_to_star_schema to_datetime df = inr schema →
  NoDup (product_id <$> dim_product schema)
  ∧ Forall (λ p, pd_category_id p ∈ dim_ids (dim_category schema)) (dim_product schema)
  ∧ NoDup ((λ p, (pd_product_name p, pd_category_id p)) <$> dim_product schema).
Proof.
  intros Ht. pose proof Ht as Hinv.
  apply transform_inr in Hinv as (_ & _ & _ & _ & Hcat & Hdp & _).
  apply (dim_product_of_transform to_datetime) in Ht
    as (_ & Hnd & _ & Hlen & Hids & Hnames & Hrows).
  assert (Hndc : NoDup (dim_ids (dim_category schema)))
    by (rewrite Hcat; apply NoDup_dim_ids).
  split.
  { rewrite Hids. apply (NoDup_fmap_2 _), NoDup_seq. }
  split.
  { apply Forall_forall. intros p Hp. apply list_elem_of_lookup in Hp as [i Hi].
    destruct (Forall2_lookup_r _ _ _ _ _ Hrows Hi) as (pair & _ & c & _ & Hrow).
    by apply (list_elem_of_fmap_2 surrogate_key) in Hrow. }
  apply NoDup_alt. intros i j [name cid] Hi Hj.
  rewrite list_lookup_fmap in Hi, Hj.
  destruct (dim_product schema !! i) as [pi|] eqn:Hpi; [|done].
  destruct (dim_product schema !! j) as [pj|] eqn:Hpj; [|done].
  simpl in Hi, Hj. injection Hi as Hni Hci. injection Hj as Hnj Hcj.
  destruct (Forall2_lookup_r _ _ _ _ _ Hrows Hpi) as (qi & Hqi & ci & Hqic & Hrowi).
  destruct (Forall2_lookup_r _ _ _ _ _ Hrows Hpj) as (qj & Hqj & cj & Hqjc & Hrowj).
  assert (ci = cj).
  { rewrite Hci in Hrowi. rewrite Hcj in Hrowj.
    by injection (NoDup_fmap_eq surrogate_key _ _ _ Hndc Hrowi Hrowj eq_refl). }
  subst cj.
  assert (qi = qj).
  { apply (f_equal (λ l, l !! i)) in Hnames as Hn1.
    apply (f_equal (λ l, l !! j)) in Hnames as Hn2.
    rewrite !list_lookup_fmap, Hpi, Hqi in Hn1.
    rewrite !list_lookup_fmap, Hpj, Hqj in Hn2. simpl in *.
    destruct qi as [ni oi], qj as [nj oj]. simpl in *. congruence. }
  subst qj. exact (NoDup_lookup _ i j qi Hnd Hqi Hqj).
Qed.

(** X7: when the transform succeeds, the surrogate keys of the region,
    channel, segment and category dimensions and the product ids are
    without repeats; every product row's [category_id] is a key of the
    category dimension; and no two product rows share both name and
    category key, while a name may recur under another category. *)
Theorem dimension_keys_unique (to_datetime : string → option Timestamp)
    (df : list RawTransaction) (schema : StarSchema) :
  transform_to_star_schema to_datetime df = inr schema →
  NoDup (dim_ids (dim_region schema))
  ∧ NoDup (dim_ids (dim_channel schema))
  ∧ NoDup (dim_ids (dim_segment schema))
  ∧ NoDup (dim_ids (dim_category schema))
  ∧ NoDup (product_id <$> dim_product schema)
  ∧ Forall (λ p, pd_category_id p ∈ dim_ids (dim_category schema)) (dim_product schema)
  ∧ NoDup ((λ p, (pd_product_name p, pd_category_id p)) <$> dim_product schema).
Proof.
  intros Ht. pose proof (dim_product_keys to_datetime df schema Ht) as Hproduct.
  apply transform_inr in Ht as (_ & Hr & Hc & Hs & Hcat & _).
  split; [rewrite Hr; apply NoDup_dim_ids|].
  split; [rewrite Hc; apply NoDup_dim_ids|].
  split; [rewrite Hs; apply NoDup_dim_ids|].
  split; [rewrite Hcat; apply NoDup_dim_ids|]. exact Hproduct.
Qed.

Lemma dimension_keys_unique_witness :
  ∃ schema,
    transform_to_star_schema parse_iso_date example_df = inr schema
    ∧ NoDup (dim_ids (dim_region schema))
    ∧ NoDup (dim_ids (dim_channel schema))
    ∧ NoDup (dim_ids (dim_segment schema))
    ∧ NoDup (dim_ids (dim_category schema))
    ∧ NoDup (product_id <$> dim_product schema)
    ∧ Forall (λ p, pd_category_id p ∈ dim_ids (dim_category schema)) (dim_product schema)
    ∧ NoDup ((λ p, (pd_product_name p, pd_category_id p)) <$> dim_product schema).
Proof.
  eexists. split; [vm_compute; reflexivity|].
  apply (dimension_keys_unique parse_iso_date example_df). vm_compute. reflexivity.
Defined.

(** ** The transform: how it can fail *)

Lemma series_map_None `{Countable K} {A} (d : gmap K Z) (col : A → option K) (l : list A) :
  None ∈ series_map d (col <$> l) → ∃ r, r ∈ l ∧ col r ≫= (d !!.) = None.
Proof.
  unfold series_map. rewrite <- list_fmap_compose.
  intros (r & Hr & Hin)%list_elem_of_fmap. exists r. split; [done|]. by symmetry.
Qed.

(** A value of a column is never missing from the lookup of the
    dimension built from that column. *)
Lemma dimension_lookup_None (col : RawTransaction → option string)
    (df : list RawTransaction) (id_col name_col : string) (r : RawTransaction) :
  let t := build_dimension (col <$> df) id_col name_col in
  r ∈ df → col r ≫= (dict_zip (dim_names t) (dim_ids t) !!.) = None → col r = None.
Proof.
  intros t Hr Hnone. destruct (col r) as [v|] eqn:Hv; [|done]. simpl in Hnone.
  destruct (dim_map_lookup_is_Some t v) as [k Hk]; [|congruence].
  apply elem_of_dim_names. rewrite <- Hv. by apply list_elem_of_fmap_2.
Qed.

(** Every distinct pair of the raw set finds its row in the product
    dimension, once that dimension is built. *)
Lemma product_records_resolved (df : list RawTransaction)
    (rows : list ProductDimensionRow) :
  let dim_category := build_dimension (category <$> df) "category_id" "category_name" in
  build_dim_product df (dict_zip (dim_names dim_category) (dim_ids dim_category))
  = inr rows →
  Forall (λ rec, is_Some rec.2) (product_key_df df rows dim_category).
Proof.
  intros dim_category Hrows. apply build_dim_product_inr in Hrows as (_ & Hnames & Hcats).
  apply Forall_forall. intros rec Hrec. unfold product_key_df in Hrec.
  apply list_elem_of_fmap in Hrec as ([l o] & -> & Hin). simpl.
  destruct o as [r|]; [done|]. exfalso.
  apply elem_of_merge_left in Hin as [Hl Hnone].
  rewrite elem_of_drop_duplicates in Hl.
  assert (Hl' : l ∈ dim_product_pairs df) by (by apply elem_of_dim_product_pairs).
  apply list_elem_of_lookup in Hl' as [i Hi].
  assert (Hrow : ∃ p c, rows !! i = Some p ∧ pd_product_name p = l.1 ∧ l.2 = Some c
                        ∧ dict_zip (dim_names dim_category) (dim_ids dim_category) !! c
                          = Some (pd_category_id p)).
  { apply (f_equal (λ x, x !! i)) in Hnames. apply (f_equal (λ x, x !! i)) in Hcats.
    unfold series_map in Hcats.
    rewrite !list_lookup_fmap, Hi in Hnames. rewrite !list_lookup_fmap, Hi in Hcats.
    simpl in *.
    destruct (rows !! i) as [p|]; [|done]. simpl in *.
    destruct (l.2) as [c|] eqn:Hc; [|done]. simpl in Hcats.
    exists p, c. repeat split; congruence. }
  destruct Hrow as (p & c & Hp & Hname & Hc & Hcat).
  apply dim_map_lookup_Some in Hcat.
  specialize (Hnone (p, Some (mkDimensionRow (pd_category_id p) c))).
  rewrite bool_decide_eq_false in Hnone. apply Hnone; [|simpl; by rewrite Hc].
  apply elem_of_merge_left_Some; [by eapply list_elem_of_lookup_2|done|].
  by apply bool_decide_eq_true.
Qed.

Lemma product_records_keys (df : list RawTransaction) (rows : list ProductDimensionRow)
    (dim_category : DimensionTable) (r : RawTransaction) :
  r ∈ df →
  ∃ o, (product_name r, category r, o) ∈ product_key_df df rows dim_category.
Proof.
  intros Hr. unfold product_key_df.
  edestruct (elem_of_merge_left_fst
               (λ (l : string * option string)
                  (r : ProductDimensionRow * option DimensionRow),
                  bool_decide (l.1 = pd_product_name r.1 ∧ l.2 = natural_value <$> r.2))
               (drop_duplicates (product_pairs df))) as [o Ho].
  { apply elem_of_drop_duplicates. by apply (list_elem_of_fmap_2 _ _ r). }
  eexists. apply list_elem_of_fmap. eexists. split; [|exact Ho]. reflexivity.
Qed.

(** The record at which the fact assembler raises. *)
Lemma assemble_fact_sales_inl_record df dm rm cm sm pm (e : exn) :
  assemble_fact_sales df dm rm cm sm pm = inl e →
  ∃ r, r ∈ df
       ∧ ((e = IntCastingNaNError
           ∧ (order_date r ≫= (dm !!.) = None ∨ region r ≫= (rm !!.) = None
              ∨ channel r ≫= (cm !!.) = None ∨ customer_segment r ≫= (sm !!.) = None))
          ∨ (e = KeyError (product_name r, category r)
             ∧ pm !! (product_name r, category r) = None)).
Proof.
  unfold assemble_fact_sales.
  destruct (astype_int _ (series_map dm _)) as [e1|ds] eqn:Hd.
  { cbn. intros [= <-]. apply astype_int_inl in Hd as [-> Hnone].
    apply series_map_None in Hnone as (r & Hr & Hnone). exists r. eauto 10. }
  cbn [mbind result_bind].
  destruct (astype_int _ (series_map rm _)) as [e1|gs] eqn:Hg.
  { cbn. intros [= <-]. apply astype_int_inl in Hg as [-> Hnone].
    apply series_map_None in Hnone as (r & Hr & Hnone). exists r. eauto 10. }
  cbn [mbind result_bind].
  destruct (astype_int _ (series_map cm _)) as [e1|cs] eqn:Hc.
  { cbn. intros [= <-]. apply astype_int_inl in Hc as [-> Hnone].
    apply series_map_None in Hnone as (r & Hr & Hnone). exists r. eauto 10. }
  cbn [mbind result_bind].
  destruct (astype_int _ (series_map sm _)) as [e1|ss] eqn:Hs.
  { cbn. intros [= <-]. apply astype_int_inl in Hs as [-> Hnone].
    apply series_map_None in Hnone as (r & Hr & Hnone). exists r. eauto 10. }
  cbn [mbind result_bind].
  destruct (mapM _ df) as [e1|ps] eqn:Hp; [|done].
  cbn. intros [= <-]. apply mapM_result_inl in Hp as (r & Hr & Hlook).
  exists r. split; [done|]. right. unfold lookup_product in Hlook.
  destruct (pm !! _); [done|]. by injection Hlook as <-.
Qed.

(** Every record of a raw set the transform accepts carries a category:
    the category ids of the product dimension are cast to integers. *)
Lemma build_dim_product_categories (df : list RawTransaction)
    (dp : list ProductDimensionRow) :
  let t := build_dimension (category <$> df) "category_id" "category_name" in
  build_dim_product df (dict_zip (dim_names t) (dim_ids t)) = inr dp →
  ∀ r, r ∈ df → is_Some (category r).
Proof.
  intros t Hdp r Hr. unfold build_dim_product in Hdp.
  destruct (astype_int _ _) as [e'|ids] eqn:Hids; [done|].
  destruct (category r) as [c|] eqn:Hc; [done|]. exfalso.
  assert (Hnone : astype_int IntCastingNaNError
                    (series_map (dict_zip (dim_names t) (dim_ids t))
                       (snd <$> dim_product_pairs df)) = inl IntCastingNaNError);
    [|congruence].
  apply astype_int_inl. split; [done|].
  unfold series_map. rewrite <- list_fmap_compose.
  apply list_elem_of_fmap. exists (product_name r, category r). split.
  - simpl. by rewrite Hc.
  - apply elem_of_dim_product_pairs. unfold product_pairs.
    by apply (list_elem_of_fmap_2 (λ r, (product_name r, category r))).
Qed.

(** X8: on a raw set that is not empty and whose order dates, where
    present, are ISO dates ([to_datetime] reads each as a calendar date
    with a four-digit year whose [YYYY-MM-DD] text it is), with a product
    name in every record, [transform_to_star_schema] fails in two ways
    only. It raises [ValueError] from [create_dim_date] when some record
    has no order date; and [IntCastingNaNError] when every record has one
    but some record lacks a category, region, channel or segment. When it
    returns, every record carries all five natural keys and the fact table
    has one row per record. *)
Theorem transform_failures (to_datetime : string → option Timestamp)
    (df : list RawTransaction) :
  df ≠ [] →
  (∀ s, Some s ∈ order_date <$> df →
        ∃ d, to_datetime s = Some d ∧ four_digit_date d ∧ strftime_Y_m_d d = s) →
  match transform_to_star_schema to_datetime df with
  | inl ValueError_NaN_to_int => None ∈ order_date <$> df
  | inl IntCastingNaNError =>
      (None ∉ order_date <$> df)
      ∧ ∃ r, r ∈ df
             ∧ (category r = None ∨ region r = None ∨ channel r = None
                ∨ customer_segment r = None)
  | inl _ => False
  | inr schema =>
      length (fact_sales schema) = length df
      ∧ Forall (λ r, is_Some (order_date r) ∧ is_Some (region r)
                     ∧ is_Some (channel r) ∧ is_Some (customer_segment r)
                     ∧ is_Some (category r)) df
  end.
Proof.
  intros _ Hiso. unfold transform_to_star_schema.
  destruct (create_dim_date to_datetime df) as [e|dd] eqn:Hdd.
  { apply create_dim_date_inl in Hdd as [(s & -> & Hs & Hnone)|(-> & ? & _)]; cbn; [|done].
    destruct (Hiso s Hs) as (d & Hd & _). congruence. }
  assert (Hdates : None ∉ order_date <$> df).
  { intros (r & Hnone & Hr)%list_elem_of_fmap.
    destruct (create_dim_date_inr to_datetime df dd Hdd r Hr) as (s & d & Hs & _).
    congruence. }
  cbn [mbind result_bind]. cbv zeta.
  destruct (build_dim_product df _) as [e|dp] eqn:Hdp.
  { cbn. unfold build_dim_product in Hdp.
    destruct (astype_int _ _) as [e'|ids] eqn:Hids; [|done].
    cbn in Hdp. injection Hdp as <-. apply astype_int_inl in Hids as [-> Hnone].
    split; [done|].
    apply (series_map_None _ snd) in Hnone as (p & Hp & Hnone).
    apply elem_of_dim_product_pairs, list_elem_of_fmap in Hp as (r & -> & Hr).
    exists r. split; [done|]. left.
    by apply (dimension_lookup_None category df "category_id" "category_name"). }
  cbn [mbind result_bind].
  destruct (product_map_loop_ok _ ∅ (product_records_resolved df dp Hdp))
    as (pm & -> & _ & Hkeys).
  cbn [mbind result_bind].
  destruct (assemble_fact_sales df _ _ _ _ pm) as [e|facts] eqn:Hfacts.
  - apply assemble_fact_sales_inl_record in Hfacts as (r & Hr & [[-> Hcol]|[-> Hpm]]).
    + cbn. split; [done|]. exists r. split; [done|].
      destruct Hcol as [Hd|[Hg|[Hc|Hs]]].
      * exfalso.
        destruct (create_dim_date_inr to_datetime df dd Hdd r Hr)
          as (s & d & Hs & Hparse & Hkey).
        destruct (Hiso s) as (d' & Hd' & _ & Heq).
        { rewrite <- Hs. by apply list_elem_of_fmap_2. }
        assert (d' = d) as -> by congruence.
        rewrite Hs in Hd. simpl in Hd.
        destruct (dict_zip_lookup_is_Some (dd_order_date <$> dd) (date_id <$> dd) s)
          as [k Hk]; [by rewrite !length_fmap|by rewrite <- Heq|congruence].
      * right. left.
        by apply (dimension_lookup_None region df "region_id" "region_name").
      * right. right. left.
        by apply (dimension_lookup_None channel df "channel_id" "channel_name").
      * right. right. right.
        by apply (dimension_lookup_None customer_segment df "segment_id" "segment_name").
    + exfalso.
      destruct (product_records_keys df dp
                  (build_dimension (category <$> df) "category_id" "category_name") r Hr)
        as [o Ho].
      destruct (Hkeys _ Ho) as [pid Hpid]. simpl in Hpid. congruence.
  - cbn. pose proof (assemble_fact_sales_inr _ _ _ _ _ _ _ Hfacts) as Hres. split.
    + symmetry. by eapply Forall2_length.
    + apply Forall_forall. intros r Hr.
      apply list_elem_of_lookup in Hr as [i Hi].
      destruct (Forall2_lookup_l _ _ _ _ _ Hres Hi) as (f & _ & Hf).
      pose proof (build_dim_product_categories df dp Hdp r
                    (list_elem_of_lookup_2 _ _ _ Hi)) as Hcat.
      unfold resolve_record in Hf.
      destruct (order_date r) as [d|]; [|done].
      cbn [mbind option_bind] in Hf. destruct (_ !! d); [|done].
      destruct (region r) as [g|]; [|done].
      cbn [mbind option_bind] in Hf. destruct (_ !! g); [|done].
      destruct (channel r) as [c|]; [|done].
      cbn [mbind option_bind] in Hf. destruct (_ !! c); [|done].
      destruct (customer_segment r) as [sg|]; [|done].
      split_and!; eauto.
Qed.

Lemma transform_failures_witness :
  match transform_to_star_schema parse_iso_date (missing_region_record :: example_df) with
  | inl ValueError_NaN_to_int =>
      None ∈ order_date <$> (missing_region_record :: example_df)
  | inl IntCastingNaNError =>
      (None ∉ order_date <$> (missing_region_record :: example_df))
      ∧ ∃ r, r ∈ (missing_region_record :: example_df)
             ∧ (category r = None ∨ region r = None ∨ channel r = None
                ∨ customer_segment r = None)
  | inl _ => False
  | inr schema =>
      length (fact_sales schema) = length (missing_region_record :: example_df)
      ∧ Forall (λ r, is_Some (order_date r) ∧ is_Some (region r)
                     ∧ is_Some (channel r) ∧ is_Some (customer_segment r)
                     ∧ is_Some (category r)) (missing_region_record :: example_df)
  end.
Proof.
  apply (transform_failures parse_iso_date (missing_region_record :: example_df)); [done|].
  intros s Hs. vm_compute in Hs.
  repeat (apply elem_of_cons in Hs as [Hs|Hs];
          [injection Hs as ->; eexists; split; [vm_compute; reflexivity|];
           split; [apply (bool_decide_unpack _); vm_compute; exact I
                  |vm_compute; reflexivity]|]).
  by apply elem_of_nil in Hs.
Defined.

(** ** Loader: what a load leaves in the file *)

Section LoaderSteps.

Variable row_ok : string → gmap string table → sql_row → bool.

(** The rows of one [executemany] are accepted one after the other, each
    against the table as the rows before it left it. *)
Lemma executemany_insert_accepts (name : string) (rows old : list sql_row) (c : connection) :
  view c !! name = Some old →
  (executemany_insert row_ok name rows c).1 = inr ()
  ↔ ∀ i row, rows !! i = Some row →
             row_ok name (<[name := old ++ take i rows]> (view c)) row = true.
Proof.
  revert old c. induction rows as [|row rows IH]; intros old c Hold.
  - simpl. split; [|done]. by intros _ i row' ?.
  - simpl. destruct (row_ok name (view c) row) eqn:Hrow.
    + rewrite (IH (old ++ [row])); [|by rewrite view_pending, lookup_insert_eq, Hold].
      rewrite view_pending, Hold. simpl. split.
      * intros Hall [|i] row' Hi; simpl in *.
        { injection Hi as <-. by rewrite app_nil_r, insert_id. }
        specialize (Hall i row' Hi).
        by rewrite insert_insert_eq, <- app_assoc in Hall.
      * intros Hall i row' Hi. specialize (Hall (S i) row' Hi). simpl in Hall.
        by rewrite insert_insert_eq, <- app_assoc.
    + simpl. split; [done|]. intros Hall. specialize (Hall 0%nat row eq_refl).
      simpl in Hall. rewrite app_nil_r, insert_id in Hall by done. congruence.
Qed.

(** X9: [to_sql] with [if_exists="append"] on an existing table, with no
    transaction open, is all or nothing: either every row is accepted, each
    one checked against the table as extended by the rows before it, and
    the file then holds the old rows followed by the new ones; or some row
    is refused, the call raises [IntegrityError] and the file is exactly as
    before, without the rows that had been accepted. No transaction is left
    open in either case. *)
Theorem to_sql_all_or_nothing (name : string) (rows old : list sql_row)
    (db : gmap string table) :
  db !! name = Some old →
  let accepted := ∀ i row, rows !! i = Some row →
                           row_ok name (<[name := old ++ take i rows]> db) row = true in
  (accepted
   ∧ to_sql row_ok name rows (mkConnection db None)
     = (inr (), mkConnection (<[name := old ++ rows]> db) None))
  ∨ (¬ accepted
     ∧ to_sql row_ok name rows (mkConnection db None)
       = (inl (IntegrityError name), mkConnection db None)).
Proof.
  intros Hold accepted.
  pose proof (executemany_insert_accepts name rows old (mkConnection db None) Hold) as Hacc.
  pose proof (executemany_insert_spec row_ok name rows (mkConnection db None)) as Hspec.
  unfold to_sql. rewrite view_idle, Hold. rewrite view_idle in Hacc.
  destruct (executemany_insert row_ok name rows _) as [[e|[]] c']; simpl in Hacc.
  - right. destruct Hspec as [-> Hp]. split.
    + intros Ha. by pose proof (proj2 Hacc Ha).
    + unfold rollback. by rewrite Hp.
  - left. destruct Hspec as [Hp Hv]. split; [exact (proj1 Hacc eq_refl)|].
    unfold commit. rewrite Hv, view_idle, Hold. simpl.
    destruct rows; [|done]. by rewrite app_nil_r, insert_id.
Qed.

End LoaderSteps.

Lemma to_sql_all_or_nothing_witness :
  let name := "dim_region" in
  let rows := [[SqlInt 3; SqlText "North"]] in
  let old := [[SqlInt 1; SqlText "South"]; [SqlInt 2; SqlText "West"]] in
  let accepted :=
    ∀ i row, rows !! i = Some row →
             schema_row_ok name (<[name := old ++ take i rows]> example_warehouse) row
             = true in
  (accepted
   ∧ to_sql schema_row_ok name rows (mkConnection example_warehouse None)
     = (inr (), mkConnection (<[name := old ++ rows]> example_warehouse) None))
  ∨ (¬ accepted
     ∧ to_sql schema_row_ok name rows (mkConnection example_warehouse None)
       = (inl (IntegrityError name), mkConnection example_warehouse None)).
Proof.
  apply (to_sql_all_or_nothing schema_row_ok "dim_region" [[SqlInt 3; SqlText "North"]]
           [[SqlInt 1; SqlText "South"]; [SqlInt 2; SqlText "West"]] example_warehouse).
  vm_compute. reflexivity.
Defined.

Section LoadSucceeds.

Variable row_ok : string → gmap string table → sql_row → bool.



(** X10: a load that returns has replaced the warehouse: each of the seven
    tables holds exactly the rows of its frame, in the frame's order, with
    nothing left of the rows it held before, and every other table of the
    file is as it was. *)
Theorem load_to_sqlite_replaces (w : StarSchema) (db db' : gmap string table) :
  load_to_sqlite row_ok w db = (inr (), db') →
  (∀ name rows, (name, rows) ∈ load_plan w → db' !! name = Some rows)
  ∧ (∀ name, name ∉ warehouse_tables → db' !! name = db !! name).
Proof.
  intros Hload. destruct (load_to_sqlite_outcome row_ok w db) as (k & r & Hrun & Hk).
  rewrite Hload in Hrun. injection Hrun as <- ->.
  destruct Hk as [[_ ->]|(name & rows & _ & ?)]; [|done]. split.
  - intros name rows Hin. apply list_elem_of_lookup in Hin as [i Hi].
    rewrite (loaded_prefix_lookup _ 7 i _ name rows (NoDup_load_plan w) Hi).
    apply lookup_lt_Some in Hi. simpl in Hi. by rewrite decide_True by lia.
  - intros name Hout.
    rewrite loaded_prefix_lookup_notin by (by rewrite load_plan_names).
    by apply fresh_schema_lookup_out.
Qed.

End LoadSucceeds.

Lemma load_to_sqlite_replaces_witness :
  (∀ name rows, (name, rows) ∈ load_plan (transformed example_df) →
                example_warehouse !! name = Some rows)
  ∧ (∀ name, name ∉ warehouse_tables →
             example_warehouse !! name = (∅ : gmap string table) !! name).
Proof.
  apply (load_to_sqlite_replaces schema_row_ok (transformed example_df) ∅ example_warehouse).
  vm_compute. reflexivity.
Defined.

(** ** The whole build on a well-formed raw set *)














(** ** Outlier detector: thresholds and undefined scores *)

(** The order of two finite binary64 numbers of the same sign: by
    exponent, then by mantissa. *)
Lemma lex_cmp_spec e1 m1 e2 m2 :
  match lex_cmp e1 m1 e2 m2 with
  | Lt => e1 < e2 ∨ (e1 = e2 ∧ (m1 < m2)%positive)
  | Eq => e1 = e2 ∧ m1 = m2
  | Gt => e2 < e1 ∨ (e1 = e2 ∧ (m2 < m1)%positive)
  end.
Proof.
  unfold lex_cmp. destruct (Z.compare_spec e1 e2); [|left; done|left; done].
  destruct (Pos.compare_spec m1 m2); auto.
Qed.

Lemma SFcompare_finite s1 m1 e1 s2 m2 e2 :
  SFcompare (S754_finite s1 m1 e1) (S754_finite s2 m2 e2)
  = Some match s1, s2 with
         | true, false => Lt
         | false, true => Gt
         | false, false => lex_cmp e1 m1 e2 m2
         | true, true => CompOpp (lex_cmp e1 m1 e2 m2)
         end.
Proof.
  unfold lex_cmp. simpl. destruct s1, s2; try reflexivity;
    by destruct (e1 ?= e2)%Z.
Qed.

Lemma SFleb_trans (x y z : spec_float) :
  SFleb x y = true → SFleb y z = true → SFleb x z = true.
Proof.
  unfold SFleb.
  destruct x as [sx|sx| |sx mx ex], y as [sy|sy| |sy my ey], z as [sz|sz| |sz mz ez];
    rewrite ?SFcompare_finite;
    try (simpl; try done; try (by destruct sx); try (by destruct sy); try (by destruct sz);
         try (by destruct sx, sy); try (by destruct sy, sz); try (by destruct sx, sz);
         by destruct sx, sy, sz).
  pose proof (lex_cmp_spec ex mx ey my) as H1.
  pose proof (lex_cmp_spec ey my ez mz) as H2.
  pose proof (lex_cmp_spec ex mx ez mz) as H3.
  destruct sx, sy, sz; try done;
    destruct (lex_cmp ex mx ey my), (lex_cmp ey my ez mz), (lex_cmp ex mx ez mz);
    simpl; try done; exfalso; lia.
Qed.

(** [<=] on binary64 is transitive, NaN included. *)
Lemma float_leb_trans (x y z : float) :
  PrimFloat.leb x y = true → PrimFloat.leb y z = true → PrimFloat.leb x z = true.
Proof. rewrite !FloatAxioms.leb_spec. apply SFleb_trans. Qed.

Lemma SFleb_zero_abs (x : spec_float) :
  x ≠ S754_nan → SFleb (S754_zero false) (SFabs x) = true.
Proof. by destruct x as [s|s| |s m e]. Qed.

(** |z| is at least 0 for every z that is not NaN. *)
Lemma float_abs_nonneg (z : float) :
  PrimFloat.is_nan z = false → PrimFloat.leb 0 (PrimFloat.abs z) = true.
Proof.
  intros Hz%is_nan_false. rewrite FloatAxioms.leb_spec, abs_spec.
  by apply SFleb_zero_abs.
Qed.




Lemma flagged_monotone {P} (t1 t2 : float) (r : OutlierRow P) :
  PrimFloat.leb t1 t2 = true → flagged t2 r → flagged t1 r.
Proof. unfold flagged. apply float_leb_trans. Qed.

Lemma flagged_nonpositive {P} (threshold : float) (r : OutlierRow P) :
  PrimFloat.leb threshold 0 = true →
  flagged threshold r ↔ PrimFloat.is_nan (z_score r) = false.
Proof.
  intros Ht. split; [apply flagged_not_nan|].
  intros Hz. unfold flagged. eapply float_leb_trans; [exact Ht|].
  by apply float_abs_nonneg.
Qed.

Section OutlierThresholds.

Context {P : Type}.
Variable Series_mean : list float → float.
Variable Series_std_ddof0 : list float → float.

Lemma detect_monthly_outliers_Permutation (monthly_df : list (MonthlyRow P))
    (threshold : float) :
  detect_monthly_outliers Series_mean Series_std_ddof0 monthly_df threshold
  ≡ₚ filter (flagged threshold) (monthly_z_scores Series_mean Series_std_ddof0 monthly_df).1.
Proof. apply merge_sort_Permutation. Qed.

(** X12: raising the threshold only removes months: the months flagged
    at [t2] are those flagged at a lower threshold [t1] whose |z| also
    reaches [t2], so they are among them and no more numerous. *)
Theorem detect_monthly_outliers_threshold_monotone (monthly_df : list (MonthlyRow P))
    (t1 t2 : float) :
  PrimFloat.leb t1 t2 = true →
  detect_monthly_outliers Series_mean Series_std_ddof0 monthly_df t2
  ≡ₚ filter (flagged t2)
       (detect_monthly_outliers Series_mean Series_std_ddof0 monthly_df t1)
  ∧ detect_monthly_outliers Series_mean Series_std_ddof0 monthly_df t2
    ⊆+ detect_monthly_outliers Series_mean Series_std_ddof0 monthly_df t1
  ∧ (length (detect_monthly_outliers Series_mean Series_std_ddof0 monthly_df t2)
     ≤ length (detect_monthly_outliers Series_mean Series_std_ddof0 monthly_df t1))%nat.
Proof.
  intros Hle.
  assert (Hperm : detect_monthly_outliers Series_mean Series_std_ddof0 monthly_df t2
    ≡ₚ filter (flagged t2)
         (detect_monthly_outliers Series_mean Series_std_ddof0 monthly_df t1)).
  { rewrite (detect_monthly_outliers_Permutation monthly_df t1).
    rewrite list_filter_filter_l by (intros r; by apply flagged_monotone).
    apply detect_monthly_outliers_Permutation. }
  assert (Hsub : detect_monthly_outliers Series_mean Series_std_ddof0 monthly_df t2
    ⊆+ detect_monthly_outliers Series_mean Series_std_ddof0 monthly_df t1).
  { rewrite Hperm. apply sublist_submseteq, sublist_filter. }
  split; [exact Hperm|]. split; [exact Hsub|]. by apply submseteq_length.
Qed.

(** X13: with a threshold that is zero or negative the comparison
    [|z| >= threshold] holds for every z-score that is not NaN: the
    detector returns every month whose z-score is defined, and when the
    standard deviation compares equal to zero it returns all months. *)
Theorem detect_monthly_outliers_nonpositive_threshold (monthly_df : list (MonthlyRow P))
    (threshold : float) :
  PrimFloat.leb threshold 0 = true →
  detect_monthly_outliers Series_mean Series_std_ddof0 monthly_df threshold
  ≡ₚ filter (λ r, PrimFloat.is_nan (z_score r) = false)
       (monthly_z_scores Series_mean Series_std_ddof0 monthly_df).1
  ∧ (PrimFloat.eqb (Series_std_ddof0 (mr_net_revenue <$> monthly_df)) 0 = true →
     or_period <$> detect_monthly_outliers Series_mean Series_std_ddof0 monthly_df threshold
     ≡ₚ period <$> monthly_df).
Proof.
  intros Ht.
  assert (Hperm : detect_monthly_outliers Series_mean Series_std_ddof0 monthly_df threshold
    ≡ₚ filter (λ r, PrimFloat.is_nan (z_score r) = false)
         (monthly_z_scores Series_mean Series_std_ddof0 monthly_df).1).
  { rewrite detect_monthly_outliers_Permutation.
    erewrite list_filter_iff; [done|]. intros r. by apply flagged_nonpositive. }
  split; [exact Hperm|].
  intros Hstd. rewrite Hperm. unfold monthly_z_scores. rewrite Hstd. simpl.
  clear. induction monthly_df as [|r df IH]; [done|].
  rewrite fmap_cons, filter_cons_True by done. simpl. by rewrite IH.
Qed.


End OutlierThresholds.

Lemma detect_monthly_outliers_threshold_monotone_witness :
  detect_monthly_outliers nanmean nanstd_ddof0 spiky_series 2
  ⊆+ detect_monthly_outliers nanmean nanstd_ddof0 spiky_series 0.5.
Proof.
  refine (proj1 (proj2
    (detect_monthly_outliers_threshold_monotone nanmean nanstd_ddof0 spiky_series 0.5 2 _))).
  vm_compute. reflexivity.
Defined.

Lemma detect_monthly_outliers_nonpositive_threshold_witness :
  detect_monthly_outliers nanmean nanstd_ddof0 spiky_series 0
  ≡ₚ filter (λ r, PrimFloat.is_nan (z_score r) = false)
       (monthly_z_scores nanmean nanstd_ddof0 spiky_series).1.
Proof.
  refine (proj1
    (detect_monthly_outliers_nonpositive_threshold nanmean nanstd_ddof0 spiky_series 0 _)).
  vm_compute. reflexivity.
Defined.


(** ** Data generator *)

(** *** Dict subscripts and clamps *)

Lemma subscript_is_Some `{EqDecision K} {V} (d : list (K * V)) (k : K) :
  k ∈ d.*1 → is_Some (subscript d k).
Proof.
  induction d as [|[k' v] d IH]; simpl; [by intros ?%elem_of_nil|].
  intros [->|Hk]%elem_of_cons.
  - rewrite decide_True by done. by eexists.
  - destruct (decide (k' = k)); [by eexists|by apply IH].
Qed.

Lemma subscript_Some_elem `{EqDecision K} {V} (d : list (K * V)) (k : K) (v : V) :
  subscript d k = Some v → (k, v) ∈ d.
Proof.
  induction d as [|[k' v'] d IH]; simpl; [done|].
  destruct (decide (k' = k)) as [->|].
  - intros [= ->]. apply elem_of_cons. by left.
  - intros Hk. apply elem_of_cons. right. by apply IH.
Qed.

Lemma SEASONALITY_months (m : Z) : 1 ≤ m ≤ 12 → is_Some (subscript SEASONALITY m).
Proof.
  intros Hm. apply subscript_is_Some.
  assert (Hcases : m = 1 ∨ m = 2 ∨ m = 3 ∨ m = 4 ∨ m = 5 ∨ m = 6 ∨ m = 7 ∨ m = 8
                   ∨ m = 9 ∨ m = 10 ∨ m = 11 ∨ m = 12) by lia.
  simpl. rewrite !elem_of_cons. tauto.
Qed.

Lemma CATEGORY_CONFIG_products (category : string) (config : CategoryConfig) :
  subscript CATEGORY_CONFIG category = Some config → products config ≠ [].
Proof.
  intros Hc%subscript_Some_elem. unfold CATEGORY_CONFIG in Hc.
  repeat (apply elem_of_cons in Hc as [[= _ ->]|Hc]; [done|]).
  by apply elem_of_nil in Hc.
Qed.

Lemma CHANNEL_DISCOUNT_BOUNDS_channels (channel : string) :
  channel ∈ CHANNELS → is_Some (subscript CHANNEL_DISCOUNT_BOUNDS channel).
Proof. intros Hc. by apply subscript_is_Some. Qed.

Lemma float_ltb_leb (x y : float) : PrimFloat.ltb x y = true → PrimFloat.leb x y = true.
Proof.
  rewrite FloatAxioms.ltb_spec, FloatAxioms.leb_spec. unfold SFltb, SFleb.
  by destruct (SFcompare _ _) as [[]|].
Qed.

(** [max(a, b)] is at least [a], whatever [b] is, NaN included. *)
Lemma py_max_lower_bound (a b : float) :
  PrimFloat.is_nan a = false → PrimFloat.leb a (py_max a b) = true.
Proof.
  intros Ha. unfold py_max. destruct (PrimFloat.ltb a b) eqn:Hlt.
  - by apply float_ltb_leb.
  - by destruct (float_leb_total a a Ha Ha).
Qed.

(** *** [to_datetime] reads back what [strftime("%Y-%m-%d")] writes *)

Lemma parse_iso_date_fields (y m d : string) :
  String.length y = 4%nat → String.length m = 2%nat → String.length d = 2%nat →
  parse_iso_date (y +:+ "-" +:+ m +:+ "-" +:+ d)
  = (yv ← int_of_str y; mv ← int_of_str m; dv ← int_of_str d;
     let ts := mkTimestamp yv mv dv in
     if valid_dateb ts then Some ts else None).
Proof.
  destruct y as [|y1 [|y2 [|y3 [|y4 [|]]]]]; try done.
  destruct m as [|m1 [|m2 [|]]]; try done.
  destruct d as [|d1 [|d2 [|]]]; try done.
Qed.

Lemma parse_iso_date_strftime (d : Timestamp) :
  valid_date d → parse_iso_date (strftime_Y_m_d d) = Some d.
Proof.
  intros Hv. pose proof (valid_date_bounds d Hv) as (Hy & Hm & Hd).
  unfold strftime_Y_m_d.
  rewrite parse_iso_date_fields by apply length_zero_padded.
  rewrite !int_of_str_digits by (rewrite length_zero_padded; lia).
  rewrite (int_of_digits_zero_padded 4), !(int_of_digits_zero_padded 2) by (simpl; lia).
  cbn [mbind option_bind]. rewrite !Z.mul_0_l, !Z.add_0_l.
  unfold valid_dateb. destruct d as [y m dd]. simpl in *.
  by rewrite bool_decide_eq_true_2.
Qed.

(** *** Steps of the [draw] monad *)

Lemma bind_call {G A B} (method : G → A * G) (k : A → draw G B) (g : G) :
  (call method ≫= k) g = k (method g).1 (method g).2.
Proof. unfold mbind, draw_bind, call. by destruct (method g). Qed.

Lemma bind_getitem {G A B} (e : generator_exn) (v : option A) (a : A)
    (k : A → draw G B) (g : G) :
  v = Some a → (getitem e v ≫= k) g = k a g.
Proof. by intros ->. Qed.

Lemma bind_assoc {G A B C} (m : draw G A) (k1 : A → draw G B) (k2 : B → draw G C) (g : G) :
  ((m ≫= k1) ≫= k2) g = (m ≫= (λ a, k1 a ≫= k2)) g.
Proof. unfold mbind, draw_bind. by destruct (m g) as [|[]]. Qed.

Section GenerateDataProperties.

Context {G : Type}.
Variable rng : Generator G.
Variable default_rng : Z → G.
Variable date_range : string → string → option (list Timestamp).
Variable round : float → Z → float.
Variable float_of_int : Z → float.

Hypothesis rng_contract : GeneratorContract rng.

(** One order: under numpy's contract no subscript fails, and the row
    carries the running order id, the date as text, and values of the
    configured vocabularies. *)
Lemma generate_order_spec (current_date : Timestamp) (oid : Z) (g : G) :
  ∃ row g',
    generate_order rng round float_of_int current_date oid g = inr (row, g')
    ∧ order_id row = oid
    ∧ order_of_date current_date row.
Proof.
  destruct rng_contract as [Hchoice Hintegers].
  unfold generate_order.
  rewrite bind_call.
  pose proof (Hchoice REGIONS (Some [0.24; 0.22; 0.31; 0.23]%float) g ltac:(done)) as Hregion.
  destruct (rng_choice rng REGIONS _ g) as [region0 g1]. simpl in Hregion. simpl fst. simpl snd.
  rewrite bind_call.
  pose proof (Hchoice CHANNELS (Some [0.56; 0.30; 0.14]%float) g1 ltac:(done)) as Hchannel.
  destruct (rng_choice rng CHANNELS _ g1) as [channel0 g2]. simpl in Hchannel.
  simpl fst. simpl snd.
  rewrite bind_call.
  pose proof (Hchoice SEGMENTS (Some [0.52; 0.21; 0.14; 0.13]%float) g2 ltac:(done))
    as Hsegment.
  destruct (rng_choice rng SEGMENTS _ g2) as [segment0 g3]. simpl in Hsegment.
  simpl fst. simpl snd.
  cbv zeta. rewrite bind_call.
  assert (Hkeys : CATEGORY_CONFIG.*1 ≠ []) by done.
  pose proof (Hchoice (CATEGORY_CONFIG.*1) (Some [0.31; 0.20; 0.24; 0.17; 0.08]%float) g3
                Hkeys) as Hcategory.
  destruct (rng_choice rng (CATEGORY_CONFIG.*1) _ g3) as [category0 g4].
  simpl in Hcategory. simpl fst. simpl snd.
  destruct (subscript_is_Some CATEGORY_CONFIG category0 Hcategory) as [config Hconfig].
  rewrite (bind_getitem _ _ config) by done.
  rewrite bind_call.
  pose proof (Hchoice (products config) None g4
                (CATEGORY_CONFIG_products category0 config Hconfig)) as Hproduct.
  destruct (rng_choice rng (products config) None g4) as [product0 g5].
  simpl in Hproduct. simpl fst. simpl snd.
  rewrite bind_call.
  pose proof (Hintegers 1 11 g5 ltac:(lia)) as Hunits.
  destruct (rng_integers rng 1 11 g5) as [units0 g6]. simpl in Hunits.
  simpl fst. simpl snd.
  rewrite bind_call.
  destruct (rng_random rng g6) as [bulk g7]. simpl fst. simpl snd.
  assert (Hbulk : ∃ units g8,
    (∀ B (k : Z → draw G B),
       ((if PrimFloat.ltb bulk 0.008
         then factor ← call (rng_integers rng 6 15); mret (units0 * factor)
         else mret units0) ≫= k) g7 = k units g8)
    ∧ 1 ≤ units ≤ 140).
  { destruct (PrimFloat.ltb bulk 0.008).
    - pose proof (Hintegers 6 15 g7 ltac:(lia)) as Hfactor.
      destruct (rng_integers rng 6 15 g7) as [factor g8] eqn:Hdraw. simpl in Hfactor.
      exists (units0 * factor), g8. split; [|nia].
      intros B k. rewrite bind_assoc, bind_call, Hdraw. done.
    - exists units0, g7. split; [done|lia]. }
  destruct Hbulk as (units & g8 & -> & Hrange).
  rewrite bind_call.
  destruct (rng_normal rng (base_price config) _ g8) as [price g9]. simpl fst. simpl snd.
  cbv zeta.
  destruct (CHANNEL_DISCOUNT_BOUNDS_channels channel0 Hchannel) as [bounds Hbounds].
  rewrite (bind_getitem _ _ bounds) by done.
  rewrite bind_call.
  destruct (rng_uniform rng bounds.1 bounds.2 g9) as [discount g10]. simpl fst. simpl snd.
  assert (Hpromo : ∃ pct g11,
    ∀ B (k : float → draw G B),
      ((if bool_decide (ts_month current_date ∈ [11; 12])
        then promo ← call (rng_random rng);
             if PrimFloat.ltb promo 0.18
             then extra ← call (rng_uniform rng 0.02 0.08);
                  mret (py_min 0.40 (round (round discount 4 + extra) 4))
             else mret (round discount 4)
        else mret (round discount 4)) ≫= k) g10 = k pct g11).
  { destruct (bool_decide _).
    - destruct (rng_random rng g10) as [promo g11] eqn:Hdraw1.
      destruct (PrimFloat.ltb promo 0.18) eqn:Hlt.
      + destruct (rng_uniform rng 0.02 0.08 g11) as [extra g12] eqn:Hdraw2.
        eexists _, g12. intros B k.
        rewrite bind_assoc, bind_call, Hdraw1. simpl fst. simpl snd. rewrite Hlt.
        rewrite bind_assoc, bind_call, Hdraw2. done.
      + eexists _, g11. intros B k.
        rewrite bind_assoc, bind_call, Hdraw1. simpl fst. simpl snd. by rewrite Hlt.
    - by eexists _, g10. }
  destruct Hpromo as (pct & g11 & ->).
  cbv zeta. rewrite bind_call.
  destruct (rng_normal rng (cost_ratio config) 0.04 g11) as [ratio g12]. simpl fst. simpl snd.
  eexists _, g12. split; [reflexivity|]. split; [done|].
  unfold order_of_date. simpl.
  split; [done|]. split; [by eexists|]. split; [by eexists|]. split; [by eexists|].
  split; [by eexists _, _|]. split; [done|].
  by apply py_max_lower_bound.
Qed.

Lemma orders_loop_spec (current_date : Timestamp) (n : nat) (oid : Z)
    (rows : list RawTransaction) (g : G) :
  ∃ block g',
    orders_loop rng round float_of_int current_date n oid rows g
    = inr ((oid + Z.of_nat n, rows ++ block), g')
    ∧ length block = n
    ∧ Forall (order_of_date current_date) block
    ∧ order_id <$> block = seqZ oid (Z.of_nat n).
Proof.
  revert oid rows g. induction n as [|n IH]; intros oid rows g.
  - exists [], g. simpl. rewrite app_nil_r, Z.add_0_r. done.
  - destruct (generate_order_spec current_date oid g) as (row & g1 & Hrow & Hid & Hok).
    destruct (IH (oid + 1) (rows ++ [row]) g1) as (block & g2 & Hloop & Hlen & Hall & Hids).
    exists (row :: block), g2. cbn [orders_loop].
    unfold mbind at 1, draw_bind at 1. rewrite Hrow, Hloop.
    split; [|split; [simpl; by rewrite Hlen|split; [by constructor|]]].
    + rewrite <- app_assoc. simpl. do 3 f_equal. lia.
    + rewrite fmap_cons, Hid, Hids, (seqZ_cons oid) by lia. do 2 f_equal; lia.
Qed.

Lemma dates_loop_spec (dates : list Timestamp) (oid : Z) (rows : list RawTransaction)
    (g : G) :
  Forall valid_date dates →
  ∃ blocks g',
    dates_loop rng round float_of_int dates oid rows g
    = inr ((oid + Z.of_nat (length (mjoin blocks)), rows ++ mjoin blocks), g')
    ∧ Forall2 (λ d block, (8 ≤ length block)%nat ∧ Forall (order_of_date d) block)
        dates blocks
    ∧ order_id <$> mjoin blocks = seqZ oid (Z.of_nat (length (mjoin blocks))).
Proof.
  intros Hdates. revert oid rows g.
  induction Hdates as [|d dates Hd _ IH]; intros oid rows g.
  - exists [], g. simpl. rewrite app_nil_r, Z.add_0_r. split; [done|]. split; [constructor|done].
  - apply valid_date_bounds in Hd as (_ & Hm & _).
    destruct (SEASONALITY_months _ Hm) as [season Hseason].
    cbn [dates_loop]. rewrite (bind_getitem _ _ season) by done.
    rewrite bind_call.
    destruct (rng_poisson rng (30 * season) g) as [count g1]. simpl fst. simpl snd.
    cbv zeta.
    destruct (orders_loop_spec d (Z.to_nat (Z.max 8 count)) oid rows g1)
      as (block & g2 & Hloop & Hlen & Hall & Hids).
    destruct (IH (oid + Z.of_nat (Z.to_nat (Z.max 8 count))) (rows ++ block) g2)
      as (blocks & g3 & Hrest & Hblocks & Hrids).
    exists (block :: blocks), g3.
    unfold mbind at 1, draw_bind at 1. rewrite Hloop. simpl fst. simpl snd.
    rewrite Hrest. simpl mjoin. rewrite length_app, Hlen.
    split; [|split].
    + rewrite <- app_assoc. do 3 f_equal. lia.
    + constructor; [|done]. split; [lia|done].
    + rewrite fmap_app, Hids, Hrids, Nat2Z.inj_add. by rewrite seqZ_app by lia.
Qed.

(** The frame is the concatenation of one block of orders per date. *)
Lemma generate_sales_transactions_blocks (start_date end_date : string) (seed : Z)
    (dates : list Timestamp) :
  date_range start_date end_date = Some dates →
  Forall valid_date dates →
  ∃ blocks,
    generate_sales_transactions rng default_rng date_range round float_of_int
      start_date end_date seed = inr (mjoin blocks)
    ∧ Forall2 (λ d block, (8 ≤ length block)%nat ∧ Forall (order_of_date d) block)
        dates blocks
    ∧ order_id <$> mjoin blocks = seqZ 100000 (Z.of_nat (length (mjoin blocks))).
Proof.
  intros Hrange Hdates. unfold generate_sales_transactions. rewrite Hrange.
  destruct (dates_loop_spec dates 100000 [] (default_rng seed) Hdates)
    as (blocks & g' & -> & Hblocks & Hids).
  by exists blocks.
Qed.

Lemma blocks_rows (Q : Timestamp → RawTransaction → Prop) (dates : list Timestamp)
    (blocks : list (list RawTransaction)) :
  Forall2 (λ d block, Forall (Q d) block) dates blocks →
  Forall (λ r, ∃ d, d ∈ dates ∧ Q d r) (mjoin blocks).
Proof.
  induction 1 as [|d block dates blocks Hb _ IH]; [constructor|].
  simpl. apply Forall_app. split.
  - eapply Forall_impl; [exact Hb|]. intros r Hr. exists d. split; [|done].
    apply elem_of_cons. by left.
  - eapply Forall_impl; [exact IH|]. intros r (d' & Hd' & Hr). exists d'. split; [|done].
    apply elem_of_cons. by right.
Qed.

(** X15: the generator returns a frame whose order ids are 100000,
    100001, ... in row order: consecutive and so pairwise distinct. *)
Theorem generated_order_ids (start_date end_date : string) (seed : Z)
    (dates : list Timestamp) :
  date_range start_date end_date = Some dates →
  Forall valid_date dates →
  ∃ rows,
    generate_sales_transactions rng default_rng date_range round float_of_int
      start_date end_date seed = inr rows
    ∧ order_id <$> rows = seqZ 100000 (Z.of_nat (length rows))
    ∧ NoDup (order_id <$> rows).
Proof.
  intros Hrange Hdates.
  destruct (generate_sales_transactions_blocks start_date end_date seed dates Hrange Hdates)
    as (blocks & Hgen & _ & Hids).
  exists (mjoin blocks). split; [done|]. split; [done|].
  rewrite Hids. apply NoDup_seqZ.
Qed.

(** X16: the frame holds the dates of the range in their order, each as
    its [YYYY-MM-DD] text on a block of at least eight consecutive rows;
    it has at least eight rows per date. *)
Theorem generated_orders_per_date (start_date end_date : string) (seed : Z)
    (dates : list Timestamp) :
  date_range start_date end_date = Some dates →
  Forall valid_date dates →
  ∃ rows counts,
    generate_sales_transactions rng default_rng date_range round float_of_int
      start_date end_date seed = inr rows
    ∧ length counts = length dates
    ∧ Forall (λ n, (8 ≤ n)%nat) counts
    ∧ order_date <$> rows
      = mjoin (zip_with (λ d n, replicate n (Some (strftime_Y_m_d d))) dates counts)
    ∧ (8 * length dates ≤ length rows)%nat.
Proof.
  intros Hrange Hdates.
  destruct (generate_sales_transactions_blocks start_date end_date seed dates Hrange Hdates)
    as (blocks & Hgen & Hblocks & _).
  exists (mjoin blocks), (length <$> blocks). split; [done|].
  clear Hgen Hrange Hdates.
  induction Hblocks as [|d block dates blocks [Hlen Hb] _ (IH1 & IH2 & IH3 & IH4)].
  - simpl. repeat split; (done || constructor).
  - split; [simpl; f_equal; exact IH1|]. split; [by constructor|]. split.
    + simpl. rewrite fmap_app. f_equal; [|exact IH3].
      clear -Hb. induction Hb as [|r block (Hr & _) _ IH]; [done|].
      simpl. f_equal; [exact Hr|exact IH].
    + simpl. rewrite length_app. lia.
Qed.

(** X17: every generated row names a region, channel and customer
    segment of the module's lists, a category that is a key of
    [CATEGORY_CONFIG], and a product of that category's product list. *)
Theorem generated_vocabulary (start_date end_date : string) (seed : Z)
    (dates : list Timestamp) :
  date_range start_date end_date = Some dates →
  Forall valid_date dates →
  ∃ rows,
    generate_sales_transactions rng default_rng date_range round float_of_int
      start_date end_date seed = inr rows
    ∧ Forall (λ r,
        (∃ v, region r = Some v ∧ v ∈ REGIONS)
        ∧ (∃ v, channel r = Some v ∧ v ∈ CHANNELS)
        ∧ (∃ v, customer_segment r = Some v ∧ v ∈ SEGMENTS)
        ∧ (∃ v config, category r = Some v
                       ∧ subscript CATEGORY_CONFIG v = Some config
                       ∧ product_name r ∈ products config)) rows.
Proof.
  intros Hrange Hdates.
  destruct (generate_sales_transactions_blocks start_date end_date seed dates Hrange Hdates)
    as (blocks & Hgen & Hblocks & _).
  exists (mjoin blocks). split; [done|].
  eapply Forall_impl.
  - apply (blocks_rows order_of_date dates).
    eapply Forall2_impl; [exact Hblocks|]. by intros d block [_ ?].
  - intros r (d & _ & _ & Hr & Hc & Hs & Hp & _). done.
Qed.

(** X18: every generated row sells between 1 and 140 units, at a unit
    price that is a number and at least 3.0. *)
Theorem generated_measures (start_date end_date : string) (seed : Z)
    (dates : list Timestamp) :
  date_range start_date end_date = Some dates →
  Forall valid_date dates →
  ∃ rows,
    generate_sales_transactions rng default_rng date_range round float_of_int
      start_date end_date seed = inr rows
    ∧ Forall (λ r, 1 ≤ units_sold r ≤ 140
                   ∧ PrimFloat.leb 3 (unit_price r) = true
                   ∧ PrimFloat.is_nan (unit_price r) = false) rows.
Proof.
  intros Hrange Hdates.
  destruct (generate_sales_transactions_blocks start_date end_date seed dates Hrange Hdates)
    as (blocks & Hgen & Hblocks & _).
  exists (mjoin blocks). split; [done|].
  eapply Forall_impl.
  - apply (blocks_rows order_of_date dates).
    eapply Forall2_impl; [exact Hblocks|]. by intros d block [_ ?].
  - intros r (d & _ & _ & _ & _ & _ & _ & Hunits & Hprice). split; [done|].
    split; [done|]. apply is_nan_false. intros Hnan.
    rewrite FloatAxioms.leb_spec, Hnan in Hprice. done.
Qed.

(** X19: the generated frame is one the transform accepts: every row has
    its four natural keys present, and an order date that [to_datetime]
    reads as a date of the range and [strftime] writes back unchanged. *)
Theorem generated_frame_well_formed (start_date end_date : string) (seed : Z)
    (dates : list Timestamp) :
  date_range start_date end_date = Some dates →
  Forall valid_date dates →
  ∃ rows,
    generate_sales_transactions rng default_rng date_range round float_of_int
      start_date end_date seed = inr rows
    ∧ Forall (well_formed parse_iso_date) rows
    ∧ Forall (λ r, ∃ s d, order_date r = Some s ∧ parse_iso_date s = Some d ∧ d ∈ dates)
        rows.
Proof.
  intros Hrange Hdates.
  destruct (generate_sales_transactions_blocks start_date end_date seed dates Hrange Hdates)
    as (blocks & Hgen & Hblocks & _).
  exists (mjoin blocks). split; [done|].
  assert (Hrows : Forall (λ r, ∃ d, d ∈ dates ∧ order_of_date d r) (mjoin blocks)).
  { apply (blocks_rows order_of_date dates).
    eapply Forall2_impl; [exact Hblocks|]. by intros d block [_ ?]. }
  split.
  - eapply Forall_impl; [exact Hrows|].
    intros r (d & Hd & Hdate & (g & Hg & _) & (c & Hc & _) & (s & Hs & _)
              & (v & config & Hcat & _) & _).
    pose proof (proj1 (Forall_forall _ _) Hdates d Hd) as Hv.
    unfold well_formed. rewrite Hg, Hc, Hs, Hcat.
    split; [|by repeat split; eexists].
    exists (strftime_Y_m_d d), d. by rewrite parse_iso_date_strftime.
  - eapply Forall_impl; [exact Hrows|].
    intros r (d & Hd & Hdate & _).
    pose proof (proj1 (Forall_forall _ _) Hdates d Hd) as Hv.
    exists (strftime_Y_m_d d), d. by rewrite parse_iso_date_strftime.
Qed.

End GenerateDataProperties.

(** The counter keeps numpy's contract. *)
Lemma counter_rng_contract : GeneratorContract counter_rng.
Proof.
  split.
  - intros a p g Ha. simpl.
    assert (Hlen : (length a ≠ 0)%nat) by (by destruct a).
    destruct (lookup_lt_is_Some_2 a (g mod length a)%nat) as [x Hx].
    { by apply Nat.mod_upper_bound. }
    rewrite Hx. simpl. by eapply list_elem_of_lookup_2.
  - intros low high g Hlt. simpl.
    pose proof (Z.mod_pos_bound (Z.of_nat g) (high - low) ltac:(lia)). lia.
Qed.

(** *** The generator run on four days across a year end *)

Lemma generated_order_ids_witness :
  ∃ rows,
    generate_sales_transactions counter_rng Z.to_nat date_range_iso round_half_even
      float_of_Z "2023-12-30" "2024-01-02" 42 = inr rows
    ∧ order_id <$> rows = seqZ 100000 (Z.of_nat (length rows))
    ∧ NoDup (order_id <$> rows).
Proof.
  apply (generated_order_ids counter_rng Z.to_nat date_range_iso round_half_even
           float_of_Z counter_rng_contract "2023-12-30" "2024-01-02" 42 year_end_dates).
  - vm_compute. reflexivity.
  - apply (bool_decide_unpack _). vm_compute. exact I.
Defined.

Lemma generated_orders_per_date_witness :
  ∃ rows counts,
    generate_sales_transactions counter_rng Z.to_nat date_range_iso round_half_even
      float_of_Z "2023-12-30" "2024-01-02" 42 = inr rows
    ∧ length counts = length year_end_dates
    ∧ Forall (λ n, (8 ≤ n)%nat) counts
    ∧ order_date <$> rows
      = mjoin (zip_with (λ d n, replicate n (Some (strftime_Y_m_d d)))
                 year_end_dates counts)
    ∧ (8 * length year_end_dates ≤ length rows)%nat.
Proof.
  apply (generated_orders_per_date counter_rng Z.to_nat date_range_iso round_half_even
           float_of_Z counter_rng_contract "2023-12-30" "2024-01-02" 42 year_end_dates).
  - vm_compute. reflexivity.
  - apply (bool_decide_unpack _). vm_compute. exact I.
Defined.

Lemma generated_vocabulary_witness :
  ∃ rows,
    generate_sales_transactions counter_rng Z.to_nat date_range_iso round_half_even
      float_of_Z "2023-12-30" "2024-01-02" 42 = inr rows
    ∧ Forall (λ r,
        (∃ v, region r = Some v ∧ v ∈ REGIONS)
        ∧ (∃ v, channel r = Some v ∧ v ∈ CHANNELS)
        ∧ (∃ v, customer_segment r = Some v ∧ v ∈ SEGMENTS)
        ∧ (∃ v config, category r = Some v
                       ∧ subscript CATEGORY_CONFIG v = Some config
                       ∧ product_name r ∈ products config)) rows.
Proof.
  apply (generated_vocabulary counter_rng Z.to_nat date_range_iso round_half_even
           float_of_Z counter_rng_contract "2023-12-30" "2024-01-02" 42 year_end_dates).
  - vm_compute. reflexivity.
  - apply (bool_decide_unpack _). vm_compute. exact I.
Defined.

Lemma generated_measures_witness :
  ∃ rows,
    generate_sales_transactions counter_rng Z.to_nat date_range_iso round_half_even
      float_of_Z "2023-12-30" "2024-01-02" 42 = inr rows
    ∧ Forall (λ r, 1 ≤ units_sold r ≤ 140
                   ∧ PrimFloat.leb 3 (unit_price r) = true
                   ∧ PrimFloat.is_nan (unit_price r) = false) rows.
Proof.
  apply (generated_measures counter_rng Z.to_nat date_range_iso round_half_even
           float_of_Z counter_rng_contract "2023-12-30" "2024-01-02" 42 year_end_dates).
  - vm_compute. reflexivity.
  - apply (bool_decide_unpack _). vm_compute. exact I.
Defined.

Lemma generated_frame_well_formed_witness :
  ∃ rows,
    generate_sales_transactions counter_rng Z.to_nat date_range_iso round_half_even
      float_of_Z "2023-12-30" "2024-01-02" 42 = inr rows
    ∧ Forall (well_formed parse_iso_date) rows
    ∧ Forall (λ r, ∃ s d, order_date r = Some s ∧ parse_iso_date s = Some d
                          ∧ d ∈ year_end_dates) rows.
Proof.
  apply (generated_frame_well_formed counter_rng Z.to_nat date_range_iso round_half_even
           float_of_Z counter_rng_contract "2023-12-30" "2024-01-02" 42 year_end_dates).
  - vm_compute. reflexivity.
  - apply (bool_decide_unpack _). vm_compute. exact I.
Defined.
